(** * wfs-ts: a shallow embedding of the WFS protocol engine

    The development follows the layout of the TypeScript sources:
    string primitives of the platform, [utils/xml.ts], the filter
    compiler, the KVP builders, the response parsers and the client.

    Conventions.
    - A JavaScript string is a sequence of code units; the model covers
      the code units below 256 and represents them by [ascii].
    - [undefined] is [None] wherever a field is optional; dynamic values
      ([unknown]) are terms of [JsValue].
    - JavaScript numbers are covered on their integer fragment, extended
      with [NaN] and the two infinities. *)

From Stdlib Require Import ZArith NArith Ascii String List Bool Lia.
From Stdlib Require Import DecimalString.
From Stdlib Require DecimalPos.
From stdpp Require Import base option list strings gmap.

Local Open Scope stdpp_scope.
Set Warnings "-register-all".

(** ** String primitives of the platform *)

Module JsString.

Definition isWhiteSpace (c : ascii) : bool :=
  let n := N_of_ascii c in
  ((n =? 9) || (n =? 10) || (n =? 11) || (n =? 12) || (n =? 13)
   || (n =? 32) || (n =? 160))%N.

(** [String.prototype.toLowerCase] on the code units below 256: the
    ASCII capitals and the Latin-1 capitals (U+00C0..U+00DE without
    the multiplication sign U+00D7) move up by 32. *)
Definition lowerChar (c : ascii) : ascii :=
  let n := N_of_ascii c in
  if (((65 <=? n) && (n <=? 90))
      || ((192 <=? n) && (n <=? 222) && negb (n =? 215)))%N
  then ascii_of_N (n + 32) else c.

Fixpoint toLowerCase (s : string) : string :=
  match s with
  | EmptyString => EmptyString
  | String c s' => String (lowerChar c) (toLowerCase s')
  end.

Fixpoint startsWith (pat s : string) : bool :=
  match pat, s with
  | EmptyString, _ => true
  | String _ _, EmptyString => false
  | String a pat', String b s' => bool_decide (a = b) && startsWith pat' s'
  end.

(** [s.indexOf(pat)]; [None] is the result [-1]. *)
Fixpoint indexOf (pat s : string) : option nat :=
  if startsWith pat s then Some 0
  else match s with
       | EmptyString => None
       | String _ s' => S <$> indexOf pat s'
       end.

Definition includes (pat s : string) : bool :=
  bool_decide (is_Some (indexOf pat s)).

Fixpoint sdrop (n : nat) (s : string) : string :=
  match n, s with
  | O, _ => s
  | S _, EmptyString => EmptyString
  | S n', String _ s' => sdrop n' s'
  end.

Fixpoint stake (n : nat) (s : string) : string :=
  match n, s with
  | O, _ => EmptyString
  | S _, EmptyString => EmptyString
  | S n', String c s' => String c (stake n' s')
  end.

(** [s.indexOf(pat, from)] for a non-negative [from]. *)
Definition indexOfFrom (pat s : string) (from : nat) : option nat :=
  let from' := Nat.min from (String.length s) in
  (fun i => from' + i) <$> indexOf pat (sdrop from' s).

(** [s.slice(a, b)] and [s.slice(a)] for non-negative indices. *)
Definition slice (s : string) (a b : nat) : string := stake (b - a) (sdrop a s).
Definition sliceFrom (s : string) (a : nat) : string := sdrop a s.

Fixpoint trimEnd (s : string) : string :=
  match s with
  | EmptyString => EmptyString
  | String c s' =>
      match trimEnd s' with
      | EmptyString => if isWhiteSpace c then EmptyString else String c EmptyString
      | t => String c t
      end
  end.

Fixpoint trimStart (s : string) : string :=
  match s with
  | EmptyString => EmptyString
  | String c s' => if isWhiteSpace c then trimStart s' else s
  end.

Definition trim (s : string) : string := trimEnd (trimStart s).

Fixpoint endsWith (suf s : string) : bool :=
  bool_decide (s = suf)
  || match s with
     | EmptyString => false
     | String _ s' => endsWith suf s'
     end.

(** [arr.join(sep)] on an array of strings. *)
Fixpoint join (sep : string) (l : list string) : string :=
  match l with
  | [] => EmptyString
  | [x] => x
  | x :: rest => x +:+ sep +:+ join sep rest
  end.

Fixpoint concat (l : list string) : string :=
  match l with
  | [] => EmptyString
  | x :: rest => x +:+ concat rest
  end.

(** [s.replace(/c/g, rep)] for a one-character pattern. *)
Fixpoint replaceAllChar (c : ascii) (rep : string) (s : string) : string :=
  match s with
  | EmptyString => EmptyString
  | String a s' =>
      (if bool_decide (a = c) then rep else String a EmptyString)
        +:+ replaceAllChar c rep s'
  end.

(** Occurrence of a character, as a proposition. *)
Fixpoint occurs (c : ascii) (s : string) : Prop :=
  match s with
  | EmptyString => False
  | String a s' => a = c \/ occurs c s'
  end.

Definition dquote : string := String "034" EmptyString.

End JsString.

(** ** Dynamic values *)

Module Js.
Import JsString.

(** Numbers: the integers, [NaN] and the infinities.  Fractions are not
    represented, and the model follows the platform on the safe
    integers; the statements about numbers are about integers. *)
Inductive number : Type :=
| Int (z : Z)
| NaN
| PosInf
| NegInf.

Definition isFinite (n : number) : bool :=
  match n with Int _ => true | _ => false end.

(** [String(n)]: the decimal digits of an integer (from 10^21 on the
    platform writes an exponent, which is outside the model). *)
Definition numberToString (n : number) : string :=
  match n with
  | Int z => NilZero.string_of_int (Z.to_int z)
  | NaN => "NaN"
  | PosInf => "Infinity"
  | NegInf => "-Infinity"
  end.

(** [Number(s)]: surrounding white space is dropped, the empty string
    is [0], a signed run of decimal digits is its value; every other
    literal of the integer fragment is [NaN].  A text with a decimal
    point or an exponent denotes a number that is not represented. *)
Definition stringToNumber (s : string) : number :=
  let t := trim s in
  if bool_decide (t = "") then Int 0
  else if bool_decide (t = "Infinity") || bool_decide (t = "+Infinity") then PosInf
  else if bool_decide (t = "-Infinity") then NegInf
  else
    let digits (r : string) : option Z := Z.of_uint <$> NilZero.uint_of_string r in
    let parsed :=
      match t with
      | String "+" r => digits r
      | String "-" r => Z.opp <$> digits r
      | _ => digits t
      end in
    match parsed with
    | Some z => Int z
    | None => NaN
    end.

(** [a < b] on numbers *)
Definition ltNumber (a b : number) : bool :=
  match a, b with
  | NaN, _ | _, NaN => false
  | Int x, Int y => (x <? y)%Z
  | NegInf, NegInf => false
  | NegInf, _ => true
  | _, NegInf => false
  | PosInf, _ => false
  | Int _, PosInf => true
  end.

Inductive JsValue : Type :=
| JUndefined
| JNull
| JBool (b : bool)
| JNum (n : number)
| JStr (s : string)
| JArr (items : list JsValue)
| JObj (fields : list (string * JsValue)).

Definition optStr (o : option string) : JsValue :=
  match o with Some s => JStr s | None => JUndefined end.
Definition optNum (o : option number) : JsValue :=
  match o with Some n => JNum n | None => JUndefined end.
Definition optBool (o : option bool) : JsValue :=
  match o with Some b => JBool b | None => JUndefined end.

(** [String(v)] *)
Fixpoint ToString (v : JsValue) : string :=
  match v with
  | JUndefined => "undefined"
  | JNull => "null"
  | JBool true => "true"
  | JBool false => "false"
  | JNum n => numberToString n
  | JStr s => s
  | JArr items =>
      join ","
        (map (fun x => match x with
                       | JUndefined | JNull => EmptyString
                       | _ => ToString x
                       end) items)
  | JObj _ => "[object Object]"
  end.

(** Truthiness, the test behind [!v], [v && ...] and [if (v)]. *)
Definition truthy (v : JsValue) : bool :=
  match v with
  | JUndefined | JNull => false
  | JBool b => b
  | JNum (Int z) => negb (z =? 0)%Z
  | JNum NaN => false
  | JNum _ => true
  | JStr s => negb (bool_decide (s = ""))
  | JArr _ | JObj _ => true
  end.

(** [typeof v === "object"] (this includes [null] and arrays). *)
Definition isObjectType (v : JsValue) : bool :=
  match v with
  | JNull | JArr _ | JObj _ => true
  | _ => false
  end.

(** [v && typeof v === "object"], the test guarding every tree walk. *)
Definition isNode (v : JsValue) : bool := truthy v && isObjectType v.

Definition isNullish (v : JsValue) : bool :=
  match v with JUndefined | JNull => true | _ => false end.

(** [a ?? b] *)
Definition nullish (a b : JsValue) : JsValue := if isNullish a then b else a.

Definition indexKey (i : nat) : string := NilZero.string_of_uint (Nat.to_uint i).

Fixpoint indexed {A} (i : nat) (l : list A) : list (string * A) :=
  match l with
  | [] => []
  | x :: rest => (indexKey i, x) :: indexed (S i) rest
  end.

Fixpoint chars (s : string) : list JsValue :=
  match s with
  | EmptyString => []
  | String c s' => JStr (String c EmptyString) :: chars s'
  end.

(** [Object.entries(v)]: the own enumerable string-keyed properties in
    enumeration order.  The field list of [JObj] is kept in that order. *)
Definition entries (v : JsValue) : list (string * JsValue) :=
  match v with
  | JObj fields => fields
  | JArr items => indexed 0 items
  | JStr s => indexed 0 (chars s)
  | _ => []
  end.

Fixpoint assoc {A} (k : string) (l : list (string * A)) : option A :=
  match l with
  | [] => None
  | (k', v) :: rest => if bool_decide (k' = k) then Some v else assoc k rest
  end.

(** [v[k]] on a value that is not [undefined] or [null], for a key [k]
    that is not inherited from a prototype (the parsers only read keys
    such as ["#text"] and ["@_srsName"]). *)
Definition getProp (v : JsValue) (k : string) : JsValue :=
  match v with
  | JObj fields => default JUndefined (assoc k fields)
  | JArr items =>
      if bool_decide (k = "length") then JNum (Int (Z.of_nat (length items)))
      else default JUndefined (assoc k (indexed 0 items))
  | JStr s =>
      if bool_decide (k = "length") then JNum (Int (Z.of_nat (String.length s)))
      else default JUndefined (assoc k (indexed 0 (chars s)))
  | _ => JUndefined
  end.

(** [asArray] of [utils/xml.ts] *)
Definition asArray (v : JsValue) : list JsValue :=
  match v with
  | JUndefined | JNull => []
  | JArr items => items
  | _ => [v]
  end.

End Js.

(** ** [utils/xml.ts] *)

Module Xml.
Import JsString Js.

Definition escapeXmlString (str : string) : string :=
  replaceAllChar "'" "&apos;"
    (replaceAllChar "034" "&quot;"
       (replaceAllChar ">" "&gt;"
          (replaceAllChar "<" "&lt;"
             (replaceAllChar "&" "&amp;" str)))).

(** [escapeXml(value)]: [String(value ?? "")] with the five markup
    characters replaced, ampersand first. *)
Definition escapeXml (value : JsValue) : string :=
  escapeXmlString (ToString (nullish value (JStr ""))).

Definition xmlAttr (name : string) (value : JsValue) : string :=
  match value with
  | JUndefined | JNull | JStr EmptyString => EmptyString
  | _ => " " +:+ name +:+ "=" +:+ dquote +:+ escapeXml value +:+ dquote
  end.

Inductive Position : Type := Before | After | Replace.

Record XmlOverride : Type := mkXmlOverride {
  target : string;
  position : option Position;
  xml : string
}.

(** One step of the [reduce] in [applyXmlOverrides]. *)
Definition applyXmlOverride (acc : string) (override : XmlOverride) : string :=
  let startTag := "<" +:+ target override in
  match indexOf startTag acc with
  | None => acc
  | Some openIndex =>
      match indexOfFrom ">" acc openIndex with
      | None => acc
      | Some openEnd =>
          let openingSegment := slice acc openIndex (openEnd + 1) in
          let selfClosing := endsWith "/>" (trimEnd openingSegment) in
          let closeTag := "</" +:+ target override +:+ ">" in
          let closeIndex :=
            if selfClosing then None else indexOfFrom closeTag acc (openEnd + 1) in
          match selfClosing, closeIndex with
          | false, None => acc
          | _, _ =>
              let segmentEnd :=
                match closeIndex with
                | Some ci => ci + String.length closeTag
                | None => openEnd + 1
                end in
              match default After (position override) with
              | Before =>
                  slice acc 0 openIndex +:+ xml override +:+ sliceFrom acc openIndex
              | Replace =>
                  slice acc 0 openIndex +:+ xml override +:+ sliceFrom acc segmentEnd
              | After =>
                  slice acc 0 segmentEnd +:+ xml override +:+ sliceFrom acc segmentEnd
              end
          end
      end
  end.

Definition applyXmlOverrides (doc : string) (overrides : option (list XmlOverride))
  : string :=
  match overrides with
  | None | Some [] => doc
  | Some l => fold_left applyXmlOverride l doc
  end.

End Xml.

(** ** Primitives supplied by the platform and by third-party packages

    [JSON.stringify], [JSON.parse], the XML tree parser of
    fast-xml-parser and the collation order of [localeCompare] are given
    from outside the repository; the model is parametric in them. *)

Module Platform.
Import Js.

Class Externals : Type := {
  (** [JSON.stringify(v)] *)
  JSON_stringify : JsValue -> string;
  (** [JSON.parse(s)]; [None] when it throws *)
  JSON_parse : string -> option JsValue;
  (** [new XMLParser({...}).parse(xml)]: the tree of a document the
      parser accepts.  The errors it throws on an unterminated tag,
      comment, CDATA section or processing instruction are not
      represented: what is stated about the parse of a text is stated
      for the texts the parser accepts. *)
  parseXml : string -> JsValue;
  (** [a.localeCompare(b) <= 0] *)
  localeLeb : string -> string -> bool
}.

(** A platform for closed examples: the tree parser answers with a
    fixed table from documents to trees and the other primitives are
    inert. *)
Definition tablePlatform (documents : list (string * JsValue)) : Externals :=
  {| JSON_stringify := fun _ => EmptyString;
     JSON_parse := fun _ => None;
     parseXml := fun doc => default JUndefined (assoc doc documents);
     localeLeb := String.leb |}.

End Platform.

(** ** Versions ([types.ts], [core/constants.ts]) *)

Module Version.

(** [WfsVersion] is declared as the union of three string literals; at
    run time a version is whatever string reaches the code (the version
    a capabilities document advertises is cast to the type unchecked). *)
Definition WfsVersion : Type := string.

Definition V2_0_2 : WfsVersion := "2.0.2".
Definition V2_0_0 : WfsVersion := "2.0.0".
Definition V1_1_0 : WfsVersion := "1.1.0".

(** [version === "1.1.0"] *)
Definition is110 (v : WfsVersion) : bool := bool_decide (v = "1.1.0").

Definition DEFAULT_WFS_VERSION : WfsVersion := V2_0_2.
Definition SUPPORTED_VERSIONS : list WfsVersion := [V2_0_2; V2_0_0; V1_1_0].
Definition GEOJSON_OUTPUT_FORMATS : list string :=
  ["application/json"; "application/geo+json"; "json"].

End Version.

(** ** GeoJSON geometries and their GML encoding ([serializers/gml.ts]) *)

Module Gml.
Import JsString Js Xml Platform Version.

Definition Position : Type := list number.

Inductive Geometry : Type :=
| Point (coordinates : Position)
| LineString (coordinates : list Position)
| Polygon (coordinates : list (list Position))
| MultiPoint (coordinates : list Position)
| MultiLineString (coordinates : list (list Position))
| MultiPolygon (coordinates : list (list (list Position)))
| GeometryCollection (geometries : list Geometry).

Definition coords (position : Position) : string :=
  join " " (map numberToString position).

Definition coordList (positions : list Position) : string :=
  join " " (map (fun position => join " " (map numberToString position)) positions).

Definition polygonToGml (rings : list (list Position)) (gmlPrefix srsAttr : string)
  : string :=
  let outer := default [] (head rings) in
  let inners := tail rings in
  "<" +:+ gmlPrefix +:+ ":Polygon" +:+ srsAttr +:+ "><" +:+ gmlPrefix
    +:+ ":exterior><" +:+ gmlPrefix +:+ ":LinearRing><" +:+ gmlPrefix
    +:+ ":posList>" +:+ coordList outer +:+ "</" +:+ gmlPrefix
    +:+ ":posList></" +:+ gmlPrefix +:+ ":LinearRing></" +:+ gmlPrefix
    +:+ ":exterior>"
    +:+ JsString.concat
          (map (fun inner =>
                  "<" +:+ gmlPrefix +:+ ":interior><" +:+ gmlPrefix
                    +:+ ":LinearRing><" +:+ gmlPrefix +:+ ":posList>"
                    +:+ coordList inner +:+ "</" +:+ gmlPrefix
                    +:+ ":posList></" +:+ gmlPrefix +:+ ":LinearRing></"
                    +:+ gmlPrefix +:+ ":interior>") inners)
    +:+ "</" +:+ gmlPrefix +:+ ":Polygon>".

Definition geometryToGml (geometry : Geometry) (version : WfsVersion)
  (srsName : option string) : string :=
  let gmlPrefix := if is110 version then "gml" else "gml" in
  let srsAttr := xmlAttr "srsName" (optStr srsName) in
  match geometry with
  | Point c =>
      "<" +:+ gmlPrefix +:+ ":Point" +:+ srsAttr +:+ "><" +:+ gmlPrefix +:+ ":pos>"
        +:+ coords c +:+ "</" +:+ gmlPrefix +:+ ":pos></" +:+ gmlPrefix +:+ ":Point>"
  | LineString c =>
      "<" +:+ gmlPrefix +:+ ":LineString" +:+ srsAttr +:+ "><" +:+ gmlPrefix
        +:+ ":posList>" +:+ coordList c +:+ "</" +:+ gmlPrefix +:+ ":posList></"
        +:+ gmlPrefix +:+ ":LineString>"
  | Polygon c => polygonToGml c gmlPrefix srsAttr
  | MultiPoint c =>
      "<" +:+ gmlPrefix +:+ ":MultiPoint" +:+ srsAttr +:+ ">"
        +:+ JsString.concat
              (map (fun point =>
                      "<" +:+ gmlPrefix +:+ ":pointMember><" +:+ gmlPrefix
                        +:+ ":Point><" +:+ gmlPrefix +:+ ":pos>" +:+ coords point
                        +:+ "</" +:+ gmlPrefix +:+ ":pos></" +:+ gmlPrefix
                        +:+ ":Point></" +:+ gmlPrefix +:+ ":pointMember>") c)
        +:+ "</" +:+ gmlPrefix +:+ ":MultiPoint>"
  | MultiLineString c =>
      "<" +:+ gmlPrefix +:+ ":MultiLineString" +:+ srsAttr +:+ ">"
        +:+ JsString.concat
              (map (fun line =>
                      "<" +:+ gmlPrefix +:+ ":lineStringMember><" +:+ gmlPrefix
                        +:+ ":LineString><" +:+ gmlPrefix +:+ ":posList>"
                        +:+ coordList line +:+ "</" +:+ gmlPrefix
                        +:+ ":posList></" +:+ gmlPrefix +:+ ":LineString></"
                        +:+ gmlPrefix +:+ ":lineStringMember>") c)
        +:+ "</" +:+ gmlPrefix +:+ ":MultiLineString>"
  | MultiPolygon c =>
      "<" +:+ gmlPrefix +:+ ":MultiPolygon" +:+ srsAttr +:+ ">"
        +:+ JsString.concat
              (map (fun polygon =>
                      "<" +:+ gmlPrefix +:+ ":polygonMember>"
                        +:+ polygonToGml polygon gmlPrefix ""
                        +:+ "</" +:+ gmlPrefix +:+ ":polygonMember>") c)
        +:+ "</" +:+ gmlPrefix +:+ ":MultiPolygon>"
  | GeometryCollection _ => ""
  end.

Section WithExternals.
Context `{Externals}.

Definition literalToXml (value : JsValue) : string :=
  match value with
  | JNull | JUndefined => ""
  | JStr _ | JNum _ | JBool _ => escapeXml value
  | JArr _ | JObj _ => escapeXml (JStr (JSON_stringify value))
  end.

End WithExternals.

Definition qNameValueReference (value : string) (version : WfsVersion) : string :=
  let prefix := if is110 version then "ogc" else "fes" in
  let element := if is110 version then "PropertyName" else "ValueReference" in
  "<" +:+ prefix +:+ ":" +:+ element +:+ ">" +:+ escapeXml (JStr value)
    +:+ "</" +:+ prefix +:+ ":" +:+ element +:+ ">".

End Gml.

(** ** The filter algebra and its compiler ([filters/types.ts],
    [filters/compiler.ts]) *)

Module Filter.
Import JsString Js Xml Platform Version Gml.

Inductive LogicalOp : Type := OpAnd | OpOr | OpNot.
Inductive ComparisonOp : Type := OpEq | OpNeq | OpLt | OpLte | OpGt | OpGte.
Inductive SpatialOp : Type :=
| OpBbox | OpIntersects | OpWithin | OpContains
| OpDisjoint | OpTouches | OpOverlaps | OpCrosses.

(** [WfsFilter].  The last constructor stands for a value whose [op] lies
    outside the declared union (the fall-through of the [switch]); values
    with a declared [op] are built with the constructor of their shape. *)
Inductive WfsFilter : Type :=
| Logical (op : LogicalOp) (filters : list WfsFilter)
| Comparison (op : ComparisonOp) (property : string) (value : JsValue)
    (matchCase : option bool)
| Like (property value : string) (wildCard singleChar escapeChar : option string)
    (matchCase : option bool)
| Between (property : string) (lower upper : JsValue)
| IsNull (property : string)
| Id (ids : list string)
| Spatial (op : SpatialOp) (property : string) (geometry : Geometry)
    (srsName : option string)
| Extension (op : string).







Definition COMPARISON_TAG_MAP (op : ComparisonOp) : string :=
  match op with
  | OpEq => "PropertyIsEqualTo"
  | OpNeq => "PropertyIsNotEqualTo"
  | OpLt => "PropertyIsLessThan"
  | OpLte => "PropertyIsLessThanOrEqualTo"
  | OpGt => "PropertyIsGreaterThan"
  | OpGte => "PropertyIsGreaterThanOrEqualTo"
  end.

Definition SPATIAL_TAG_MAP (op : SpatialOp) : string :=
  match op with
  | OpBbox => "BBOX"
  | OpIntersects => "Intersects"
  | OpWithin => "Within"
  | OpContains => "Contains"
  | OpDisjoint => "Disjoint"
  | OpTouches => "Touches"
  | OpOverlaps => "Overlaps"
  | OpCrosses => "Crosses"
  end.

Record CompileFilterOptions : Type := mkCompileFilterOptions {
  version : WfsVersion;
  srsName : option string;
  includeNamespaceDeclarations : option bool
}.

Definition filterPrefix (v : WfsVersion) : string :=
  if is110 v then "ogc" else "fes".

Definition filterNamespaceAttrs (v : WfsVersion) : string :=
  if is110 v
  then " xmlns:ogc=" +:+ dquote +:+ "http://www.opengis.net/ogc" +:+ dquote
         +:+ " xmlns:gml=" +:+ dquote +:+ "http://www.opengis.net/gml" +:+ dquote
  else " xmlns:fes=" +:+ dquote +:+ "http://www.opengis.net/fes/2.0" +:+ dquote
         +:+ " xmlns:gml=" +:+ dquote +:+ "http://www.opengis.net/gml/3.2" +:+ dquote.

(** *** [geometryBounds] *)

(** [collect] on a position: an array of at least two entries whose
    first two are numbers is recorded; its children are numbers and add
    nothing otherwise. *)
Definition collectPosition (c : Position) : list Position :=
  match c with
  | _ :: _ :: _ => [c]
  | _ => []
  end.

(** [collect] on deeper arrays: the first entry is not a number, so the
    children are visited in order. *)
Definition collectPositions (cs : list Position) : list Position :=
  flat_map collectPosition cs.
Definition collectRings (cs : list (list Position)) : list Position :=
  flat_map collectPositions cs.
Definition collectPolygons (cs : list (list (list Position))) : list Position :=
  flat_map collectRings cs.

Definition boundsStep (acc : number * number * number * number) (position : Position)
  : number * number * number * number :=
  let '(minX, minY, maxX, maxY) := acc in
  let x := nth 0 position NaN in
  let y := nth 1 position NaN in
  (if ltNumber x minX then x else minX,
   if ltNumber y minY then y else minY,
   if ltNumber maxX x then x else maxX,
   if ltNumber maxY y then y else maxY).

Definition geometryBounds (geometry : Geometry) : number * number * number * number :=
  let positions :=
    match geometry with
    | Point c => collectPosition c
    | LineString c => collectPositions c
    | Polygon c => collectRings c
    | MultiPoint c => collectPositions c
    | MultiLineString c => collectRings c
    | MultiPolygon c => collectPolygons c
    | GeometryCollection _ => []
    end in
  match positions with
  | [] => (Int 0, Int 0, Int 0, Int 0)
  | _ => fold_left boundsStep positions (PosInf, PosInf, NegInf, NegInf)
  end.

Section WithExternals.
Context `{Externals}.

Definition compileComparisonFilter (op : ComparisonOp) (property : string)
  (value : JsValue) (matchCase : option bool) (v : WfsVersion) : string :=
  let prefix := filterPrefix v in
  let tag := COMPARISON_TAG_MAP op in
  "<" +:+ prefix +:+ ":" +:+ tag +:+ xmlAttr "matchCase" (optBool matchCase) +:+ ">"
    +:+ qNameValueReference property v
    +:+ "<" +:+ prefix +:+ ":Literal>" +:+ literalToXml value
    +:+ "</" +:+ prefix +:+ ":Literal></" +:+ prefix +:+ ":" +:+ tag +:+ ">".

Definition compileLikeFilter (property value : string)
  (wildCard singleChar escapeChar : option string) (matchCase : option bool)
  (v : WfsVersion) : string :=
  let prefix := filterPrefix v in
  "<" +:+ prefix +:+ ":PropertyIsLike"
    +:+ xmlAttr "wildCard" (JStr (default "*" wildCard))
    +:+ xmlAttr "singleChar" (JStr (default "." singleChar))
    +:+ xmlAttr "escapeChar" (JStr (default "!" escapeChar))
    +:+ xmlAttr "matchCase" (optBool matchCase) +:+ ">"
    +:+ qNameValueReference property v
    +:+ "<" +:+ prefix +:+ ":Literal>" +:+ escapeXml (JStr value)
    +:+ "</" +:+ prefix +:+ ":Literal></" +:+ prefix +:+ ":PropertyIsLike>".

Definition compileBetweenFilter (property : string) (lower upper : JsValue)
  (v : WfsVersion) : string :=
  let prefix := filterPrefix v in
  "<" +:+ prefix +:+ ":PropertyIsBetween>" +:+ qNameValueReference property v
    +:+ "<" +:+ prefix +:+ ":LowerBoundary><" +:+ prefix +:+ ":Literal>"
    +:+ literalToXml lower
    +:+ "</" +:+ prefix +:+ ":Literal></" +:+ prefix +:+ ":LowerBoundary><"
    +:+ prefix +:+ ":UpperBoundary><" +:+ prefix +:+ ":Literal>"
    +:+ literalToXml upper
    +:+ "</" +:+ prefix +:+ ":Literal></" +:+ prefix +:+ ":UpperBoundary></"
    +:+ prefix +:+ ":PropertyIsBetween>".

Definition compileNullFilter (property : string) (v : WfsVersion) : string :=
  let prefix := filterPrefix v in
  "<" +:+ prefix +:+ ":PropertyIsNull>" +:+ qNameValueReference property v
    +:+ "</" +:+ prefix +:+ ":PropertyIsNull>".

Definition compileIdFilter (ids : list string) (v : WfsVersion) : string :=
  if is110 v
  then JsString.concat
         (map (fun id => "<ogc:FeatureId fid=" +:+ dquote +:+ escapeXml (JStr id)
                           +:+ dquote +:+ "/>") ids)
  else JsString.concat
         (map (fun id => "<fes:ResourceId rid=" +:+ dquote +:+ escapeXml (JStr id)
                           +:+ dquote +:+ "/>") ids).

Definition compileSpatialFilter (op : SpatialOp) (property : string)
  (geometry : Geometry) (filterSrsName : option string)
  (options : CompileFilterOptions) : string :=
  let prefix := filterPrefix (version options) in
  let tag := SPATIAL_TAG_MAP op in
  let srs := match filterSrsName with Some s => Some s | None => srsName options end in
  match op with
  | OpBbox =>
      let '(b0, b1, b2, b3) := geometryBounds geometry in
      "<" +:+ prefix +:+ ":" +:+ tag +:+ ">"
        +:+ qNameValueReference property (version options)
        +:+ "<gml:Envelope" +:+ xmlAttr "srsName" (optStr srs)
        +:+ "><gml:lowerCorner>" +:+ numberToString b0 +:+ " " +:+ numberToString b1
        +:+ "</gml:lowerCorner><gml:upperCorner>" +:+ numberToString b2 +:+ " "
        +:+ numberToString b3
        +:+ "</gml:upperCorner></gml:Envelope></" +:+ prefix +:+ ":" +:+ tag +:+ ">"
  | _ =>
      "<" +:+ prefix +:+ ":" +:+ tag +:+ ">"
        +:+ qNameValueReference property (version options)
        +:+ geometryToGml geometry (version options) srs
        +:+ "</" +:+ prefix +:+ ":" +:+ tag +:+ ">"
  end.

(** [compileFilterBody] together with [compileLogicalFilter], which
    calls back into it. *)
Fixpoint compileFilterBody (filter : WfsFilter) (options : CompileFilterOptions)
  : string :=
  match filter with
  | Logical op filters =>
      let prefix := filterPrefix (version options) in
      match op with
      | OpNot =>
          match filters with
          | [] => ""
          | first :: _ =>
              "<" +:+ prefix +:+ ":Not>" +:+ compileFilterBody first options
                +:+ "</" +:+ prefix +:+ ":Not>"
          end
      | _ =>
          let tag := match op with OpAnd => "And" | _ => "Or" end in
          "<" +:+ prefix +:+ ":" +:+ tag +:+ ">"
            +:+ JsString.concat (map (fun f => compileFilterBody f options) filters)
            +:+ "</" +:+ prefix +:+ ":" +:+ tag +:+ ">"
      end
  | Comparison op property value matchCase =>
      compileComparisonFilter op property value matchCase (version options)
  | Like property value wildCard singleChar escapeChar matchCase =>
      compileLikeFilter property value wildCard singleChar escapeChar matchCase
        (version options)
  | Between property lower upper =>
      compileBetweenFilter property lower upper (version options)
  | IsNull property => compileNullFilter property (version options)
  | Id ids => compileIdFilter ids (version options)
  | Spatial op property geometry filterSrsName =>
      compileSpatialFilter op property geometry filterSrsName options
  | Extension _ => ""
  end.

Definition compileFilterXml (filter : WfsFilter) (options : CompileFilterOptions)
  : string :=
  let prefix := filterPrefix (version options) in
  let nsAttrs :=
    if default false (includeNamespaceDeclarations options)
    then filterNamespaceAttrs (version options)
    else "" in
  "<" +:+ prefix +:+ ":Filter" +:+ nsAttrs +:+ ">"
    +:+ compileFilterBody filter options
    +:+ "</" +:+ prefix +:+ ":Filter>".

End WithExternals.

End Filter.

(** ** Reading generated markup

    Not part of the sources: the element names of a generated document,
    in document order, used to state which elements a serializer emits.
    A name runs from the opening angle bracket to the first blank, slash
    or closing bracket; the name of a closing tag keeps its slash. *)

Module Markup.

Definition isNameEnd (c : ascii) : bool :=
  bool_decide (c = " "%char) || bool_decide (c = ">"%char) || bool_decide (c = "/"%char).

Fixpoint readName (s : string) : string :=
  match s with
  | EmptyString => EmptyString
  | String c s' => if isNameEnd c then EmptyString else String c (readName s')
  end.

Definition readTag (s : string) : string :=
  match s with
  | String "/" s' => String "/" (readName s')
  | _ => readName s
  end.

Fixpoint tagNames (s : string) : list string :=
  match s with
  | EmptyString => []
  | String c s' =>
      if bool_decide (c = "<"%char) then readTag s' :: tagNames s' else tagNames s'
  end.

End Markup.

(** ** Operation options ([types.ts]) *)

Module Options.
Import Js Xml Version Gml Filter.

Inductive RequestStyle : Type := GET | POST.

#[export] Instance RequestStyle_eq_dec : EqDecision RequestStyle.
Proof. solve_decision. Defined.

Inductive ResultType : Type := Results | Hits.
Inductive Resolve : Type := ResolveLocal | ResolveRemote | ResolveAll | ResolveNone.
Inductive ResolveDepth : Type := DepthNumber (n : number) | DepthStar.
Inductive AxisOrderStrategy : Type := Preserve | ForceLonLat | ForceLatLon.

#[export] Instance AxisOrderStrategy_eq_dec : EqDecision AxisOrderStrategy.
Proof. solve_decision. Defined.

Definition resultTypeString (r : ResultType) : string :=
  match r with Results => "results" | Hits => "hits" end.

Definition resolveString (r : Resolve) : string :=
  match r with
  | ResolveLocal => "local" | ResolveRemote => "remote"
  | ResolveAll => "all" | ResolveNone => "none"
  end.

Definition resolveDepthString (d : ResolveDepth) : string :=
  match d with DepthNumber n => numberToString n | DepthStar => "*" end.

Record RawRequestOptions : Type := mkRawRequestOptions {
  kvp : option (gmap string string);
  xmlOverrides : option (list XmlOverride);
  headers : option (gmap string string)
}.

Record GeoServerOptions : Type := mkGeoServerOptions {
  cqlFilter : option string;
  viewParams : option string;
  formatOptions : option string;
  vendorParams : option (gmap string string);
  xmlHints : option (list string)
}.

Record GetFeatureOptions : Type := mkGetFeatureOptions {
  (* BaseOperationOptions *)
  version : option WfsVersion;
  requestStyle : option RequestStyle;
  outputFormat : option string;
  raw : option RawRequestOptions;
  (* QueryPagingOptions *)
  startIndex : option number;
  count : option number;
  resultType : option ResultType;
  (* ResolveOptions *)
  resolve : option Resolve;
  resolveDepth : option ResolveDepth;
  resolveTimeout : option number;
  (* GetFeatureOptions *)
  typeNames : list string;
  srsName : option string;
  propertyNames : option (list string);
  filter : option WfsFilter;
  bbox : option (number * number * number * number);
  geoserver : option GeoServerOptions
}.

(** [{ ...options, outputFormat: f }] *)
Definition withOutputFormat (options : GetFeatureOptions) (f : option string)
  : GetFeatureOptions :=
  {| version := version options; requestStyle := requestStyle options;
     outputFormat := f; raw := raw options;
     startIndex := startIndex options; count := count options;
     resultType := resultType options; resolve := resolve options;
     resolveDepth := resolveDepth options; resolveTimeout := resolveTimeout options;
     typeNames := typeNames options; srsName := srsName options;
     propertyNames := propertyNames options; filter := filter options;
     bbox := bbox options; geoserver := geoserver options |}.

(** [{ ...options, geoserver: g }] *)
Definition withGeoserver (options : GetFeatureOptions) (g : option GeoServerOptions)
  : GetFeatureOptions :=
  {| version := version options; requestStyle := requestStyle options;
     outputFormat := outputFormat options; raw := raw options;
     startIndex := startIndex options; count := count options;
     resultType := resultType options; resolve := resolve options;
     resolveDepth := resolveDepth options; resolveTimeout := resolveTimeout options;
     typeNames := typeNames options; srsName := srsName options;
     propertyNames := propertyNames options; filter := filter options;
     bbox := bbox options; geoserver := g |}.

(** A non-empty string, the truthiness test on optional strings. *)
Definition nonEmpty (o : option string) : option string :=
  match o with
  | Some EmptyString | None => None
  | Some s => Some s
  end.

End Options.

(** ** KVP builders ([operations/kvp.ts]) *)

Module Kvp.
Import JsString Js Xml Platform Version Gml Filter Options.

(** [params[k] = v] when the optional value is there. *)
Definition setOpt (k : string) (o : option string) (params : gmap string string)
  : gmap string string :=
  match o with
  | Some v => <[k := v]> params
  | None => params
  end.

(** [Object.assign(params, source)] *)
Definition assign (params source : gmap string string) : gmap string string :=
  source ∪ params.

Definition applyGeoServerParams (params : gmap string string)
  (geoserver : option GeoServerOptions) : gmap string string :=
  match geoserver with
  | None => params
  | Some g =>
      let params := setOpt "cql_filter" (nonEmpty (cqlFilter g)) params in
      let params := setOpt "viewParams" (nonEmpty (viewParams g)) params in
      let params := setOpt "format_options" (nonEmpty (formatOptions g)) params in
      match vendorParams g with
      | Some vp => assign params vp
      | None => params
      end
  end.

Section WithExternals.
Context `{Externals}.

Definition buildGetFilter (filter : option WfsFilter) (version : WfsVersion)
  : option string :=
  match filter with
  | None => None
  | Some f =>
      Some (compileFilterXml f (mkCompileFilterOptions version None (Some true)))
  end.

Definition buildGetFeatureKvp (options : GetFeatureOptions) (version : WfsVersion)
  : gmap string string :=
  let typeParamName := if is110 version then "typeName" else "typeNames" in
  let params : gmap string string :=
    <[typeParamName := join "," (typeNames options)]>
      (<["request" := "GetFeature"]>
         (<["version" := version]>
            (<["service" := "WFS"]> ∅))) in
  let params := setOpt "outputFormat" (nonEmpty (outputFormat options)) params in
  let params := setOpt "srsName" (nonEmpty (Options.srsName options)) params in
  let params :=
    match propertyNames options with
    | Some (p :: ps) => <["propertyName" := join "," (p :: ps)]> params
    | _ => params
    end in
  let params := setOpt "startIndex" (numberToString <$> startIndex options) params in
  let params :=
    match count options with
    | Some c =>
        if is110 version
        then <["maxFeatures" := numberToString c]> params
        else <["count" := numberToString c]> params
    | None => params
    end in
  let params := setOpt "resultType" (resultTypeString <$> resultType options) params in
  let params := setOpt "filter" (nonEmpty (buildGetFilter (filter options) version))
                  params in
  let params :=
    match bbox options with
    | Some (a, b, c, d) =>
        <["bbox" := join "," (map numberToString [a; b; c; d])
                      +:+ match nonEmpty (Options.srsName options) with
                          | Some s => "," +:+ s
                          | None => ""
                          end]> params
    | None => params
    end in
  let params := setOpt "resolve" (resolveString <$> resolve options) params in
  let params := setOpt "resolveDepth" (resolveDepthString <$> resolveDepth options)
                  params in
  let params := setOpt "resolveTimeout" (numberToString <$> resolveTimeout options)
                  params in
  let params := applyGeoServerParams params (geoserver options) in
  assign params (default ∅ (raw options ≫= kvp)).

End WithExternals.

End Kvp.

(** ** Errors ([errors.ts]) and abrupt completion *)

Module Errors.
Import Js Version.

Inductive WfsOperation : Type :=
| GetCapabilities | DescribeFeatureType | GetFeature | GetFeatureWithLock
| GetPropertyValue | Transaction | LockFeature | ListStoredQueries
| DescribeStoredQueries | CreateStoredQuery | DropStoredQuery.

Definition operationName (op : WfsOperation) : string :=
  match op with
  | GetCapabilities => "GetCapabilities"
  | DescribeFeatureType => "DescribeFeatureType"
  | GetFeature => "GetFeature"
  | GetFeatureWithLock => "GetFeatureWithLock"
  | GetPropertyValue => "GetPropertyValue"
  | Transaction => "Transaction"
  | LockFeature => "LockFeature"
  | ListStoredQueries => "ListStoredQueries"
  | DescribeStoredQueries => "DescribeStoredQueries"
  | CreateStoredQuery => "CreateStoredQuery"
  | DropStoredQuery => "DropStoredQuery"
  end.

Inductive HttpMethod : Type := MethodGET | MethodPOST.

Record WfsErrorContext : Type := mkWfsErrorContext {
  ctxOperation : WfsOperation;
  ctxVersion : option WfsVersion;
  ctxUrl : option string;
  ctxMethod : option HttpMethod;
  ctxStatus : option Z
}.

(** [OwsException].  The fields are declared as strings; the parsers
    fill them from the payload by unchecked casts, so they hold whatever
    value the payload had. *)
Record OwsException : Type := mkOwsException {
  exceptionCode : JsValue;
  locator : JsValue;
  text : JsValue
}.

(** What a [throw] carries: an [OwsExceptionError], a plain [Error]
    raised by the serializers, a [TypeError] of the runtime, or whatever
    the transport rejected with. *)
Inductive Exn : Type :=
| OwsExceptionError (message : string) (context : WfsErrorContext)
    (exceptions : list OwsException) (rawPayload : JsValue)
| PlainError (message : string)
| TypeError (message : string)
| TransportFault (reason : string).

(** [error instanceof OwsExceptionError] *)
Definition isOwsExceptionError (e : Exn) : bool :=
  match e with OwsExceptionError _ _ _ _ => true | _ => false end.

(** The outcome of a computation that may throw. *)
Inductive Completion (A : Type) : Type :=
| Normal (a : A)
| Thrown (e : Exn).
Arguments Normal {A} a.
Arguments Thrown {A} e.

Definition bindC {A B} (c : Completion A) (k : A -> Completion B) : Completion B :=
  match c with
  | Normal a => k a
  | Thrown e => Thrown e
  end.

(** [arr.map(f)] for an [f] that may throw: the first throw wins. *)
Fixpoint mapC {A B} (f : A -> Completion B) (l : list A) : Completion (list B) :=
  match l with
  | [] => Normal []
  | x :: rest =>
      bindC (f x) (fun y => bindC (mapC f rest) (fun ys => Normal (y :: ys)))
  end.

End Errors.

Notation "x <- c ;; k" := (Errors.bindC c (fun x => k))
  (at level 100, c at next level, right associativity).

(** ** Tree walking ([parsers/helpers.ts]) *)

Module Helpers.
Import JsString Js Platform Options Errors.

Definition localName (name : string) : string :=
  match indexOf ":" name with
  | Some index => sliceFrom name (index + 1)
  | None => name
  end.

(** *** Loops over [Object.entries] of a node *)

Fixpoint firstSome {A B} (f : A -> option B) (l : list A) : option B :=
  match l with
  | [] => None
  | x :: rest =>
      match f x with
      | Some b => Some b
      | None => firstSome f rest
      end
  end.

Fixpoint firstSomeFrom {A B} (f : nat -> A -> option B) (i : nat) (l : list A)
  : option B :=
  match l with
  | [] => None
  | x :: rest =>
      match f i x with
      | Some b => Some b
      | None => firstSomeFrom f (S i) rest
      end
  end.

(** [for (const [key, value] of Object.entries(node)) { ... return ... }]:
    the first iteration that returns decides. *)
Definition firstEntry {B} (f : string -> JsValue -> option B) (node : JsValue)
  : option B :=
  match node with
  | JObj fields => firstSome (fun kv => match kv with (k, v) => f k v end) fields
  | JArr items => firstSomeFrom (fun i v => f (indexKey i) v) 0 items
  | _ => None
  end.

Fixpoint flatFrom {A B} (f : nat -> A -> list B) (i : nat) (l : list A) : list B :=
  match l with
  | [] => []
  | x :: rest => f i x ++ flatFrom f (S i) rest
  end.

(** [for (const [key, value] of Object.entries(node)) { out.push(...) }]:
    what the iterations append, in order. *)
Definition eachEntry {B} (f : string -> JsValue -> list B) (node : JsValue) : list B :=
  match node with
  | JObj fields => flat_map (fun kv => match kv with (k, v) => f k v end) fields
  | JArr items => flatFrom (fun i v => f (indexKey i) v) 0 items
  | _ => []
  end.

Fixpoint getNodeByLocalName (root : JsValue) (expected : string) {struct root}
  : option JsValue :=
  if negb (isNode root) then None
  else
    firstEntry
      (fun key value =>
         if bool_decide (localName key = expected) && isNode value then Some value
         else if isNode value then getNodeByLocalName value expected
              else None)
      root.

Fixpoint collectNodesByLocalName (root : JsValue) (expected : string) {struct root}
  : list JsValue :=
  if negb (isNode root) then []
  else
    eachEntry
      (fun key value =>
         (if bool_decide (localName key = expected)
          then List.filter isNode (asArray value)
          else [])
           ++ (if isNode value then collectNodesByLocalName value expected else []))
      root.

Fixpoint valueText (node : JsValue) {struct node} : option string :=
  match node with
  | JNull | JUndefined => None
  | JStr _ | JNum _ | JBool _ => Some (ToString node)
  | _ =>
      let direct := getProp node "#text" in
      if negb (isNullish direct) then Some (ToString direct)
      else
        firstEntry
          (fun key value => if startsWith "@_" key then None else valueText value)
          node
  end.

Fixpoint collectTextValuesByLocalName (root : JsValue) (expected : string)
  {struct root} : list string :=
  if negb (isNode root) then []
  else
    eachEntry
      (fun key value =>
         (if bool_decide (localName key = expected)
          then omap valueText (asArray value)
          else [])
           ++ (if isNode value then collectTextValuesByLocalName value expected
               else []))
      root.

(** [s.split(/[\s,]+/).filter(Boolean)]: the maximal runs of characters
    that are neither white space nor commas. *)
Definition isSeparator (c : ascii) : bool :=
  isWhiteSpace c || bool_decide (c = ","%char).

Fixpoint tokensGo (isSep : ascii -> bool) (current : string) (s : string)
  : list string :=
  let flush := if bool_decide (current = "") then [] else [current] in
  match s with
  | EmptyString => flush
  | String c s' =>
      if isSep c then flush ++ tokensGo isSep "" s'
      else tokensGo isSep (current +:+ String c "") s'
  end.

Definition tokens (isSep : ascii -> bool) (s : string) : list string :=
  tokensGo isSep "" s.

Definition parseNumbers (text : string) : list number :=
  map stringToNumber (tokens isSeparator (trim text)).

(** [[coords[1], coords[0], ...coords.slice(2)]] *)
Definition swapFirstTwo {A} (coords : list A) : list A :=
  match coords with
  | a :: b :: rest => b :: a :: rest
  | _ => coords
  end.

Definition maybeSwap {A} (coords : list A) (strategy : AxisOrderStrategy)
  (srsName : option string) : list A :=
  if (length coords <? 2) || bool_decide (strategy = Preserve) then coords
  else
    let lower := toLowerCase (default "" srsName) in
    let is4326 := includes "4326" lower in
    match strategy with
    | ForceLonLat => if negb is4326 then coords else swapFirstTwo coords
    | ForceLatLon => if is4326 then coords else swapFirstTwo coords
    | Preserve => coords
    end.

(** [maybeSwap] as it is reached from the geometry parsers, where the
    reference system is whatever the tree holds under [@_srsName]: a
    value that is neither a string nor nullish has no [toLowerCase]. *)
Definition maybeSwapDynamic {A} (coords : list A) (strategy : AxisOrderStrategy)
  (srsName : JsValue) : Completion (list A) :=
  if (length coords <? 2) || bool_decide (strategy = Preserve) then Normal coords
  else
    match srsName with
    | JStr s => Normal (maybeSwap coords strategy (Some s))
    | JUndefined | JNull => Normal (maybeSwap coords strategy None)
    | _ => Thrown (TypeError "(srsName ?? <empty>).toLowerCase is not a function")
    end.

End Helpers.

(** ** Feature collections ([parsers/featureCollection.ts]) *)

Module FeatureCollection.
Import JsString Js Platform Options Errors Gml Helpers.

Record Feature : Type := mkFeature {
  featureId : JsValue;
  geometry : option Geometry;
  properties : list (string * JsValue)
}.

(** The value [parseFeatureCollection] returns: the payload itself when
    it already is a GeoJSON collection, or a collection built from XML. *)
Inductive FeatureCollectionResult : Type :=
| Passthrough (payload : JsValue)
| Built (features : list Feature) (lockId : option string).

(** [result.features.length] *)
Definition featuresLength (r : FeatureCollectionResult) : nat :=
  match r with
  | Passthrough payload => length (asArray (getProp payload "features"))
  | Built features _ => length features
  end.

Definition isGeoJsonFeatureCollection (payload : JsValue) : bool :=
  if negb (isNode payload) then false
  else
    match getProp payload "type", getProp payload "features" with
    | JStr t, JArr _ => bool_decide (t = "FeatureCollection")
    | _, _ => false
    end.

Definition emptyFeatureCollection : FeatureCollectionResult := Built [] None.

(** *** Loops that may throw *)

Fixpoint firstSomeC {A B} (f : A -> Completion (option B)) (l : list A)
  : Completion (option B) :=
  match l with
  | [] => Normal None
  | x :: rest =>
      r <- f x ;;
      match r with
      | Some b => Normal (Some b)
      | None => firstSomeC f rest
      end
  end.

Fixpoint firstSomeFromC {A B} (f : nat -> A -> Completion (option B)) (i : nat)
  (l : list A) : Completion (option B) :=
  match l with
  | [] => Normal None
  | x :: rest =>
      r <- f i x ;;
      match r with
      | Some b => Normal (Some b)
      | None => firstSomeFromC f (S i) rest
      end
  end.

Definition firstEntryC {B} (f : string -> JsValue -> Completion (option B))
  (node : JsValue) : Completion (option B) :=
  match node with
  | JObj fields => firstSomeC (fun kv => match kv with (k, v) => f k v end) fields
  | JArr items => firstSomeFromC (fun i v => f (indexKey i) v) 0 items
  | _ => Normal None
  end.

(** *** Coordinates *)

(** [Math.max(2, dim)] *)
Definition max2 (dim : number) : number :=
  match dim with
  | Int z => Int (Z.max 2 z)
  | NaN => NaN
  | PosInf => PosInf
  | NegInf => Int 2
  end.

Definition inferDimension (value : JsValue) : number :=
  if negb (isNode value) then Int 2
  else
    match getProp value "@_srsDimension" with
    | JNum dim => max2 dim
    | JStr dim =>
        let parsed := stringToNumber dim in
        if isFinite parsed then max2 parsed else Int 2
    | _ => Int 2
    end.

Fixpoint chunks {A} (fuel : nat) (size : nat) (l : list A) : list (list A) :=
  match fuel, l with
  | O, _ | _, [] => []
  | S fuel', _ =>
      let chunk := take size l in
      (if 2 <=? length chunk then [chunk] else []) ++ chunks fuel' size (drop size l)
  end.

(** [toPositions(numbers, dimension)].  Every call site passes the
    result of [inferDimension], which is at least 2 or not a finite
    number: with [NaN] the first slice is empty and the loop stops, with
    [Infinity] the first slice is the whole array. *)
Definition toPositions (numbers : list number) (dimension : number)
  : list (list number) :=
  match dimension with
  | Int d => chunks (length numbers) (Z.to_nat d) numbers
  | PosInf => if 2 <=? length numbers then [numbers] else []
  | NaN | NegInf => []
  end.

Definition extractNodeTextByLocalName (value : JsValue) (nodeName : string)
  : option string :=
  if negb (isNode value) then None
  else
    firstEntry
      (fun key child =>
         if bool_decide (localName key = nodeName) then valueText child else None)
      value.

Fixpoint extractNodeByPathFrom (current : JsValue) (path : list string) : JsValue :=
  match path with
  | [] => if isObjectType current then optStr (valueText current) else current
  | segment :: rest =>
      if negb (isNode current) then JUndefined
      else
        match firstEntry
                (fun key candidate =>
                   if bool_decide (localName key = segment) then Some candidate
                   else None) current with
        | None | Some JUndefined => JUndefined
        | Some (JArr items) => extractNodeByPathFrom (default JUndefined (head items)) rest
        | Some next => extractNodeByPathFrom next rest
        end
  end.

Definition extractNodeByPath (value : JsValue) (path : list string) : JsValue :=
  extractNodeByPathFrom value path.

(** [a ?? b] on optional strings *)
Definition orElse {A} (a b : option A) : option A :=
  match a with Some _ => a | None => b end.

(** *** Geometry parsers *)

Definition parsePoint (value : JsValue) (axisOrderStrategy : AxisOrderStrategy)
  (srsName : JsValue) : Completion (option Geometry) :=
  match nonEmpty (orElse (extractNodeTextByLocalName value "pos")
                         (extractNodeTextByLocalName value "coordinates")) with
  | None => Normal None
  | Some text =>
      let coords := parseNumbers text in
      if length coords <? 2 then Normal None
      else
        swapped <- maybeSwapDynamic coords axisOrderStrategy srsName ;;
        Normal (Some (Point swapped))
  end.

Definition parseLineStringCoordinates (value : JsValue)
  (axisOrderStrategy : AxisOrderStrategy) (srsName : JsValue)
  : Completion (option (list Position)) :=
  match nonEmpty (orElse (extractNodeTextByLocalName value "posList")
                    (orElse (extractNodeTextByLocalName value "coordinates")
                            (extractNodeTextByLocalName value "pos"))) with
  | None => Normal None
  | Some text =>
      let dims := inferDimension value in
      positions <- mapC (fun position =>
                           maybeSwapDynamic position axisOrderStrategy srsName)
                     (toPositions (parseNumbers text) dims) ;;
      match positions with
      | [p] => Normal (Some [p; p])
      | _ => Normal (Some positions)
      end
  end.

Definition parseLineString (value : JsValue) (axisOrderStrategy : AxisOrderStrategy)
  (srsName : JsValue) : Completion (option Geometry) :=
  r <- parseLineStringCoordinates value axisOrderStrategy srsName ;;
  Normal (LineString <$> r).

Definition parseRing (text : JsValue) (value : JsValue)
  (axisOrderStrategy : AxisOrderStrategy) (srsName : JsValue)
  : Completion (list (list Position)) :=
  if truthy text then
    let dims := inferDimension value in
    ring <- mapC (fun position => maybeSwapDynamic position axisOrderStrategy srsName)
              (toPositions (parseNumbers (ToString text)) dims) ;;
    Normal [ring]
  else Normal [].

Definition parsePolygonCoordinates (value : JsValue)
  (axisOrderStrategy : AxisOrderStrategy) (srsName : JsValue)
  : Completion (option (list (list Position))) :=
  if negb (isNode value) then Normal None
  else
    let exterior :=
      nullish (extractNodeByPath value ["exterior"; "LinearRing"; "posList"])
        (extractNodeByPath value ["outerBoundaryIs"; "LinearRing"; "coordinates"]) in
    outer <- parseRing exterior value axisOrderStrategy srsName ;;
    let interiorNodes :=
      asArray (extractNodeByPath value ["interior"])
        ++ asArray (extractNodeByPath value ["innerBoundaryIs"]) in
    inners <- mapC (fun interior =>
                      let interiorText :=
                        nullish (extractNodeByPath interior ["LinearRing"; "posList"])
                          (extractNodeByPath interior ["LinearRing"; "coordinates"]) in
                      parseRing interiorText value axisOrderStrategy srsName)
                interiorNodes ;;
    match outer ++ List.concat inners with
    | [] => Normal None
    | rings => Normal (Some rings)
    end.

Definition parsePolygon (value : JsValue) (axisOrderStrategy : AxisOrderStrategy)
  (srsName : JsValue) : Completion (option Geometry) :=
  r <- parsePolygonCoordinates value axisOrderStrategy srsName ;;
  Normal (Polygon <$> r).

Definition pointCoordinates (g : option Geometry) : option Position :=
  match g with Some (Point c) => Some c | _ => None end.

Definition parseMultiPoint (value : JsValue) (axisOrderStrategy : AxisOrderStrategy)
  (srsName : JsValue) : Completion (option Geometry) :=
  parsed <- mapC (fun node => parsePoint node axisOrderStrategy srsName)
              (collectNodesByLocalName value "Point") ;;
  match omap pointCoordinates parsed with
  | [] => Normal None
  | points => Normal (Some (MultiPoint points))
  end.

Definition parseMultiLineString (value : JsValue)
  (axisOrderStrategy : AxisOrderStrategy) (srsName : JsValue)
  : Completion (option Geometry) :=
  parsed <- mapC (fun node => parseLineStringCoordinates node axisOrderStrategy srsName)
              (collectNodesByLocalName value "LineString"
                 ++ collectNodesByLocalName value "Curve") ;;
  match omap id parsed with
  | [] => Normal None
  | lines => Normal (Some (MultiLineString lines))
  end.

Definition parseMultiPolygon (value : JsValue) (axisOrderStrategy : AxisOrderStrategy)
  (srsName : JsValue) : Completion (option Geometry) :=
  parsed <- mapC (fun node => parsePolygonCoordinates node axisOrderStrategy srsName)
              (collectNodesByLocalName value "Polygon"
                 ++ collectNodesByLocalName value "Surface") ;;
  match omap id parsed with
  | [] => Normal None
  | polygons => Normal (Some (MultiPolygon polygons))
  end.

(** The reference system that governs a geometry element: its own
    [srsName] attribute when that is a string, the inherited one
    otherwise. *)
Definition nodeSrsName (value srsName : JsValue) : JsValue :=
  let rawNodeSrsName := if isNode value then getProp value "@_srsName" else JUndefined in
  match rawNodeSrsName with
  | JStr _ => rawNodeSrsName
  | _ => srsName
  end.

Definition parseGeometryNode (nodeName : string) (value : JsValue)
  (axisOrderStrategy : AxisOrderStrategy) (srsName : JsValue)
  : Completion (option Geometry) :=
  let nodeSrs := nodeSrsName value srsName in
  if bool_decide (nodeName = "Point") then parsePoint value axisOrderStrategy nodeSrs
  else if bool_decide (nodeName = "LineString") || bool_decide (nodeName = "Curve")
  then parseLineString value axisOrderStrategy nodeSrs
  else if bool_decide (nodeName = "Polygon") || bool_decide (nodeName = "Surface")
  then parsePolygon value axisOrderStrategy nodeSrs
  else if bool_decide (nodeName = "MultiPoint")
  then parseMultiPoint value axisOrderStrategy nodeSrs
  else if bool_decide (nodeName = "MultiLineString")
          || bool_decide (nodeName = "MultiCurve")
  then parseMultiLineString value axisOrderStrategy nodeSrs
  else if bool_decide (nodeName = "MultiPolygon")
          || bool_decide (nodeName = "MultiSurface")
  then parseMultiPolygon value axisOrderStrategy nodeSrs
  else Normal None.

Fixpoint parseGeometryDeep (value : JsValue) (axisOrderStrategy : AxisOrderStrategy)
  (inheritedSrsName : JsValue) {struct value} : Completion (option Geometry) :=
  if negb (isNode value) then Normal None
  else
    let srsName := nullish (getProp value "@_srsName") inheritedSrsName in
    direct <- firstEntryC
                (fun key child =>
                   if startsWith "@_" key then Normal None
                   else parseGeometryNode (localName key) child axisOrderStrategy srsName)
                value ;;
    match direct with
    | Some geometry => Normal (Some geometry)
    | None =>
        firstEntryC
          (fun _ child => parseGeometryDeep child axisOrderStrategy srsName)
          value
    end.

(** *** Features *)

(** [obj[key] = value] on an object built by the parser: an existing key
    keeps its place, a new key goes last.  (The key [__proto__], which
    an assignment treats specially, is outside the model.) *)
Fixpoint setProp (key : string) (value : JsValue) (fields : list (string * JsValue))
  : list (string * JsValue) :=
  match fields with
  | [] => [(key, value)]
  | (k, v) :: rest =>
      if bool_decide (k = key) then (k, value) :: rest
      else (k, v) :: setProp key value rest
  end.

Fixpoint normalizeValue (value : JsValue) {struct value} : JsValue :=
  match value with
  | JNull | JUndefined => JNull
  | JStr _ | JNum _ | JBool _ => value
  | JArr items => JArr (map normalizeValue items)
  | JObj fields =>
      (* the children that are not attributes, each one normalized *)
      let children :=
        (fix children (l : list (string * JsValue)) : list (string * JsValue) :=
           match l with
           | [] => []
           | (k, v) :: rest =>
               if startsWith "@_" k then children rest
               else (k, normalizeValue v) :: children rest
           end) fields in
      match children with
      | [] => JNull
      | [(only, normalized)] => if bool_decide (only = "") then JNull else normalized
      | _ =>
          JObj (fold_left (fun out kv => setProp (localName (fst kv)) (snd kv) out)
                  children [])
      end
  end.

Definition nonAttributeEntries (v : JsValue) : list (string * JsValue) :=
  List.filter (fun kv => negb (startsWith "@_" (fst kv))) (entries v).

Definition unwrapFeatureContainer (member : JsValue) : JsValue :=
  if negb (isNode member) then JUndefined
  else
    match nonAttributeEntries member with
    | [] => JUndefined
    | [(_, value)] => value
    | candidateEntries =>
        match List.find
                (fun kv => negb (bool_decide
                                   (localName (fst kv) ∈ ["Tuple"; "SimpleFeatureCollection"])))
                candidateEntries with
        | Some (_, value) => value
        | None => JUndefined
        end
    end.

Definition flattenFeatureMembersContainers (containers : list JsValue) : list JsValue :=
  flat_map
    (fun container =>
       flat_map
         (fun kv =>
            if startsWith "@_" (fst kv) then []
            else map (fun item => JObj [(fst kv, item)])
                   (List.filter isNode (asArray (snd kv))))
         (entries container))
    containers.

(** The loop of [parseMemberToFeature] over the entries of the feature
    element, threading [geometry] and [properties]. *)
Fixpoint parseMemberEntries (l : list (string * JsValue))
  (axisOrderStrategy : AxisOrderStrategy) (geometry : option Geometry)
  (properties : list (string * JsValue))
  : Completion (option Geometry * list (string * JsValue)) :=
  match l with
  | [] => Normal (geometry, properties)
  | (key, value) :: rest =>
      if startsWith "@_" key then
        parseMemberEntries rest axisOrderStrategy geometry properties
      else
        let propName := localName key in
        geom <- parseGeometryDeep value axisOrderStrategy JUndefined ;;
        match geom, geometry with
        | Some g, None => parseMemberEntries rest axisOrderStrategy (Some g) properties
        | _, _ =>
            parseMemberEntries rest axisOrderStrategy geometry
              (setProp propName (normalizeValue value) properties)
        end
  end.

Definition parseMemberToFeature (member : JsValue)
  (axisOrderStrategy : AxisOrderStrategy) : Completion (option Feature) :=
  let featureContainer := unwrapFeatureContainer member in
  if negb (truthy featureContainer) then Normal None
  else
    let record := featureContainer in
    let id :=
      nullish (getProp record "@_gml:id")
        (nullish (getProp record "@_fid") (getProp record "@_id")) in
    r <- parseMemberEntries (entries record) axisOrderStrategy None [] ;;
    Normal (Some (mkFeature id (fst r) (snd r))).

(** [pickFirst] of [utils/xml.ts] on optional strings *)
Definition pickFirst (values : list (option string)) : option string :=
  firstSome id values.

Section WithExternals.
Context `{Externals}.

Definition parseFeatureCollection (payload : JsValue)
  (axisOrderStrategy : AxisOrderStrategy) : Completion FeatureCollectionResult :=
  if isGeoJsonFeatureCollection payload then Normal (Passthrough payload)
  else
    match payload with
    | JStr text =>
        let parsed := parseXml text in
        match orElse (getNodeByLocalName parsed "FeatureCollection")
                (getNodeByLocalName parsed "SimpleFeatureCollection") with
        | None => Normal emptyFeatureCollection
        | Some fcNode =>
            let members :=
              collectNodesByLocalName fcNode "member"
                ++ collectNodesByLocalName fcNode "featureMember"
                ++ flattenFeatureMembersContainers
                     (collectNodesByLocalName fcNode "featureMembers") in
            parsedMembers <- mapC (fun member =>
                                     parseMemberToFeature member axisOrderStrategy)
                               members ;;
            let features := omap id parsedMembers in
            let lockId :=
              pickFirst [valueText (getProp fcNode "@_lockId");
                         valueText (getProp fcNode "@_lockid")] in
            Normal (Built features (nonEmpty lockId))
        end
    | _ => Normal emptyFeatureCollection
    end.

End WithExternals.

End FeatureCollection.

(** ** Transaction results ([parsers/transaction.ts]) *)

Module TransactionParser.
Import JsString Js Platform Errors Helpers.

Record ActionResult : Type := mkActionResult {
  handle : JsValue;
  resourceIds : list JsValue
}.

Record TransactionResult : Type := mkTransactionResult {
  totalInserted : option number;
  totalUpdated : option number;
  totalReplaced : option number;
  totalDeleted : option number;
  insertResults : list ActionResult;
  updateResults : list ActionResult;
  replaceResults : list ActionResult;
  raw : JsValue
}.

Definition toNumber (value : option string) : option number :=
  match value with
  | None | Some EmptyString => None
  | Some s =>
      let num := stringToNumber s in
      if isFinite num then Some num else None
  end.

(** [asArray(x)[0]] *)
Definition firstOf (x : JsValue) : JsValue := default JUndefined (head (asArray x)).

Definition firstByLocalName (node : option JsValue) (name : string) : option string :=
  match node with
  | None => None
  | Some node =>
      let candidate :=
        nullish (firstOf (getProp node ("wfs:" +:+ name)))
                (firstOf (getProp node name)) in
      valueText candidate
  end.

Definition parseActionResults (txNode : JsValue) (localResultName : string)
  : list ActionResult :=
  match getNodeByLocalName txNode localResultName with
  | None => []
  | Some node =>
      map (fun featureNode =>
             mkActionResult
               (getProp featureNode "@_handle")
               (List.filter truthy
                  (map (fun resourceIdNode =>
                          nullish (getProp resourceIdNode "@_rid")
                                  (getProp resourceIdNode "@_fid"))
                     (collectNodesByLocalName featureNode "ResourceId"))))
        (collectNodesByLocalName node "Feature")
  end.

Section WithExternals.
Context `{Externals}.

Definition parseTransactionResult (payload : JsValue) : TransactionResult :=
  match payload with
  | JStr text =>
      let parsed := parseXml text in
      match getNodeByLocalName parsed "TransactionResponse" with
      | None => mkTransactionResult None None None None [] [] [] parsed
      | Some txNode =>
          let summaryNode := getNodeByLocalName txNode "TransactionSummary" in
          mkTransactionResult
            (toNumber (firstByLocalName summaryNode "totalInserted"))
            (toNumber (firstByLocalName summaryNode "totalUpdated"))
            (toNumber (firstByLocalName summaryNode "totalReplaced"))
            (toNumber (firstByLocalName summaryNode "totalDeleted"))
            (parseActionResults txNode "InsertResults")
            (parseActionResults txNode "UpdateResults")
            (parseActionResults txNode "ReplaceResults")
            parsed
      end
  | _ => mkTransactionResult None None None None [] [] [] payload
  end.

End WithExternals.

End TransactionParser.

(** ** Lock results ([parsers/lock.ts]) *)

Module LockParser.
Import JsString Js Platform Errors Helpers.

Record LockResult : Type := mkLockResult {
  lockId : JsValue;
  lockedResourceIds : list JsValue;
  notLockedResourceIds : list JsValue;
  raw : JsValue
}.

Definition collectResourceIds (lockNode : JsValue) (localName : string)
  : list JsValue :=
  match getNodeByLocalName lockNode localName with
  | None => []
  | Some resultNode =>
      let resourceIds :=
        List.filter truthy
          (map (fun node => nullish (getProp node "@_rid") (getProp node "@_fid"))
             (collectNodesByLocalName resultNode "ResourceId")) in
      let featureIds :=
        List.filter truthy
          (map (fun node => nullish (getProp node "@_fid") (getProp node "@_id"))
             (collectNodesByLocalName resultNode "FeatureId")) in
      resourceIds ++ featureIds
  end.

Section WithExternals.
Context `{Externals}.

Definition parseLockResult (payload : JsValue) : LockResult :=
  match payload with
  | JStr text =>
      let parsed := parseXml text in
      match getNodeByLocalName parsed "LockFeatureResponse" with
      | None => mkLockResult JUndefined [] [] parsed
      | Some lockNode =>
          let lockId :=
            nullish (getProp lockNode "@_lockId")
              (nullish (getProp lockNode "@_lockid")
                 (optStr (head (collectTextValuesByLocalName lockNode "LockId")))) in
          mkLockResult lockId
            (collectResourceIds lockNode "FeaturesLocked")
            (collectResourceIds lockNode "FeaturesNotLocked")
            parsed
      end
  | _ => mkLockResult JUndefined [] [] payload
  end.

End WithExternals.

End LockParser.

(** ** Request serializers ([serializers/wfs.ts]) *)

Module Serializers.
Import JsString Js Xml Platform Version Gml Filter Options Errors.

(** A namespace table: an object from prefixes to URIs, as its entries
    in enumeration order. *)
Definition Namespaces : Type := list (string * string).

Record SerializerContext : Type := mkSerializerContext {
  ctxVersion : WfsVersion;
  ctxNamespaces : option Namespaces
}.

Definition RESERVED_PREFIXES : list string :=
  ["wfs"; "gml"; "fes"; "ogc"; "ows"; "xlink"; "xml"; "xmlns"].

Definition ROOT_PREFIX_ORDER : list string :=
  ["wfs"; "gml"; "fes"; "ogc"; "ows"; "xlink"].

(** *** [QNAME_PREFIX_PATTERN]

    The pattern is global and reads: a word boundary, a group made of a
    name-start character (a letter or underscore) and any number of
    name characters (letters, digits, underscore, dot, hyphen), a
    colon, and again a name-start character and any number of name
    characters.  Neither class contains the colon, so a match starts at
    a name-start character that follows a non-word character (or opens
    the string), runs over the longest stretch of name characters, and
    needs a colon and a name-start character right after it; it ends
    with the longest stretch of name characters after the colon. *)

Definition inRange (lo hi : N) (c : ascii) : bool :=
  let n := N_of_ascii c in ((lo <=? n) && (n <=? hi))%N.

Definition isNameStart (c : ascii) : bool :=
  inRange 65 90 c || inRange 97 122 c || bool_decide (c = "_"%char).

Definition isWordChar (c : ascii) : bool :=
  isNameStart c || inRange 48 57 c.

Definition isNameChar (c : ascii) : bool :=
  isWordChar c || bool_decide (c = "."%char) || bool_decide (c = "-"%char).

(** The longest stretch of name characters at the head of [s], and what
    follows it. *)
Fixpoint nameRun (s : string) : string * string :=
  match s with
  | EmptyString => (EmptyString, EmptyString)
  | String c s' =>
      if isNameChar c
      then let '(run, rest) := nameRun s' in (String c run, rest)
      else (EmptyString, s)
  end.

(** A match that starts at the head of [s]: its first group and its
    length. *)
Definition matchQNameAt (s : string) : option (string * nat) :=
  match s with
  | String c _ =>
      if isNameStart c then
        let '(prefix, rest) := nameRun s in
        match rest with
        | String ":" (String d rest') =>
            if isNameStart d then
              let '(local, _) := nameRun (String d rest') in
              Some (prefix, String.length prefix + 1 + String.length local)
            else None
        | _ => None
        end
      else None
  | EmptyString => None
  end.

(** [value.matchAll(QNAME_PREFIX_PATTERN)], first groups only.  [skip]
    counts the characters still inside the previous match and
    [afterWord] tells whether the character before the head is a word
    character. *)
Fixpoint qnamePrefixesFrom (skip : nat) (afterWord : bool) (s : string)
  : list string :=
  match s with
  | EmptyString => []
  | String c s' =>
      match skip with
      | S skip' => qnamePrefixesFrom skip' (isWordChar c) s'
      | O =>
          match (if afterWord then None else matchQNameAt s) with
          | Some (prefix, len) =>
              prefix :: qnamePrefixesFrom (len - 1) (isWordChar c) s'
          | None => qnamePrefixesFrom 0 (isWordChar c) s'
          end
      end
  end.

Definition qnamePrefixes (value : string) : list string :=
  qnamePrefixesFrom 0 false value.

(** *** The set of required prefixes *)

(** [out.add(x)] on a [Set] kept as the list of its members in
    insertion order. *)
Definition setAdd (x : string) (out : list string) : list string :=
  if bool_decide (x ∈ out) then out else out ++ [x].

Definition setAddAll (xs : list string) (out : list string) : list string :=
  fold_left (fun acc x => setAdd x acc) xs out.

Definition collectQNamePrefixes (value : string) (out : list string) : list string :=
  setAddAll (List.filter (fun p => negb (bool_decide (p = ""))) (qnamePrefixes value)) out.

(** [token.split("=", 1)[0]] *)
Definition beforeEquals (token : string) : string :=
  match indexOf "=" token with
  | Some i => slice token 0 i
  | None => token
  end.

Definition collectTypeNamePrefixes (typeNames : list string) (out : list string)
  : list string :=
  fold_left
    (fun acc typeName =>
       fold_left
         (fun acc token =>
            let candidate := if includes "=" token then beforeEquals token else token in
            if bool_decide (candidate = "") then acc
            else collectQNamePrefixes candidate acc)
         (Helpers.tokens Helpers.isSeparator typeName) acc)
    typeNames out.

Fixpoint collectFilterPrefixes (filter : WfsFilter) (out : list string) {struct filter}
  : list string :=
  match filter with
  | Logical _ filters =>
      fold_left (fun acc child => collectFilterPrefixes child acc) filters out
  | Comparison _ property _ _ => collectQNamePrefixes property out
  | Like property _ _ _ _ _ => collectQNamePrefixes property out
  | Between property _ _ => collectQNamePrefixes property out
  | IsNull property => collectQNamePrefixes property out
  | Spatial _ property _ _ => collectQNamePrefixes property out
  | Id _ => out
  | Extension _ => out
  end.

(** *** Namespace resolution *)

Definition defaultNamespacesForVersion (version : WfsVersion) : Namespaces :=
  if is110 version then
    [("wfs", "http://www.opengis.net/wfs");
     ("gml", "http://www.opengis.net/gml");
     ("fes", "http://www.opengis.net/ogc");
     ("ogc", "http://www.opengis.net/ogc");
     ("ows", "http://www.opengis.net/ows");
     ("xlink", "http://www.w3.org/1999/xlink")]
  else
    [("wfs", "http://www.opengis.net/wfs/2.0");
     ("gml", "http://www.opengis.net/gml/3.2");
     ("fes", "http://www.opengis.net/fes/2.0");
     ("ogc", "http://www.opengis.net/fes/2.0");
     ("ows", "http://www.opengis.net/ows/1.1");
     ("xlink", "http://www.w3.org/1999/xlink")].

(** The members of [Object.prototype]: a read of one of these names on
    an object literal finds the inherited member when the object has no
    own property of that name. *)
Definition objectPrototypeKeys : list string :=
  ["constructor"; "__defineGetter__"; "__defineSetter__"; "hasOwnProperty";
   "__lookupGetter__"; "__lookupSetter__"; "isPrototypeOf";
   "propertyIsEnumerable"; "toString"; "valueOf"; "__proto__"; "toLocaleString"].

(** [namespaces[prefix] = uri] for a non-empty string [uri]: assigning a
    string to [__proto__] changes nothing. *)
Fixpoint setNamespace (prefix uri : string) (namespaces : Namespaces) : Namespaces :=
  if bool_decide (prefix = "__proto__") then namespaces
  else
    match namespaces with
    | [] => [(prefix, uri)]
    | (p, u) :: rest =>
        if bool_decide (p = prefix) then (p, uri) :: rest
        else (p, u) :: setNamespace prefix uri rest
    end.

(** [!!namespaces[prefix]] *)
Definition hasNamespace (namespaces : Namespaces) (prefix : string) : bool :=
  match assoc prefix namespaces with
  | Some uri => negb (bool_decide (uri = ""))
  | None => bool_decide (prefix ∈ objectPrototypeKeys)
  end.

Definition missingNamespaceMessage (prefix : string) : string :=
  "Missing namespace mapping for prefix " +:+ dquote +:+ prefix +:+ dquote
    +:+ ". Provide it via WfsClientConfig.namespaces.".

Definition mergedNamespaces (ctx : SerializerContext) : Namespaces :=
  fold_left
    (fun namespaces entry =>
       if bool_decide (snd entry = "") then namespaces
       else setNamespace (fst entry) (snd entry) namespaces)
    (default [] (ctxNamespaces ctx))
    (defaultNamespacesForVersion (ctxVersion ctx)).

(** The second loop of [resolveRootNamespaces]: the first required
    prefix that is not reserved and has no mapping. *)
Definition firstMissing (namespaces : Namespaces) (requiredPrefixes : list string)
  : option string :=
  List.find
    (fun prefix =>
       negb (bool_decide (prefix ∈ RESERVED_PREFIXES))
       && negb (hasNamespace namespaces prefix))
    requiredPrefixes.

Definition resolveRootNamespaces (ctx : SerializerContext)
  (requiredPrefixes : list string) : Completion Namespaces :=
  let namespaces := mergedNamespaces ctx in
  match firstMissing namespaces requiredPrefixes with
  | Some prefix => Thrown (PlainError (missingNamespaceMessage prefix))
  | None => Normal namespaces
  end.

Section WithExternals.
Context `{Externals}.

(** [entries.sort(([a], [b]) => a.localeCompare(b))]: the sort is
    stable, so it is insertion into an ordered list from the right. *)
Fixpoint insertSorted (e : string * string) (l : list (string * string))
  : list (string * string) :=
  match l with
  | [] => [e]
  | x :: rest =>
      if localeLeb (fst e) (fst x) then e :: l else x :: insertSorted e rest
  end.

Definition sortByPrefix (l : list (string * string)) : list (string * string) :=
  foldr insertSorted [] l.

Definition rootXmlns (namespaces : Namespaces) : string :=
  let orderedEntries :=
    omap (fun prefix =>
            match assoc prefix namespaces with
            | Some uri => if bool_decide (uri = "") then None else Some (prefix, uri)
            | None => None
            end) ROOT_PREFIX_ORDER in
  let extraEntries :=
    sortByPrefix
      (List.filter (fun e => negb (bool_decide (snd e = "")))
         (List.filter (fun e => negb (bool_decide (fst e ∈ ROOT_PREFIX_ORDER)))
            namespaces)) in
  JsString.concat
    (map (fun e => " xmlns:" +:+ fst e +:+ "=" +:+ dquote +:+ escapeXml (JStr (snd e))
                     +:+ dquote)
       (orderedEntries ++ extraEntries)).

Definition joinTypeNamesForXml (typeNames : list string) : string :=
  join " " typeNames.

Definition buildFilterSegment (filter : option WfsFilter)
  (bbox : option (number * number * number * number)) (version : WfsVersion)
  : string :=
  match filter, bbox with
  | Some f, _ => compileFilterXml f (mkCompileFilterOptions version None None)
  | None, Some (minX, minY, maxX, maxY) =>
      let filterPrefix := if is110 version then "ogc" else "fes" in
      let propNameTag := if is110 version then "PropertyName" else "ValueReference" in
      "<" +:+ filterPrefix +:+ ":Filter><" +:+ filterPrefix +:+ ":BBOX><"
        +:+ filterPrefix +:+ ":" +:+ propNameTag +:+ ">geometry</" +:+ filterPrefix
        +:+ ":" +:+ propNameTag +:+ "><gml:Envelope><gml:lowerCorner>"
        +:+ numberToString minX +:+ " " +:+ numberToString minY
        +:+ "</gml:lowerCorner><gml:upperCorner>" +:+ numberToString maxX +:+ " "
        +:+ numberToString maxY +:+ "</gml:upperCorner></gml:Envelope></"
        +:+ filterPrefix +:+ ":BBOX></" +:+ filterPrefix +:+ ":Filter>"
  | None, None => ""
  end.

Definition buildGeoServerHints (hints : option (list string)) : string :=
  match hints with
  | None | Some [] => ""
  | Some l => JsString.concat l
  end.

(** The prefixes [buildGetFeatureXml] requires a mapping for. *)
Definition getFeatureRequiredPrefixes (options : GetFeatureOptions) : list string :=
  let required := collectTypeNamePrefixes (typeNames options) [] in
  let required :=
    fold_left (fun acc propertyName => collectQNamePrefixes propertyName acc)
      (default [] (propertyNames options)) required in
  match Options.filter options with
  | Some f => collectFilterPrefixes f required
  | None => required
  end.

Definition buildGetFeatureXml (options : GetFeatureOptions) (ctx : SerializerContext)
  : Completion string :=
  ns <- resolveRootNamespaces ctx (getFeatureRequiredPrefixes options) ;;
  let queryAttributeName := if is110 (ctxVersion ctx) then "typeName" else "typeNames" in
  let projectionXml :=
    JsString.concat
      (map (fun propertyName =>
              "<wfs:PropertyName>" +:+ escapeXml (JStr propertyName)
                +:+ "</wfs:PropertyName>")
         (default [] (propertyNames options))) in
  let filterXml :=
    buildFilterSegment (Options.filter options) (bbox options) (ctxVersion ctx) in
  let query :=
    "<wfs:Query " +:+ queryAttributeName +:+ "=" +:+ dquote
      +:+ escapeXml (JStr (joinTypeNamesForXml (typeNames options))) +:+ dquote
      +:+ xmlAttr "srsName" (optStr (Options.srsName options)) +:+ ">"
      +:+ projectionXml +:+ filterXml +:+ "</wfs:Query>" in
  let countAttr :=
    if is110 (ctxVersion ctx)
    then xmlAttr "maxFeatures" (optNum (count options))
    else xmlAttr "count" (optNum (count options)) in
  let document :=
    "<wfs:GetFeature" +:+ rootXmlns ns +:+ " service=" +:+ dquote +:+ "WFS" +:+ dquote
      +:+ " version=" +:+ dquote +:+ ctxVersion ctx +:+ dquote
      +:+ xmlAttr "outputFormat" (optStr (outputFormat options))
      +:+ xmlAttr "startIndex" (optNum (startIndex options))
      +:+ countAttr
      +:+ xmlAttr "resultType" (optStr (resultTypeString <$> resultType options))
      +:+ xmlAttr "resolve" (optStr (resolveString <$> resolve options))
      +:+ xmlAttr "resolveDepth" (optStr (resolveDepthString <$> resolveDepth options))
      +:+ xmlAttr "resolveTimeout" (optNum (resolveTimeout options))
      +:+ ">" +:+ query
      +:+ buildGeoServerHints (geoserver options ≫= xmlHints)
      +:+ "</wfs:GetFeature>" in
  Normal (applyXmlOverrides document (raw options ≫= xmlOverrides)).

Definition buildListStoredQueriesXml (rawOptions : option RawRequestOptions)
  (ctx : SerializerContext) : Completion string :=
  ns <- resolveRootNamespaces ctx [] ;;
  let document :=
    "<wfs:ListStoredQueries" +:+ rootXmlns ns +:+ " service=" +:+ dquote +:+ "WFS"
      +:+ dquote +:+ " version=" +:+ dquote +:+ ctxVersion ctx +:+ dquote +:+ "/>" in
  Normal (applyXmlOverrides document (rawOptions ≫= xmlOverrides)).

End WithExternals.

End Serializers.

(** ** OWS exception reports ([parsers/owsException.ts]) *)

Module OwsExceptionParser.
Import JsString Js Platform Errors Helpers.

(** [key in record] for a key that no prototype defines. *)
Definition hasKey (record : JsValue) (key : string) : bool :=
  match record with
  | JObj fields => bool_decide (is_Some (assoc key fields))
  | JArr items =>
      bool_decide (key = "length") || bool_decide (is_Some (assoc key (indexed 0 items)))
  | _ => false
  end.

Definition parseJsonExceptions (payload : JsValue) : list OwsException :=
  let report :=
    nullish (getProp payload "ExceptionReport")
      (nullish (getProp payload "exceptionReport")
         (nullish (getProp payload "error") payload)) in
  if negb (isNode report) then []
  else
    let hasExplicitExceptionContainer :=
      hasKey report "Exception" || hasKey report "exceptions" in
    let hasInlineExceptionShape :=
      hasKey report "exceptionCode" || hasKey report "exceptionText"
      || hasKey report "locator" || hasKey report "code" || hasKey report "text" in
    if negb hasExplicitExceptionContainer && negb hasInlineExceptionShape then []
    else
      let candidateExceptions :=
        nullish (getProp report "Exception")
          (nullish (getProp report "exceptions") report) in
      let array :=
        match candidateExceptions with
        | JArr items => items
        | other => [other]
        end in
      flat_map
        (fun item =>
           if negb (isNode item) then []
           else
             let exceptionText :=
               nullish (getProp item "exceptionText") (getProp item "text") in
             let exceptionCode :=
               nullish (getProp item "exceptionCode") (getProp item "code") in
             if negb (truthy exceptionText) && negb (truthy exceptionCode)
                && negb (truthy (getProp item "locator"))
             then []
             else [mkOwsException exceptionCode (getProp item "locator")
                     (nullish exceptionText (JStr "Unknown OWS exception"))])
        array.

Definition newline : string := String "010" EmptyString.

Section WithExternals.
Context `{Externals}.

Definition parseOwsExceptionPayload (payload : JsValue) : list OwsException :=
  match payload with
  | JObj _ => parseJsonExceptions payload
  | JStr text =>
      let xmlObj := parseXml text in
      map (fun node =>
             let exceptionCode :=
               nullish (getProp node "@_exceptionCode") (getProp node "@_code") in
             let textCandidates :=
               collectTextValuesByLocalName node "ExceptionText"
                 ++ collectTextValuesByLocalName node "exceptionText" in
             let joined := join newline textCandidates in
             mkOwsException exceptionCode (getProp node "@_locator")
               (JStr (if bool_decide (joined = "") then "Unknown OWS exception"
                      else joined)))
        (collectNodesByLocalName xmlObj "Exception")
  | _ => []
  end.

End WithExternals.

End OwsExceptionParser.

(** ** Capabilities ([parsers/capabilities.ts]) *)

Module CapabilitiesParser.
Import JsString Js Platform Errors Helpers.

Record CapabilitiesOperationBinding : Type := mkBinding {
  bindingGet : option string;
  bindingPost : option string
}.

Record ParsedCapabilities : Type := mkParsedCapabilities {
  title : option string;
  abstract : option string;
  capabilitiesVersion : JsValue;
  operations : list (string * CapabilitiesOperationBinding);
  raw : JsValue
}.

Definition allOperations : list WfsOperation :=
  [GetCapabilities; DescribeFeatureType; GetFeature; GetFeatureWithLock;
   GetPropertyValue; Transaction; LockFeature; ListStoredQueries;
   DescribeStoredQueries; CreateStoredQuery; DropStoredQuery].

(** [name in operationNameMap], for the names the map declares.  (A
    name that [Object.prototype] defines also passes the test of the
    source and files its binding under a key that no operation reads.) *)
Definition isOperationName (name : string) : bool :=
  bool_decide (name ∈ map operationName allOperations).

(** A truthy attribute value, read as the string it is declared to be. *)
Definition truthyText (v : JsValue) : option string :=
  if truthy v then Some (ToString v) else None.

Definition firstChildTextByLocalName (node : option JsValue) (expected : string)
  : option string :=
  match node with
  | None => None
  | Some node =>
      match List.find (fun kv => bool_decide (localName (fst kv) = expected))
              (entries node) with
      | Some (_, value) => valueText value
      | None => None
      end
  end.

Fixpoint setBinding (key : string) (b : CapabilitiesOperationBinding)
  (l : list (string * CapabilitiesOperationBinding))
  : list (string * CapabilitiesOperationBinding) :=
  match l with
  | [] => [(key, b)]
  | (k, v) :: rest =>
      if bool_decide (k = key) then (k, b) :: rest else (k, v) :: setBinding key b rest
  end.

Section WithExternals.
Context `{Externals}.

Definition parseCapabilities (payload : JsValue) : ParsedCapabilities :=
  match payload with
  | JStr text =>
      let xml := parseXml text in
      let capabilitiesNode :=
        FeatureCollection.orElse (getNodeByLocalName xml "WFS_Capabilities")
          (FeatureCollection.orElse (getNodeByLocalName xml "WMT_MS_Capabilities")
             (getNodeByLocalName xml "Capabilities")) in
      let version :=
        match capabilitiesNode with
        | Some node => getProp node "@_version"
        | None => JUndefined
        end in
      let operations :=
        fold_left
          (fun operations operationNode =>
             let name := getProp operationNode "@_name" in
             if negb (truthy name) || negb (isOperationName (ToString name))
             then operations
             else
               let getNode := default JUndefined
                                (head (collectNodesByLocalName operationNode "Get")) in
               let postNode := default JUndefined
                                 (head (collectNodesByLocalName operationNode "Post")) in
               let getHref :=
                 nullish (getProp getNode "@_xlink:href") (getProp getNode "@_href") in
               let postHref :=
                 nullish (getProp postNode "@_xlink:href") (getProp postNode "@_href") in
               setBinding (ToString name)
                 (mkBinding (truthyText getHref) (truthyText postHref)) operations)
          (collectNodesByLocalName xml "Operation") [] in
      let serviceIdentification := getNodeByLocalName xml "ServiceIdentification" in
      mkParsedCapabilities
        (firstChildTextByLocalName serviceIdentification "Title")
        (firstChildTextByLocalName serviceIdentification "Abstract")
        version operations xml
  | _ => mkParsedCapabilities None None JUndefined [] payload
  end.

End WithExternals.

End CapabilitiesParser.

(** ** The transport ([core/transport.ts]) *)

Module Transport.
Import JsString Js Platform Errors Options.

(** The request handed to the HTTP library. *)
Record AxiosRequestConfig : Type := mkAxiosRequestConfig {
  axUrl : string;
  axMethod : RequestStyle;
  axParams : option (gmap string string);
  axData : option string;
  axAuth : option (string * string);
  axHeaders : gmap string string;
  axTimeout : option number
}.

Inductive AxiosOutcome : Type :=
| AxiosResponse (status : Z) (headers : JsValue) (data : JsValue)
| AxiosRejected (e : Exn).

(** An HTTP library instance together with the service behind it: what
    a request is answered with, given the requests made before it. *)
Definition AxiosInstance : Type :=
  list AxiosRequestConfig -> AxiosRequestConfig -> AxiosOutcome.

Record TransportRequest : Type := mkTransportRequest {
  reqMethod : RequestStyle;
  reqUrl : string;
  reqHeaders : option (gmap string string);
  reqParams : option (gmap string string);
  reqData : option string;
  reqTimeoutMs : option number
}.

Record TransportResponse : Type := mkTransportResponse {
  status : Z;
  headers : JsValue;
  data : JsValue;
  rawData : JsValue;
  contentType : string;
  url : string;
  method : RequestStyle
}.

Section WithExternals.
Context `{Externals}.

Definition parseBody (data : JsValue) (contentType : string) : JsValue :=
  match data with
  | JStr text =>
      if bool_decide (text = "") then JStr ""
      else
        let lower := toLowerCase contentType in
        if includes "json" lower || startsWith "{" (trim text)
           || startsWith "[" (trim text)
        then match JSON_parse text with
             | Some parsed => parsed
             | None => data
             end
        else data
  | _ => JStr ""
  end.

(** What [WfsTransport.request] hands to the HTTP library. *)
Definition axiosConfigOf (defaultHeaders : gmap string string)
  (timeoutMs : option number) (req : TransportRequest) (auth : option (string * string))
  : AxiosRequestConfig :=
  {| axUrl := reqUrl req;
     axMethod := reqMethod req;
     axParams := reqParams req;
     axData := reqData req;
     axAuth := auth;
     axHeaders := default ∅ (reqHeaders req) ∪ defaultHeaders;
     axTimeout := match reqTimeoutMs req with Some t => Some t | None => timeoutMs end |}.

(** What [WfsTransport.request] makes of the answer. *)
Definition responseOf (req : TransportRequest) (status : Z) (headers data : JsValue)
  : TransportResponse :=
  let contentType := ToString (nullish (getProp headers "content-type") (JStr "")) in
  let rawData :=
    match data with
    | JStr _ | JUndefined => data
    | _ => JStr (JSON_stringify data)
    end in
  {| status := status; headers := headers; data := parseBody rawData contentType;
     rawData := rawData; contentType := contentType;
     url := reqUrl req; method := reqMethod req |}.

End WithExternals.

End Transport.

(** ** The client ([client/WfsClient.ts], [core/version.ts]) *)

Module Client.
Import JsString Js Xml Platform Version Gml Filter Options Errors Helpers.
Import FeatureCollection Serializers Kvp OwsExceptionParser CapabilitiesParser Transport.

Record GeoServerConfig : Type := mkGeoServerConfig {
  enabled : option bool;
  defaultVendorParams : option (gmap string string)
}.

(** [WfsClientConfig].  [axios] is the HTTP library instance in use, the
    supplied one or the default one; [versionStrategy] is ["auto"] or a
    version; [endpoints] is keyed by operation name. *)
Record WfsClientConfig : Type := mkWfsClientConfig {
  baseUrl : string;
  axios : AxiosInstance;
  versionStrategy : option string;
  axisOrderStrategy : option AxisOrderStrategy;
  defaultHeaders : option (gmap string string);
  auth : option (string * string);
  namespaces : option Namespaces;
  geoserverConfig : option GeoServerConfig;
  requestMs : option number;
  endpoints : option (list (string * string))
}.

(** The mutable fields of a client, and the requests its HTTP library
    instance has been handed so far. *)
Record ClientState : Type := mkClientState {
  negotiatedVersion : option WfsVersion;
  capabilities : option ParsedCapabilities;
  sent : list AxiosRequestConfig
}.

(** *** Asynchronous methods: state passing with abrupt completion *)

Definition M (A : Type) : Type := ClientState -> Completion A * ClientState.

Definition ret {A} (a : A) : M A := fun st => (Normal a, st).
Definition throw {A} (e : Exn) : M A := fun st => (Thrown e, st).
Definition lift {A} (c : Completion A) : M A := fun st => (c, st).

Definition bind {A B} (m : M A) (k : A -> M B) : M B :=
  fun st =>
    match m st with
    | (Normal a, st') => k a st'
    | (Thrown e, st') => (Thrown e, st')
    end.

(** [try { body } catch (error) { handler }] *)
Definition tryCatch {A} (body : M A) (handler : Exn -> M A) : M A :=
  fun st =>
    match body st with
    | (Normal a, st') => (Normal a, st')
    | (Thrown e, st') => handler e st'
    end.

Definition getState : M ClientState := fun st => (Normal st, st).
Definition setNegotiated (v : WfsVersion) (c : option ParsedCapabilities) : M unit :=
  fun st =>
    (Normal tt,
     {| negotiatedVersion := Some v;
        capabilities := match c with Some _ => c | None => capabilities st end;
        sent := sent st |}).

End Client.

Notation "x <~ c ;; k" := (Client.bind c (fun x => k))
  (at level 100, c at next level, right associativity).

Module WfsClient.
Import JsString Js Xml Platform Version Gml Filter Options Errors Helpers.
Import FeatureCollection Serializers Kvp OwsExceptionParser CapabilitiesParser Transport.
Import Client.

(** *** [core/version.ts] *)

(** A version strategy that names a version: a non-empty string other
    than ["auto"]. *)
Definition fixedVersion (strategy : option string) : option WfsVersion :=
  match strategy with
  | Some s => if bool_decide (s = "") || bool_decide (s = "auto") then None else Some s
  | None => None
  end.

Definition resolveInitialVersion (config : WfsClientConfig) : WfsVersion :=
  default DEFAULT_WFS_VERSION (fixedVersion (versionStrategy config)).

Definition getVersionFallbackChain (preferred : WfsVersion) (strategy : option string)
  : list WfsVersion :=
  match fixedVersion strategy with
  | Some v => [v]
  | None =>
      fold_left (fun chain version =>
                   if bool_decide (version ∈ chain) then chain else chain ++ [version])
        SUPPORTED_VERSIONS [preferred]
  end.

Record SendOperationParams : Type := mkSendOperationParams {
  spOperation : WfsOperation;
  spVersion : WfsVersion;
  spRequestStyle : RequestStyle;
  spKvp : option (gmap string string);
  spXml : option string;
  spRawHeaders : option (gmap string string)
}.

Section Instance.
Context `{Externals}.
(** [this.config] *)
Variable config : WfsClientConfig.

(** [this.transport.request(req, this.config.auth)] *)
Definition transportRequest (req : TransportRequest) : M TransportResponse :=
  fun st =>
    let request :=
      axiosConfigOf (default ∅ (defaultHeaders config)) (requestMs config) req
        (auth config) in
    let st' :=
      {| negotiatedVersion := negotiatedVersion st;
         capabilities := capabilities st;
         sent := sent st ++ [request] |} in
    match axios config (sent st) request with
    | AxiosResponse status headers data =>
        (Normal (responseOf req status headers data), st')
    | AxiosRejected e => (Thrown e, st')
    end.

Definition defaultException (status : Z) : list OwsException :=
  [mkOwsException (JStr "HTTP_ERROR") JUndefined
     (JStr ("HTTP request failed with status " +:+ numberToString (Int status)))].

Definition ensureNoError (operation : WfsOperation) (version : WfsVersion)
  (response : TransportResponse) : Completion unit :=
  let owsExceptions := parseOwsExceptionPayload (data response) in
  if (400 <=? status response)%Z || negb (bool_decide (owsExceptions = [])) then
    let exceptions :=
      if negb (bool_decide (owsExceptions = [])) then owsExceptions
      else defaultException (status response) in
    Thrown
      (OwsExceptionError
         ("WFS " +:+ operationName operation +:+ " failed with status "
            +:+ numberToString (Int (status response)))
         {| ctxOperation := operation;
            Errors.ctxVersion := Some version;
            ctxUrl := Some (url response);
            ctxMethod := Some (match method response with
                               | GET => MethodGET | POST => MethodPOST end);
            ctxStatus := Some (status response) |}
         exceptions (data response))
  else Normal tt.

Definition buildCapabilitiesKvp (version : WfsVersion) : gmap string string :=
  <["acceptVersions" := version]>
    (<["request" := "GetCapabilities"]>
       (<["version" := version]> (<["service" := "WFS"]> ∅))).

(** The loop of [resolveVersion] over the fallback chain. *)
Fixpoint negotiate (chain : list WfsVersion) : M WfsVersion :=
  match chain with
  | [] =>
      _ <~ setNegotiated DEFAULT_WFS_VERSION None ;;
      ret DEFAULT_WFS_VERSION
  | version :: rest =>
      tryCatch
        (response <~ transportRequest
                       (mkTransportRequest GET (baseUrl config) None
                          (Some (buildCapabilitiesKvp version)) None None) ;;
         _ <~ lift (ensureNoError GetCapabilities version response) ;;
         let parsed := parseCapabilities (rawData response) in
         let negotiated :=
           if isNullish (capabilitiesVersion parsed) then version
           else ToString (capabilitiesVersion parsed) in
         _ <~ setNegotiated negotiated (Some parsed) ;;
         ret negotiated)
        (fun _ => negotiate rest)
  end.

Definition resolveVersion (explicit : option WfsVersion) : M WfsVersion :=
  match nonEmpty explicit with
  | Some v => ret v
  | None =>
      match fixedVersion (versionStrategy config) with
      | Some v => ret v
      | None =>
          st <~ getState ;;
          match nonEmpty (negotiatedVersion st) with
          | Some v => ret v
          | None =>
              let preferred := resolveInitialVersion config in
              negotiate (getVersionFallbackChain preferred (versionStrategy config))
          end
      end
  end.

Definition pickBinding (binding : CapabilitiesOperationBinding) (style : RequestStyle)
  : option string :=
  match style with
  | GET => orElse (bindingGet binding) (bindingPost binding)
  | POST => orElse (bindingPost binding) (bindingGet binding)
  end.

Definition resolveEndpoint (st : ClientState) (operation : WfsOperation)
  (style : RequestStyle) : string :=
  match nonEmpty (endpoints config ≫= assoc (operationName operation)) with
  | Some explicit => explicit
  | None =>
      match capabilities st ≫= (fun c => assoc (operationName operation) (operations c))
      with
      | Some fromCapabilities =>
          default (baseUrl config) (pickBinding fromCapabilities style)
      | None => baseUrl config
      end
  end.

(** The request [sendOperation] hands to the transport. *)
Definition operationRequest (st : ClientState) (params : SendOperationParams)
  : TransportRequest :=
  {| reqMethod := spRequestStyle params;
     reqUrl := resolveEndpoint st (spOperation params) (spRequestStyle params);
     reqParams := match spRequestStyle params with GET => spKvp params | POST => None end;
     reqData := match spRequestStyle params with POST => spXml params | GET => None end;
     reqHeaders :=
       Some (default ∅ (spRawHeaders params)
               ∪ match spRequestStyle params with
                 | POST => {[ "Content-Type" := "text/xml; charset=UTF-8" ]}
                 | GET => ∅
                 end);
     reqTimeoutMs := None |}.

Definition sendOperation (params : SendOperationParams) : M TransportResponse :=
  st <~ getState ;;
  response <~ transportRequest (operationRequest st params) ;;
  _ <~ lift (ensureNoError (spOperation params) (spVersion params) response) ;;
  ret response.

Definition parseFeatureResponse (response : TransportResponse)
  : Completion FeatureCollectionResult :=
  let strategy := default Preserve (axisOrderStrategy config) in
  parsed <- parseFeatureCollection (data response) strategy ;;
  if 0 <? featuresLength parsed then Normal parsed
  else parseFeatureCollection (rawData response) strategy.

(** [value.toLowerCase()] on a value declared to be a string. *)
Definition toLowerCaseOf (value : JsValue) : Completion string :=
  match value with
  | JStr s => Normal (toLowerCase s)
  | _ => Thrown (TypeError "toLowerCase is not a function")
  end.

(** The callback of [some] in [isOutputFormatException]. *)
Definition indicatesOutputFormat (exception : OwsException) : Completion bool :=
  lowerText <- toLowerCaseOf (text exception) ;;
  lowerCode <- toLowerCaseOf (nullish (exceptionCode exception) (JStr "")) ;;
  Normal (includes "outputformat" lowerText
          || includes "invalidparametervalue" lowerCode
          || includes "operationprocessingfailed" lowerCode).

(** [arr.some(f)] *)
Fixpoint someC {A} (f : A -> Completion bool) (l : list A) : Completion bool :=
  match l with
  | [] => Normal false
  | x :: rest => b <- f x ;; if b then Normal true else someC f rest
  end.

Definition isOutputFormatException (error : Exn) : Completion bool :=
  match error with
  | OwsExceptionError _ _ exceptions _ => someC indicatesOutputFormat exceptions
  | _ => Normal false
  end.

Definition withGeoServerDefaults (geoserver : option GeoServerOptions)
  : option GeoServerOptions :=
  match geoserverConfig config with
  | Some gc =>
      if default false (enabled gc) then
        Some {| cqlFilter := geoserver ≫= cqlFilter;
                viewParams := geoserver ≫= viewParams;
                formatOptions := geoserver ≫= formatOptions;
                vendorParams :=
                  Some (default ∅ (geoserver ≫= vendorParams)
                          ∪ default ∅ (defaultVendorParams gc));
                xmlHints := geoserver ≫= xmlHints |}
      else geoserver
  | None => geoserver
  end.

Definition createSerializerContext (version : WfsVersion) : SerializerContext :=
  mkSerializerContext version (namespaces config).

(** One exchange of [getFeature]: the argument of [sendOperation] is
    built (the XML body only for POST), the request is sent and checked,
    and the response is parsed. *)
Definition getFeatureAttempt (version : WfsVersion) (style : RequestStyle)
  (options : GetFeatureOptions) : M FeatureCollectionResult :=
  let kvp := buildGetFeatureKvp options version in
  xml <~ lift (match style with
               | POST => body <- buildGetFeatureXml options
                                   (createSerializerContext version) ;;
                         Normal (Some body)
               | GET => Normal None
               end) ;;
  response <~ sendOperation
                {| spOperation := GetFeature; spVersion := version;
                   spRequestStyle := style; spKvp := Some kvp; spXml := xml;
                   spRawHeaders := Options.raw options ≫= Options.headers |} ;;
  lift (parseFeatureResponse response).

Definition baseOptionsOf (options : GetFeatureOptions) : GetFeatureOptions :=
  withOutputFormat (withGeoserver options (withGeoServerDefaults (geoserver options)))
    (Some (default (default "" (head GEOJSON_OUTPUT_FORMATS)) (outputFormat options))).

Definition fallbackOptionsOf (options : GetFeatureOptions) : GetFeatureOptions :=
  withOutputFormat (baseOptionsOf options) None.

Definition getFeature (options : GetFeatureOptions) : M FeatureCollectionResult :=
  version <~ resolveVersion (Options.version options) ;;
  let style := default GET (requestStyle options) in
  tryCatch
    (getFeatureAttempt version style (baseOptionsOf options))
    (fun error =>
       isOutputFormat <~ lift (isOutputFormatException error) ;;
       if negb isOutputFormat then throw error
       else getFeatureAttempt version style (fallbackOptionsOf options)).

End Instance.

End WfsClient.

(** ** The other KVP builders ([operations/kvp.ts]) *)

Module KvpBuilders.
Import JsString Js Xml Platform Version Gml Filter Kvp.

Record GetCapabilitiesOptions : Type := mkGetCapabilitiesOptions {
  gcVersion : option WfsVersion;
  gcRequestStyle : option Options.RequestStyle;
  gcOutputFormat : option string;
  gcRaw : option Options.RawRequestOptions;
  acceptVersions : option (list WfsVersion)
}.


Record GetPropertyValueOptions : Type := mkGetPropertyValueOptions {
  (* BaseOperationOptions *)
  gpvVersion : option WfsVersion;
  gpvRequestStyle : option Options.RequestStyle;
  gpvOutputFormat : option string;
  gpvRaw : option Options.RawRequestOptions;
  (* QueryPagingOptions *)
  gpvStartIndex : option number;
  gpvCount : option number;
  gpvResultType : option Options.ResultType;
  (* ResolveOptions *)
  gpvResolve : option Options.Resolve;
  gpvResolveDepth : option Options.ResolveDepth;
  gpvResolveTimeout : option number;
  (* GetPropertyValueOptions *)
  gpvTypeNames : list string;
  valueReference : string;
  resolvePath : option string;
  gpvFilter : option WfsFilter;
  gpvGeoserver : option Options.GeoServerOptions
}.

Record DescribeStoredQueriesOptions : Type := mkDescribeStoredQueriesOptions {
  dsqVersion : option WfsVersion;
  dsqRequestStyle : option Options.RequestStyle;
  dsqOutputFormat : option string;
  dsqRaw : option Options.RawRequestOptions;
  storedQueryIds : option (list string)
}.

Record DropStoredQueryOptions : Type := mkDropStoredQueryOptions {
  dropVersion : option WfsVersion;
  dropRequestStyle : option Options.RequestStyle;
  dropOutputFormat : option string;
  dropRaw : option Options.RawRequestOptions;
  id : string
}.

Record ListStoredQueriesOptions : Type := mkListStoredQueriesOptions {
  lsqVersion : option WfsVersion;
  lsqRequestStyle : option Options.RequestStyle;
  lsqOutputFormat : option string;
  lsqRaw : option Options.RawRequestOptions
}.

(** [{ service: "WFS", version, request }] *)
Definition baseParams (request : string) (version : WfsVersion) : gmap string string :=
  <["request" := request]> (<["version" := version]> (<["service" := "WFS"]> ∅)).

(** [list?.length] as a condition: a list that is there and not empty. *)
Definition nonEmptyList {A} (l : option (list A)) : option (list A) :=
  match l with
  | Some (x :: rest) => Some (x :: rest)
  | _ => None
  end.

Definition buildCapabilitiesKvp (options : GetCapabilitiesOptions)
  (version : WfsVersion) : gmap string string :=
  let acceptVersions := default [version] (acceptVersions options) in
  assign
    (<["acceptVersions" := join "," acceptVersions]>
       (baseParams "GetCapabilities" version))
    (default ∅ (gcRaw options ≫= Options.kvp)).


Definition buildSimpleKvp (request : string) (version : WfsVersion)
  (raw : option (gmap string string)) : gmap string string :=
  assign (baseParams request version) (default ∅ raw).

Definition buildDescribeStoredQueriesKvp (options : DescribeStoredQueriesOptions)
  (version : WfsVersion) : gmap string string :=
  let params :=
    buildSimpleKvp "DescribeStoredQueries" version (dsqRaw options ≫= Options.kvp) in
  setOpt "storedQueryId" (join "," <$> nonEmptyList (storedQueryIds options)) params.

Definition buildDropStoredQueryKvp (options : DropStoredQueryOptions)
  (version : WfsVersion) : gmap string string :=
  let params :=
    buildSimpleKvp "DropStoredQuery" version (dropRaw options ≫= Options.kvp) in
  <["id" := id options]> params.

Definition buildListStoredQueriesKvp (options : ListStoredQueriesOptions)
  (version : WfsVersion) : gmap string string :=
  buildSimpleKvp "ListStoredQueries" version (lsqRaw options ≫= Options.kvp).

Section WithExternals.
Context `{Externals}.

Definition buildGetPropertyValueKvp (options : GetPropertyValueOptions)
  (version : WfsVersion) : gmap string string :=
  let typeParamName := if is110 version then "typeName" else "typeNames" in
  let params : gmap string string :=
    <[typeParamName := join "," (gpvTypeNames options)]>
      (<["valueReference" := valueReference options]>
         (baseParams "GetPropertyValue" version)) in
  let params := setOpt "resolvePath" (Options.nonEmpty (resolvePath options)) params in
  let params := setOpt "startIndex" (numberToString <$> gpvStartIndex options) params in
  let params := setOpt "count" (numberToString <$> gpvCount options) params in
  let params := setOpt "resultType"
                  (Options.resultTypeString <$> gpvResultType options) params in
  let params := setOpt "filter"
                  (Options.nonEmpty (buildGetFilter (gpvFilter options) version))
                  params in
  let params := applyGeoServerParams params (gpvGeoserver options) in
  assign params (default ∅ (gpvRaw options ≫= Options.kvp)).

End WithExternals.

End KvpBuilders.

(** ** Features of an insert action ([serializers/gml.ts]) *)

Module FeatureXml.
Import JsString Js Xml Platform Version Gml Errors.

Fixpoint everyChar (test : ascii -> bool) (s : string) : bool :=
  match s with
  | EmptyString => true
  | String c s' => test c && everyChar test s'
  end.

(** [NCNAME_PATTERN.test(s)]: from the first character to the last, a
    name-start character and any number of name characters. *)
Definition testNCName (s : string) : bool :=
  match s with
  | String c rest => Serializers.isNameStart c && everyChar Serializers.isNameChar rest
  | EmptyString => false
  end.

(** [QNAME_PATTERN.test(s)]: a name of that kind, or two of them around
    a colon.  Neither class holds the colon, so the colon of a match is
    the first colon of the text. *)
Definition testQName (s : string) : bool :=
  match indexOf ":" s with
  | Some i => testNCName (slice s 0 i) && testNCName (sliceFrom s (i + 1))
  | None => testNCName s
  end.

(** [s.split(":", 2)] for a text with a colon: the text before the
    first colon and the text between it and the next one. *)
Definition splitColon2 (s : string) : string * string :=
  match indexOf ":" s with
  | Some i =>
      let rest := sliceFrom s (i + 1) in
      (slice s 0 i,
       match indexOf ":" rest with
       | Some j => slice rest 0 j
       | None => rest
       end)
  | None => (s, EmptyString)
  end.

Definition splitQName (typeName : string) : Completion (option string * string) :=
  let normalized := trim typeName in
  if bool_decide (normalized = "") then
    Thrown (PlainError "typeName must be a non-empty QName")
  else if includes ":" normalized then
    match splitColon2 normalized with
    | (prefix, local) =>
        if bool_decide (prefix = "") || bool_decide (local = "")
           || negb (testQName normalized)
        then Thrown (PlainError ("Invalid typeName QName " +:+ dquote +:+ typeName
                                   +:+ dquote))
        else Normal (Some prefix, local)
    end
  else if negb (testNCName normalized) then
    Thrown (PlainError ("Invalid typeName " +:+ dquote +:+ typeName +:+ dquote))
  else Normal (None, normalized).

(** [prefix ? `${prefix}:${name}` : name] *)
Definition qualified (prefix : option string) (name : string) : string :=
  match Options.nonEmpty prefix with
  | Some p => p +:+ ":" +:+ name
  | None => name
  end.

Definition resolvePropertyTagName (propertyName : string)
  (defaultPrefix : option string) : Completion string :=
  let normalized := trim propertyName in
  if bool_decide (normalized = "") then
    Thrown (PlainError "Property name must be a non-empty QName")
  else if includes ":" normalized then
    if negb (testQName normalized) then
      Thrown (PlainError ("Invalid property QName " +:+ dquote +:+ propertyName
                            +:+ dquote))
    else Normal normalized
  else if negb (testNCName normalized) then
    Thrown (PlainError ("Invalid property name " +:+ dquote +:+ propertyName
                          +:+ dquote))
  else Normal (qualified defaultPrefix normalized).

Definition tagValue (tag : string) (value : JsValue) : string :=
  match value with
  | JUndefined | JNull | JStr EmptyString => EmptyString
  | _ => "<" +:+ tag +:+ ">" +:+ escapeXml value +:+ "</" +:+ tag +:+ ">"
  end.

(** A GeoJSON feature: [id] is a string, a number or [undefined];
    [geometry] and [properties] may be [null]. *)
Record Feature : Type := mkFeature {
  featureId : JsValue;
  geometry : option Geometry;
  properties : option (list (string * JsValue))
}.

Record FeatureToXmlOptions : Type := mkFeatureToXmlOptions {
  ftxVersion : WfsVersion;
  ftxTypeName : string;
  feature : Feature;
  geometryPropertyName : option string;
  ftxSrsName : option string
}.

Definition isUndefined (v : JsValue) : bool :=
  match v with JUndefined => true | _ => false end.

Definition featureToWfsInsertXml (options : FeatureToXmlOptions) : Completion string :=
  split <- splitQName (ftxTypeName options) ;;
  let prefix := fst split in
  let localTypeName := snd split in
  let featureTag := qualified prefix localTypeName in
  let geometryProperty := default "geometry" (geometryPropertyName options) in
  tags <- mapC (fun entry =>
                  tag <- resolvePropertyTagName (fst entry) prefix ;;
                  Normal (tagValue tag (snd entry)))
            (List.filter (fun entry => negb (isUndefined (snd entry)))
               (default [] (properties (feature options)))) ;;
  let propertiesXml := JsString.concat tags in
  geometryTag <- resolvePropertyTagName geometryProperty prefix ;;
  let geometryXml :=
    match geometry (feature options) with
    | Some g =>
        "<" +:+ geometryTag +:+ ">"
          +:+ geometryToGml g (ftxVersion options) (ftxSrsName options)
          +:+ "</" +:+ geometryTag +:+ ">"
    | None => EmptyString
    end in
  let idAttr :=
    if truthy (featureId (feature options))
    then xmlAttr "gml:id" (featureId (feature options))
    else EmptyString in
  Normal ("<" +:+ featureTag +:+ idAttr +:+ ">" +:+ propertiesXml +:+ geometryXml
            +:+ "</" +:+ featureTag +:+ ">").

End FeatureXml.

(** ** The capabilities operation ([client/WfsClient.ts],
    [serializers/wfs.ts]) *)

Module CapabilitiesOperation.
Import JsString Js Xml Platform Version Options Errors Helpers.
Import Serializers CapabilitiesParser Transport Client WfsClient KvpBuilders.

Section Instance.
Context `{Externals}.
Variable config : WfsClientConfig.

Definition buildGetCapabilitiesXml (options : GetCapabilitiesOptions)
  (ctx : SerializerContext) : Completion string :=
  ns <- resolveRootNamespaces ctx [] ;;
  let acceptVersionsXml :=
    JsString.concat
      (map (fun version =>
              "<ows:Version>" +:+ escapeXml (JStr version) +:+ "</ows:Version>")
         (default [] (acceptVersions options))) in
  let document :=
    "<wfs:GetCapabilities" +:+ rootXmlns ns +:+ " service=" +:+ dquote +:+ "WFS"
      +:+ dquote +:+ " version=" +:+ dquote +:+ ctxVersion ctx +:+ dquote +:+ ">"
      +:+ (if bool_decide (acceptVersionsXml = "") then ""
           else "<ows:AcceptVersions>" +:+ acceptVersionsXml
                  +:+ "</ows:AcceptVersions>")
      +:+ "</wfs:GetCapabilities>" in
  Normal (applyXmlOverrides document (gcRaw options ≫= xmlOverrides)).

(** The assignments of [getCapabilities] to the fields of the client.
    The version attribute is stored as the text it is declared to be. *)
Definition storeCapabilities (parsed : ParsedCapabilities) : M unit :=
  fun st =>
    (Normal tt,
     {| negotiatedVersion :=
          if bool_decide (versionStrategy config = Some "auto")
             && truthy (capabilitiesVersion parsed)
          then Some (ToString (capabilitiesVersion parsed))
          else negotiatedVersion st;
        capabilities := Some parsed;
        sent := sent st |}).

Definition getCapabilities (options : GetCapabilitiesOptions) : M ParsedCapabilities :=
  version <~ resolveVersion config (gcVersion options) ;;
  let requestStyle := default GET (gcRequestStyle options) in
  xml <~ lift (match requestStyle with
               | POST => body <- buildGetCapabilitiesXml options
                                   (createSerializerContext config version) ;;
                         Normal (Some body)
               | GET => Normal None
               end) ;;
  response <~ sendOperation config
                {| spOperation := GetCapabilities; spVersion := version;
                   spRequestStyle := requestStyle;
                   spKvp := Some (buildCapabilitiesKvp options version);
                   spXml := xml;
                   spRawHeaders := gcRaw options ≫= Options.headers |} ;;
  let parsed := parseCapabilities (rawData response) in
  _ <~ storeCapabilities parsed ;;
  ret parsed.

End Instance.

End CapabilitiesOperation.

(** ** The other XML serializers that check prefixes
    ([serializers/xml.ts]) *)

Module RequestSerializers.
Import JsString Js Xml Platform Version Gml Filter Options Errors.
Import Serializers KvpBuilders FeatureXml.















Section WithExternals.
Context `{Externals}.








End WithExternals.

End RequestSerializers.
(** ** The client: the other operations that send a checked XML body
    ([client/WfsClient.ts]) *)

Module Operations.
Import JsString Js Xml Platform Version Options Errors Helpers.
Import FeatureCollection TransactionParser LockParser Serializers Kvp Transport.
Import Client WfsClient KvpBuilders RequestSerializers.



Section Instance.
Context `{Externals}.
Variable config : WfsClientConfig.





End Instance.

End Operations.

(** * Terms of the statements and sample inputs *)

Module SerializerTerms.
Import JsString Js Xml Platform Version Options Serializers.

(** No prefix of the table holds a [>]. *)
Definition cleanKeys (namespaces : Namespaces) : Prop :=
  Forall (fun e => ~ occurs ">" (fst e)) namespaces.

(** Raw options with one [replace] override aimed at [root]. *)
Definition replaceRoot (root ovxml : string) : RawRequestOptions :=
  mkRawRequestOptions None (Some [mkXmlOverride root (Some Replace) ovxml]) None.

End SerializerTerms.

Module FilterTerms.
Import JsString Js Xml Platform Version Gml Filter Markup.

Definition featureIdElement (id : string) : string :=
  "<ogc:FeatureId fid=" +:+ dquote +:+ escapeXmlString id +:+ dquote +:+ "/>".

Definition resourceIdElement (id : string) : string :=
  "<fes:ResourceId rid=" +:+ dquote +:+ escapeXmlString id +:+ dquote +:+ "/>".

(** The opening tag of the [Filter] wrapper. *)
Definition filterOpen (v : WfsVersion) (ns : option bool) : string :=
  "<" +:+ filterPrefix v +:+ ":Filter"
    +:+ (if default false ns then filterNamespaceAttrs v else "") +:+ ">".







End FilterTerms.

Module KvpTerms.
Import JsString Js Xml Platform Version Gml Filter Options Kvp.

(** The caller binds [k] neither in [raw.kvp] nor in
    [geoserver.vendorParams]. *)
Definition notOverridden (options : GetFeatureOptions) (k : string) : Prop :=
  (raw options ≫= kvp) ≫= (fun m => m !! k) = None
  /\ (geoserver options ≫= vendorParams) ≫= (fun m => m !! k) = None.

Definition plainOptions (names : list string) (n : option number)
  (rawKvp : option (gmap string string)) : GetFeatureOptions :=
  {| version := None; requestStyle := None; outputFormat := None;
     raw := Some (mkRawRequestOptions rawKvp None None);
     startIndex := None; count := n; resultType := None; resolve := None;
     resolveDepth := None; resolveTimeout := None; typeNames := names;
     srsName := None; propertyNames := None; filter := None; bbox := None;
     geoserver := None |}.

End KvpTerms.

Module AxisOrderTerms.
Import JsString Js Platform Options Errors Gml Helpers FeatureCollection.

(** [srsName] names an EPSG:4326 reference system for [maybeSwap]. *)
Definition names4326 (srsName : option string) : bool :=
  includes "4326" (toLowerCase (default "" srsName)).

Definition samplePoint : JsValue :=
  JObj [("gml:pos", JStr "40 20"); ("@_srsName", JStr "EPSG:4326")].

End AxisOrderTerms.

Module TransactionTerms.
Import JsString Js Platform Errors Helpers TransactionParser LockParser.

(** The summary node holds no total under the key the parser reads. *)
Definition omitsTotal (summaryNode : option JsValue) (name : string) : Prop :=
  match summaryNode with
  | None => True
  | Some node =>
      getProp node ("wfs:" +:+ name) = JUndefined /\ getProp node name = JUndefined
  end.

(** The parser hands a total of zero over as the number or as its text. *)
Definition isZero (v : JsValue) : Prop := v = JNum (Int 0) \/ v = JStr "0".

(** The summary node holds [v] under the key the parser reads for
    [name]: [wfs:name], or [name] when there is no [wfs:name]. *)
Definition holdsTotal (node : JsValue) (name : string) (v : JsValue) : Prop :=
  getProp node ("wfs:" +:+ name) = v
  \/ (getProp node ("wfs:" +:+ name) = JUndefined /\ getProp node name = v).

(** A summary that reports no inserted feature and says nothing of
    deleted ones. *)
Definition summaryDocument : string :=
  "<wfs:TransactionResponse><wfs:TransactionSummary><wfs:totalInserted>0</wfs:totalInserted><wfs:totalUpdated>2</wfs:totalUpdated></wfs:TransactionSummary></wfs:TransactionResponse>".

Definition summaryNodeTree : JsValue :=
  JObj [("wfs:totalInserted", JNum (Int 0)); ("wfs:totalUpdated", JNum (Int 2))].

Definition summaryTree : JsValue :=
  JObj [("wfs:TransactionResponse", JObj [("wfs:TransactionSummary", summaryNodeTree)])].

(** A transaction response of a 1.1.0 service: the inserted feature is
    reported as [<ogc:FeatureId fid='x'/>] inside [wfs:Feature]. *)
Definition insertResponseDocument : string :=
  "<wfs:TransactionResponse><wfs:InsertResults><wfs:Feature><ogc:FeatureId fid='x'/></wfs:Feature></wfs:InsertResults></wfs:TransactionResponse>".

Definition featureIdNode : JsValue := JObj [("ogc:FeatureId", JObj [("@_fid", JStr "x")])].

Definition insertResponseTree : JsValue :=
  JObj [("wfs:TransactionResponse",
         JObj [("wfs:InsertResults", JObj [("wfs:Feature", featureIdNode)])])].

(** A summary whose totals carry another prefix than [wfs]. *)
Definition prefixedSummaryDocument : string :=
  "<ns0:TransactionResponse><ns0:TransactionSummary><ns0:totalInserted>0</ns0:totalInserted></ns0:TransactionSummary></ns0:TransactionResponse>".

Definition prefixedSummaryTree : JsValue :=
  JObj [("ns0:TransactionResponse",
         JObj [("ns0:TransactionSummary", JObj [("ns0:totalInserted", JNum (Int 0))])])].

End TransactionTerms.

Module FeatureCollectionTerms.
Import JsString Js Platform Options Errors Gml Helpers FeatureCollection.

(** A reference system name on which [toLowerCase] can be called after
    the [??] of [maybeSwap]: a string, or nothing. *)
Definition srsOk (v : JsValue) : bool :=
  match v with
  | JStr _ | JUndefined | JNull => true
  | _ => false
  end.

(** Every [srsName] attribute of the tree is a string. *)
Fixpoint srsTyped (v : JsValue) : bool :=
  match v with
  | JObj fields =>
      srsOk (default JUndefined (assoc "@_srsName" fields))
      && forallb (fun kv => match kv with (_, child) => srsTyped child end) fields
  | JArr items => forallb srsTyped items
  | _ => true
  end.

(** Decoding under [strategy] cannot reach [toLowerCase] on a value
    without it: the strategy never lower-cases, or the names are strings. *)
Definition safeSrs (strategy : AxisOrderStrategy) (srsName : JsValue) : Prop :=
  strategy = Preserve \/ srsOk srsName = true.

Definition safeTree (strategy : AxisOrderStrategy) (v : JsValue) : Prop :=
  strategy = Preserve \/ srsTyped v = true.

(** The computation ends without throwing. *)
Definition returns {A} (c : Completion A) : Prop := exists a, c = Normal a.

(** A collection whose geometry property carries a numeric-looking
    reference system: the tree parser is configured with
    [parseAttributeValue: true] and hands [srsName='4326'] over as a
    number. *)
Definition numericSrsDocument : string :=
  "<wfs:FeatureCollection><gml:featureMember><topp:roads><topp:geom srsName='4326'><gml:Point><gml:pos>40 20</gml:pos></gml:Point></topp:geom></topp:roads></gml:featureMember></wfs:FeatureCollection>".

Definition numericSrsTree : JsValue :=
  JObj [("wfs:FeatureCollection",
         JObj [("gml:featureMember",
                JObj [("topp:roads",
                       JObj [("topp:geom",
                              JObj [("gml:Point",
                                     JObj [("gml:pos", JStr "40 20")]);
                                    ("@_srsName", JNum (Int 4326))])])])])].

(** The same collection with the reference system written as a name. *)
Definition typedSrsDocument : string :=
  "<wfs:FeatureCollection><gml:featureMember><topp:roads><topp:geom srsName='EPSG:4326'><gml:Point><gml:pos>40 20</gml:pos></gml:Point></topp:geom></topp:roads></gml:featureMember></wfs:FeatureCollection>".

Definition typedSrsTree : JsValue :=
  JObj [("wfs:FeatureCollection",
         JObj [("gml:featureMember",
                JObj [("topp:roads",
                       JObj [("topp:geom",
                              JObj [("gml:Point",
                                     JObj [("gml:pos", JStr "40 20")]);
                                    ("@_srsName", JStr "EPSG:4326")])])])])].

End FeatureCollectionTerms.

Module ClientTerms.
Import JsString Js Xml Platform Version Gml Filter Options Errors Helpers.
Import FeatureCollection Serializers Kvp OwsExceptionParser CapabilitiesParser Transport.
Import Client WfsClient.

(** The state after one more request has been handed to the HTTP
    library. *)
Definition afterRequest (st : ClientState) (request : AxiosRequestConfig)
  : ClientState :=
  {| negotiatedVersion := negotiatedVersion st;
     capabilities := capabilities st;
     sent := sent st ++ [request] |}.

Section Attempts.
Context `{Externals}.
Variable config : WfsClientConfig.

(** The XML body of an attempt: built for POST only. *)
Definition attemptBody (version : WfsVersion) (style : RequestStyle)
  (options : GetFeatureOptions) : Completion (option string) :=
  match style with
  | POST => body <- buildGetFeatureXml options (createSerializerContext config version) ;;
            Normal (Some body)
  | GET => Normal None
  end.

(** The request of an attempt as the HTTP library receives it. *)
Definition attemptRequest (st : ClientState) (version : WfsVersion)
  (style : RequestStyle) (options : GetFeatureOptions) (body : option string)
  : AxiosRequestConfig :=
  axiosConfigOf (default ∅ (defaultHeaders config)) (requestMs config)
    (operationRequest config st
       {| spOperation := GetFeature; spVersion := version; spRequestStyle := style;
          spKvp := Some (buildGetFeatureKvp options version); spXml := body;
          spRawHeaders := Options.raw options ≫= Options.headers |})
    (auth config).

End Attempts.

(** The test of [isOutputFormatException] on one exception whose code
    and text are the strings they are declared to be. *)
Definition indicates (code : option string) (text : string) : bool :=
  includes "outputformat" (toLowerCase text)
  || includes "invalidparametervalue" (toLowerCase (default "" code))
  || includes "operationprocessingfailed" (toLowerCase (default "" code)).

Definition typedException (e : option string * JsValue * string) : OwsException :=
  mkOwsException (optStr (fst (fst e))) (snd (fst e)) (JStr (snd e)).

(** A service that rejects every request naming an output format with
    an exception report, and answers the others with a GML collection. *)
Definition exceptionDocument : string :=
  "<ows:ExceptionReport><ows:Exception exceptionCode='InvalidParameterValue' locator='outputFormat'><ows:ExceptionText>Unknown output format</ows:ExceptionText></ows:Exception></ows:ExceptionReport>".

Definition exceptionTree : JsValue :=
  JObj [("ows:ExceptionReport",
         JObj [("ows:Exception",
                JObj [("ows:ExceptionText", JStr "Unknown output format");
                      ("@_exceptionCode", JStr "InvalidParameterValue");
                      ("@_locator", JStr "outputFormat")])])].

Definition roadsDocument : string :=
  "<wfs:FeatureCollection><wfs:member><topp:roads gml:id='roads.1'><topp:name>Main St</topp:name></topp:roads></wfs:member></wfs:FeatureCollection>".

Definition roadsTree : JsValue :=
  JObj [("wfs:FeatureCollection",
         JObj [("wfs:member",
                JObj [("topp:roads",
                       JObj [("topp:name", JStr "Main St");
                             ("@_gml:id", JStr "roads.1")])])])].

Definition samplePlatform : Externals :=
  tablePlatform [(exceptionDocument, exceptionTree); (roadsDocument, roadsTree)].

Definition xmlHeaders : JsValue := JObj [("content-type", JStr "application/xml")].

Definition formatSensitiveService : AxiosInstance :=
  fun _ request =>
    match axParams request ≫= (fun params => params !! "outputFormat") with
    | Some _ => AxiosResponse 400 xmlHeaders (JStr exceptionDocument)
    | None => AxiosResponse 200 xmlHeaders (JStr roadsDocument)
    end.

Definition sampleConfig (service : AxiosInstance) : WfsClientConfig :=
  {| baseUrl := "https://example.com/wfs"; axios := service;
     versionStrategy := Some "2.0.2"; axisOrderStrategy := None;
     defaultHeaders := None; auth := None; namespaces := None;
     geoserverConfig := None; requestMs := None; endpoints := None |}.

Definition freshClient : ClientState :=
  {| negotiatedVersion := None; capabilities := None; sent := [] |}.

Definition roadsQuery (style : option RequestStyle) : GetFeatureOptions :=
  {| Options.version := None; requestStyle := style; outputFormat := None;
     Options.raw := None; startIndex := None; count := None; resultType := None;
     resolve := None; resolveDepth := None; resolveTimeout := None;
     typeNames := ["topp:roads"]; Options.srsName := None; propertyNames := None;
     Options.filter := None; bbox := None; geoserver := None |}.

End ClientTerms.

Module NamespaceTerms.
Import JsString Js Xml Platform Version Gml Filter Options Errors Helpers.
Import FeatureCollection Serializers Kvp OwsExceptionParser CapabilitiesParser Transport.
Import Client WfsClient ClientTerms.


End NamespaceTerms.

Module KvpOverlayTerms.
Import JsString Js Xml Platform Version Gml Filter Options Kvp.

(** The options without the caller's free-form parameters: no
    [raw.kvp] and no [geoserver.vendorParams]. *)
Definition withoutOverlays (options : GetFeatureOptions) : GetFeatureOptions :=
  {| version := version options; requestStyle := requestStyle options;
     outputFormat := outputFormat options;
     raw := (fun r => mkRawRequestOptions None (xmlOverrides r) (headers r))
              <$> raw options;
     startIndex := startIndex options; count := count options;
     resultType := resultType options; resolve := resolve options;
     resolveDepth := resolveDepth options; resolveTimeout := resolveTimeout options;
     typeNames := typeNames options; srsName := srsName options;
     propertyNames := propertyNames options; filter := filter options;
     bbox := bbox options;
     geoserver :=
       (fun g => mkGeoServerOptions (cqlFilter g) (viewParams g) (formatOptions g)
                   None (xmlHints g)) <$> geoserver options |}.

(** What the caller's free-form parameters bind [k] to: [raw.kvp] first,
    [geoserver.vendorParams] second. *)
Definition overlay (options : GetFeatureOptions) (k : string) : option string :=
  match (raw options ≫= kvp) ≫= (fun m => m !! k) with
  | Some v => Some v
  | None => (geoserver options ≫= vendorParams) ≫= (fun m => m !! k)
  end.

End KvpOverlayTerms.

Module KvpBuildersTerms.
Import JsString Js Xml Platform Version Gml Filter Kvp KvpBuilders.

(** The caller's free-form parameters of a GetPropertyValue call leave
    the key [k] alone. *)
Definition leavesAlone (options : GetPropertyValueOptions) (k : string) : Prop :=
  (gpvRaw options ≫= Options.kvp) ≫= (fun m => m !! k) = None
  /\ (gpvGeoserver options ≫= Options.vendorParams) ≫= (fun m => m !! k) = None.

Definition sampleValueQuery : GetPropertyValueOptions :=
  {| gpvVersion := None; gpvRequestStyle := None;
     gpvOutputFormat := Some "application/json"; gpvRaw := None;
     gpvStartIndex := None; gpvCount := Some (Int 5); gpvResultType := None;
     gpvResolve := Some Options.ResolveLocal; gpvResolveDepth := None;
     gpvResolveTimeout := None; gpvTypeNames := ["topp:roads"];
     valueReference := "topp:name"; resolvePath := None; gpvFilter := None;
     gpvGeoserver := None |}.

End KvpBuildersTerms.

Module NegotiationTerms.
Import JsString Js Platform Version Options Transport Client WfsClient.

(** The capabilities probe of [resolveVersion] for one version, as the
    HTTP library receives it. *)
Definition probeRequest (config : WfsClientConfig) (version : WfsVersion)
  : AxiosRequestConfig :=
  axiosConfigOf (default ∅ (defaultHeaders config)) (requestMs config)
    (mkTransportRequest GET (baseUrl config) None
       (Some (buildCapabilitiesKvp version)) None None)
    (auth config).

End NegotiationTerms.

Module TextTerms.
Import JsString.

(** Every character of the text passes the test. *)
Fixpoint allChars (test : ascii -> bool) (s : string) : bool :=
  match s with
  | EmptyString => true
  | String c s' => test c && allChars test s'
  end.

Definition isDigit (c : ascii) : bool := Serializers.inRange 48 57 c.

(** The characters of the decimal text of an integer. *)
Definition isDecimalChar (c : ascii) : bool :=
  isDigit c || bool_decide (c = "-"%char).

End TextTerms.

Module FailureTerms.
Import JsString Js Platform Version Options Errors Transport Client WfsClient.

(** A service that answers every request with a bare HTTP failure. *)
Definition failingService : AxiosInstance :=
  fun _ _ =>
    AxiosResponse 503 (JObj [("content-type", JStr "text/plain")])
      (JStr "Service Unavailable").

Definition plainTextPlatform : Externals :=
  tablePlatform [("Service Unavailable", JObj [])].

End FailureTerms.

Module RequestTerms.
Import JsString Js Platform Version Options Errors CapabilitiesParser Transport.
Import Client WfsClient.

(** What the HTTP library receives when [sendOperation] is called with
    [params] in state [st]. *)
Definition handed (config : WfsClientConfig) (st : ClientState)
  (params : SendOperationParams) : AxiosRequestConfig :=
  axiosConfigOf (default ∅ (defaultHeaders config)) (requestMs config)
    (operationRequest config st params) (auth config).

(** The address the configuration pins an operation to. *)
Definition pinned (config : WfsClientConfig) (operation : WfsOperation)
  : option string :=
  endpoints config ≫= assoc (operationName operation).

(** The binding the cached capabilities hold for an operation. *)
Definition advertised (st : ClientState) (operation : WfsOperation)
  : option CapabilitiesOperationBinding :=
  capabilities st ≫= (fun c => assoc (operationName operation) (operations c)).

End RequestTerms.

Module CoordinateTerms.
Import JsString Js Gml.

(** [Number.isSafeInteger] *)
Definition isSafeInteger (n : number) : bool :=
  match n with
  | Int z => (Z.abs z <=? 9007199254740991)%Z
  | _ => false
  end.

(** A position of the given dimension whose coordinates are safe
    integers. *)
Definition safePosition (dimension : nat) (position : Position) : bool :=
  (length position =? dimension) && forallb isSafeInteger position.

(** A character that ends no run of [parseNumbers]. *)
Definition solid (c : ascii) : bool := negb (Helpers.isSeparator c).

(** A non-empty text without white space and commas. *)
Definition piece (x : string) : Prop :=
  x <> "" /\ TextTerms.allChars solid x = true.

End CoordinateTerms.

Module PrefixTerms.
Import JsString Js Errors Helpers.

(** The keys the parsers look up by their full name: the attributes and
    the text of an element. *)
Definition exactKey (k : string) : bool :=
  startsWith "@_" k || bool_decide (k = "#text").

(** Two keys that are the same, or two element names with the same
    local part. *)
Definition sameKey (k k' : string) : bool :=
  bool_decide (k = k')
  || (negb (exactKey k) && negb (exactKey k')
      && bool_decide (localName k = localName k')).

Definition sameNumber (a b : number) : bool :=
  match a, b with
  | Int x, Int y => (x =? y)%Z
  | NaN, NaN | PosInf, PosInf | NegInf, NegInf => true
  | _, _ => false
  end.

Fixpoint all2 {A B} (f : A -> B -> bool) (l : list A) (l' : list B) : bool :=
  match l, l' with
  | [], [] => true
  | x :: rest, y :: rest' => f x y && all2 f rest rest'
  | _, _ => false
  end.

(** Two trees that differ at most in the prefixes of their element
    names: the same shape, the same leaves, the same attributes. *)
Fixpoint sameTree (a b : JsValue) {struct a} : bool :=
  match a, b with
  | JUndefined, JUndefined | JNull, JNull => true
  | JBool x, JBool y => bool_decide (x = y)
  | JNum x, JNum y => sameNumber x y
  | JStr x, JStr y => bool_decide (x = y)
  | JArr items, JArr items' => all2 sameTree items items'
  | JObj fields, JObj fields' =>
      all2 (fun kv kv' =>
              match kv, kv' with
              | (k, v), (k', v') => sameKey k k' && sameTree v v'
              end) fields fields'
  | _, _ => false
  end.

(** A value without entries of its own. *)
Definition leaf (v : JsValue) : Prop :=
  match v with JArr _ | JObj _ => False | _ => True end.

Definition sameException (e e' : OwsException) : bool :=
  sameTree (exceptionCode e) (exceptionCode e')
  && sameTree (locator e) (locator e')
  && sameTree (text e) (text e').

(** A lock response as two servers write it. *)
Definition lockDocument : string :=
  "<wfs:LockFeatureResponse lockId='L1'><wfs:FeaturesLocked><fes:ResourceId rid='roads.1'/></wfs:FeaturesLocked></wfs:LockFeatureResponse>".

Definition lockTree : JsValue :=
  JObj [("wfs:LockFeatureResponse",
         JObj [("wfs:FeaturesLocked",
                JObj [("fes:ResourceId", JObj [("@_rid", JStr "roads.1")])]);
               ("@_lockId", JStr "L1")])].

Definition lockDocumentPlain : string :=
  "<LockFeatureResponse lockId='L1'><FeaturesLocked><ns1:ResourceId rid='roads.1'/></FeaturesLocked></LockFeatureResponse>".

Definition lockTreePlain : JsValue :=
  JObj [("LockFeatureResponse",
         JObj [("FeaturesLocked",
                JObj [("ns1:ResourceId", JObj [("@_rid", JStr "roads.1")])]);
               ("@_lockId", JStr "L1")])].

Definition lockPlatform : Platform.Externals :=
  Platform.tablePlatform [(lockDocument, lockTree); (lockDocumentPlain, lockTreePlain)].

End PrefixTerms.

Module PrefixSamples.
Import JsString Js Errors Helpers PrefixTerms.

(** An exception report and a capabilities document, each as two
    servers write it. *)
Definition reportDocument : string :=
  "<ows:ExceptionReport><ows:Exception exceptionCode='InvalidParameterValue' locator='typeNames'><ows:ExceptionText>Unknown type</ows:ExceptionText></ows:Exception></ows:ExceptionReport>".

Definition reportTree : JsValue :=
  JObj [("ows:ExceptionReport",
         JObj [("ows:Exception",
                JObj [("ows:ExceptionText", JStr "Unknown type");
                      ("@_exceptionCode", JStr "InvalidParameterValue");
                      ("@_locator", JStr "typeNames")])])].

Definition reportDocumentPlain : string :=
  "<ExceptionReport><Exception exceptionCode='InvalidParameterValue' locator='typeNames'><ExceptionText>Unknown type</ExceptionText></Exception></ExceptionReport>".

Definition reportTreePlain : JsValue :=
  JObj [("ExceptionReport",
         JObj [("Exception",
                JObj [("ExceptionText", JStr "Unknown type");
                      ("@_exceptionCode", JStr "InvalidParameterValue");
                      ("@_locator", JStr "typeNames")])])].

Definition capabilitiesDocument : string :=
  "<wfs:WFS_Capabilities version='2.0.0'><ows:ServiceIdentification><ows:Title>Roads</ows:Title></ows:ServiceIdentification><ows:OperationsMetadata><ows:Operation name='GetFeature'><ows:DCP><ows:HTTP><ows:Get xlink:href='https://example.com/get'/></ows:HTTP></ows:DCP></ows:Operation></ows:OperationsMetadata></wfs:WFS_Capabilities>".

Definition capabilitiesTree : JsValue :=
  JObj [("wfs:WFS_Capabilities",
         JObj [("ows:ServiceIdentification", JObj [("ows:Title", JStr "Roads")]);
               ("ows:OperationsMetadata",
                JObj [("ows:Operation",
                       JObj [("ows:DCP",
                              JObj [("ows:HTTP",
                                     JObj [("ows:Get",
                                            JObj [("@_xlink:href",
                                                   JStr "https://example.com/get")])])]);
                             ("@_name", JStr "GetFeature")])]);
               ("@_version", JStr "2.0.0")])].

Definition capabilitiesDocumentPlain : string :=
  "<WFS_Capabilities version='2.0.0'><ServiceIdentification><Title>Roads</Title></ServiceIdentification><OperationsMetadata><Operation name='GetFeature'><DCP><HTTP><Get xlink:href='https://example.com/get'/></HTTP></DCP></Operation></OperationsMetadata></WFS_Capabilities>".

Definition capabilitiesTreePlain : JsValue :=
  JObj [("WFS_Capabilities",
         JObj [("ServiceIdentification", JObj [("Title", JStr "Roads")]);
               ("OperationsMetadata",
                JObj [("Operation",
                       JObj [("DCP",
                              JObj [("HTTP",
                                     JObj [("Get",
                                            JObj [("@_xlink:href",
                                                   JStr "https://example.com/get")])])]);
                             ("@_name", JStr "GetFeature")])]);
               ("@_version", JStr "2.0.0")])].

Definition documentsPlatform : Platform.Externals :=
  Platform.tablePlatform
    [(reportDocument, reportTree); (reportDocumentPlain, reportTreePlain);
     (capabilitiesDocument, capabilitiesTree);
     (capabilitiesDocumentPlain, capabilitiesTreePlain)].

End PrefixSamples.

Module OverrideTerms.
Import JsString Js Xml.

(** [a] is what is left of [b] after some of its characters have been
    taken out. *)
Inductive embedded : string -> string -> Prop :=
| embedded_nil : embedded "" ""
| embedded_skip (c : ascii) (a b : string) : embedded a b -> embedded a (String c b)
| embedded_keep (c : ascii) (a b : string) :
    embedded a b -> embedded (String c a) (String c b).

(** An override that is placed before or after its target. *)
Definition inserting (override : XmlOverride) : bool :=
  match position override with
  | Some Replace => false
  | _ => true
  end.

End OverrideTerms.

Module FeatureXmlTerms.
Import JsString Js Xml Version Gml FeatureXml.

(** A character of a qualified name: a name character or the colon. *)
Definition isQNameChar (c : ascii) : bool :=
  Serializers.isNameChar c || bool_decide (c = ":"%char).

(** The properties of a feature that are written: those whose value is
    not [undefined]. *)
Definition written (options : FeatureToXmlOptions) : list (string * JsValue) :=
  List.filter (fun entry => negb (isUndefined (snd entry)))
    (default [] (properties (feature options))).

Definition sampleFeature : FeatureToXmlOptions :=
  {| ftxVersion := "2.0.0"; ftxTypeName := " topp:roads ";
     feature := {| featureId := JStr "roads.7";
                   geometry := Some (Point [Int 23; Int 37]);
                   properties := Some [("name", JStr "A & B"); ("lanes", JNull)] |};
     geometryPropertyName := Some "the_geom"; ftxSrsName := None |}.

End FeatureXmlTerms.

Module BoundsTerms.
Import JsString Js Gml Filter.

(** The positions [geometryBounds] records: those with at least two
    coordinates, in the order of the geometry. *)
Definition recorded (geometry : Geometry) : list Position :=
  match geometry with
  | Point c => collectPosition c
  | LineString c => collectPositions c
  | Polygon c => collectRings c
  | MultiPoint c => collectPositions c
  | MultiLineString c => collectRings c
  | MultiPolygon c => collectPolygons c
  | GeometryCollection _ => []
  end.

(** The first two coordinates of a position, when they are integers. *)
Definition planar (position : Position) : option (Z * Z) :=
  match position with
  | Int x :: Int y :: _ => Some (x, y)
  | _ => None
  end.

Definition isPlanar (position : Position) : bool :=
  match planar position with Some _ => true | None => false end.

(** The point lies in the box, edges included. *)
Definition inBox (box : Z * Z * Z * Z) (point : Z * Z) : Prop :=
  let '(minX, minY, maxX, maxY) := box in
  (minX <= fst point <= maxX /\ minY <= snd point <= maxY)%Z.

Definition intBox (box : Z * Z * Z * Z) : number * number * number * number :=
  let '(minX, minY, maxX, maxY) := box in (Int minX, Int minY, Int maxX, Int maxY).

End BoundsTerms.

Module CapabilitiesTerms.
Import JsString Js Xml Platform Version Options Errors Helpers.
Import Serializers CapabilitiesParser Transport Client WfsClient KvpBuilders.
Import CapabilitiesOperation.

Section Exchange.
Context `{Externals}.
Variable config : WfsClientConfig.

(** The XML body of a capabilities request: built for POST only. *)
Definition capabilitiesBody (options : GetCapabilitiesOptions) (version : WfsVersion)
  : Completion (option string) :=
  match default GET (gcRequestStyle options) with
  | POST => body <- buildGetCapabilitiesXml options
                      (createSerializerContext config version) ;;
            Normal (Some body)
  | GET => Normal None
  end.

(** What [getCapabilities] passes to [sendOperation]. *)
Definition capabilitiesParams (options : GetCapabilitiesOptions)
  (version : WfsVersion) (body : option string) : SendOperationParams :=
  {| spOperation := GetCapabilities; spVersion := version;
     spRequestStyle := default GET (gcRequestStyle options);
     spKvp := Some (buildCapabilitiesKvp options version);
     spXml := body;
     spRawHeaders := gcRaw options ≫= Options.headers |}.

End Exchange.

(** A service that answers every request with one capabilities
    document, and a client that negotiates its version. *)
Definition capabilitiesService : AxiosInstance :=
  fun _ _ =>
    AxiosResponse 200 (JObj [("content-type", JStr "application/xml")])
      (JStr PrefixSamples.capabilitiesDocument).

Definition autoConfig : WfsClientConfig :=
  {| baseUrl := "https://example.com/wfs"; axios := capabilitiesService;
     versionStrategy := Some "auto"; axisOrderStrategy := None;
     defaultHeaders := None; auth := None; namespaces := None;
     geoserverConfig := None; requestMs := None; endpoints := None |}.

Definition explicitRequest : GetCapabilitiesOptions :=
  {| gcVersion := Some "1.1.0"; gcRequestStyle := None; gcOutputFormat := None;
     gcRaw := None; acceptVersions := None |}.

End CapabilitiesTerms.

Module CapabilitiesSamples.
Import JsString Js Platform Version Options Errors.
Import CapabilitiesParser Transport Client WfsClient KvpBuilders.
Import ClientTerms RequestTerms CapabilitiesTerms.

(** The exchange of [explicitRequest] with [capabilitiesService]. *)
Definition sampleRequest : AxiosRequestConfig :=
  handed autoConfig freshClient (capabilitiesParams explicitRequest "1.1.0" None).

Definition sampleParsed : ParsedCapabilities :=
  parseCapabilities (H := PrefixSamples.documentsPlatform)
    (JStr PrefixSamples.capabilitiesDocument).

End CapabilitiesSamples.

Module MemberSrsTerms.
Import JsString Js Platform Options Errors Gml Helpers FeatureCollection.

(** A MultiPoint whose member declares its reference system itself. *)
Definition memberPoint : JsValue :=
  JObj [("gml:pos", JStr "40 20"); ("@_srsName", JStr "EPSG:4326")].

Definition memberSrsMultiPoint : JsValue :=
  JObj [("gml:pointMember", JObj [("gml:Point", memberPoint)])].

Definition memberSrsDocument : string :=
  "<wfs:FeatureCollection><wfs:member><topp:sites><topp:geom><gml:MultiPoint><gml:pointMember><gml:Point srsName='EPSG:4326'><gml:pos>40 20</gml:pos></gml:Point></gml:pointMember></gml:MultiPoint></topp:geom></topp:sites></wfs:member></wfs:FeatureCollection>".

Definition memberSrsTree : JsValue :=
  JObj [("wfs:FeatureCollection",
         JObj [("wfs:member",
                JObj [("topp:sites",
                       JObj [("topp:geom",
                              JObj [("gml:MultiPoint", memberSrsMultiPoint)])])])])].

End MemberSrsTerms.

Module NumericCodeTerms.
Import JsString Js Xml Platform Version Gml Filter Options Errors Helpers.
Import FeatureCollection Serializers Kvp OwsExceptionParser CapabilitiesParser Transport.
Import Client WfsClient.
Import ClientTerms.

(** An exception report that names the output format in its text and
    carries a numeric exception code: the tree parser is configured with
    [parseAttributeValue: true] and hands [exceptionCode='400'] over as
    a number. *)
Definition numericCodeDocument : string :=
  "<ows:ExceptionReport><ows:Exception exceptionCode='400' locator='outputFormat'><ows:ExceptionText>Unknown outputFormat</ows:ExceptionText></ows:Exception></ows:ExceptionReport>".

Definition numericCodeTree : JsValue :=
  JObj [("ows:ExceptionReport",
         JObj [("ows:Exception",
                JObj [("ows:ExceptionText", JStr "Unknown outputFormat");
                      ("@_exceptionCode", JNum (Int 400));
                      ("@_locator", JStr "outputFormat")])])].

Definition numericCodePlatform : Externals :=
  tablePlatform [(numericCodeDocument, numericCodeTree); (roadsDocument, roadsTree)].

(** A service that rejects every request naming an output format with
    that report, and answers the others with a GML collection. *)
Definition numericCodeService : AxiosInstance :=
  fun _ request =>
    match axParams request ≫= (fun params => params !! "outputFormat") with
    | Some _ => AxiosResponse 400 xmlHeaders (JStr numericCodeDocument)
    | None => AxiosResponse 200 xmlHeaders (JStr roadsDocument)
    end.

End NumericCodeTerms.

Module ReferenceTerms.
Import JsString Js Xml Platform Version Gml Filter Options Errors.
Import Serializers Client WfsClient KvpBuilders FeatureXml RequestSerializers.
Import TextTerms.

(** *** Qualified names *)

Definition isLetter (c : ascii) : bool :=
  let n := N_of_ascii c in
  (((65 <=? n) && (n <=? 90)) || ((97 <=? n) && (n <=? 122)))%N.

(** The first character of a name: a letter or an underscore. *)
Definition opensName (c : ascii) : bool := isLetter c || bool_decide (c = "_"%char).

(** The other characters of a name: letters, digits, underscores, dots
    and hyphens. *)
Definition continuesName (c : ascii) : bool :=
  opensName c || isDigit c || bool_decide (c = "."%char) || bool_decide (c = "-"%char).




(** *** The names a request refers to *)










(** *** The failure *)



End ReferenceTerms.

(** * Verification *)

(** ** Facts about the string primitives *)

Module JsStringFacts.
Import JsString.

Lemma app_nil (t : string) : "" +:+ t = t.
Proof. reflexivity. Qed.

Lemma app_cons (c : ascii) (s t : string) : String c s +:+ t = String c (s +:+ t).
Proof. reflexivity. Qed.

Ltac norm_app := rewrite ?app_cons, ?app_nil.

Lemma app_empty_r (s : string) : s +:+ "" = s.
Proof. induction s as [|c s IH]; norm_app; [done | by f_equal]. Qed.

Lemma app_assoc (a b c : string) : (a +:+ b) +:+ c = a +:+ b +:+ c.
Proof. induction a as [|x a IH]; norm_app; [done | by f_equal]. Qed.

Lemma length_app (a b : string) :
  String.length (a +:+ b) = String.length a + String.length b.
Proof. induction a as [|x a IH]; norm_app; simpl; [done | by f_equal]. Qed.

Lemma startsWith_app (p r : string) : startsWith p (p +:+ r) = true.
Proof.
  induction p as [|c p IH]; norm_app; simpl; [done |].
  rewrite bool_decide_eq_true_2 by done. exact IH.
Qed.

Lemma startsWith_spec (p s : string) :
  startsWith p s = true <-> exists r, s = p +:+ r.
Proof.
  revert s. induction p as [|c p IH]; intros s; simpl.
  - split; [intros _; by exists s | done].
  - destruct s as [|d s]; simpl.
    + split; [done | intros [r Hr]; discriminate].
    + rewrite andb_true_iff, bool_decide_eq_true, IH. split.
      * intros [-> [r ->]]. by exists r.
      * intros [r Hr]. rewrite app_cons in Hr. injection Hr as -> ->.
        split; [done | by exists r].
Qed.

Lemma indexOf_unfold (p s : string) :
  indexOf p s =
    if startsWith p s then Some 0
    else match s with
         | EmptyString => None
         | String _ s' => S <$> indexOf p s'
         end.
Proof. by destruct s. Qed.

Lemma indexOf_prefix (p r : string) : indexOf p (p +:+ r) = Some 0.
Proof. by rewrite indexOf_unfold, startsWith_app. Qed.

Lemma indexOf_occurrence (pre p post : string) :
  is_Some (indexOf p (pre +:+ p +:+ post)).
Proof.
  induction pre as [|c pre IH]; norm_app.
  - rewrite indexOf_prefix. eauto.
  - rewrite indexOf_unfold. destruct (startsWith p _); [eauto |].
    destruct IH as [i ->]. simpl. eauto.
Qed.

(** [indexOf] answers [-1] exactly when the pattern is not a substring. *)
Lemma indexOf_None (p s : string) :
  indexOf p s = None <-> ~ exists pre post, s = pre +:+ p +:+ post.
Proof.
  split.
  - intros HN (pre & post & ->).
    destruct (indexOf_occurrence pre p post) as [i Hi]. congruence.
  - induction s as [|c s IH]; intros Hno; rewrite indexOf_unfold.
    + destruct (startsWith p "") eqn:E; [| done].
      exfalso. apply Hno. apply startsWith_spec in E as [r Hr]. by exists "", r.
    + destruct (startsWith p (String c s)) eqn:E.
      * exfalso. apply Hno. apply startsWith_spec in E as [r Hr]. by exists "", r.
      * rewrite IH; [done |]. intros (pre & post & ->).
        apply Hno. by exists (String c pre), post.
Qed.

(** The first occurrence of a character that the text before it avoids. *)
Lemma indexOf_char (c : ascii) (body rest : string) :
  ~ occurs c body ->
  indexOf (String c "") (body +:+ String c rest) = Some (String.length body).
Proof.
  induction body as [|a body IH]; intros Hno; norm_app.
  - rewrite indexOf_unfold. simpl. by rewrite bool_decide_eq_true_2.
  - rewrite indexOf_unfold. simpl in *.
    rewrite bool_decide_eq_false_2 by (intros ->; tauto). simpl.
    rewrite IH by tauto. done.
Qed.

Lemma occurs_app (c : ascii) (a b : string) :
  occurs c (a +:+ b) <-> occurs c a \/ occurs c b.
Proof.
  induction a as [|x a IH]; norm_app; simpl; [tauto |]. rewrite IH. tauto.
Qed.

Lemma sdrop_length (s : string) : sdrop (String.length s) s = "".
Proof. induction s; simpl; done. Qed.

Lemma stake_length (s : string) : stake (String.length s) s = s.
Proof. induction s; simpl; [done | by f_equal]. Qed.

Lemma trimEnd_snoc (s : string) (c : ascii) :
  isWhiteSpace c = false ->
  trimEnd (s +:+ String c "") = s +:+ String c "".
Proof.
  intros Hc. induction s as [|a s IH]; norm_app; simpl.
  - by rewrite Hc.
  - rewrite IH. destruct s; norm_app; done.
Qed.

Lemma concat_cons (x : string) (l : list string) :
  JsString.concat (x :: l) = x +:+ JsString.concat l.
Proof. reflexivity. Qed.

Lemma endsWith_app (pre suf : string) : endsWith suf (pre +:+ suf) = true.
Proof.
  induction pre as [|a pre IH]; norm_app.
  - destruct suf; simpl; rewrite ?bool_decide_eq_true_2 by done; done.
  - simpl. rewrite IH. apply orb_true_r.
Qed.
End JsStringFacts.

(** ** The raw XML override pass *)

Module XmlFacts.
Import JsString Js Xml JsStringFacts.

Lemma applyXmlOverride_not_found (doc : string) (ov : XmlOverride) :
  indexOf ("<" +:+ target ov) doc = None -> applyXmlOverride doc ov = doc.
Proof. intros H. unfold applyXmlOverride. by rewrite H. Qed.

Lemma applyXmlOverride_self_closing_root (name attrs : string) (ov : XmlOverride) :
  target ov = name ->
  ~ occurs ">" (name +:+ attrs) ->
  let doc := "<" +:+ name +:+ attrs +:+ "/>" in
  applyXmlOverride doc ov =
    match default After (position ov) with
    | Before => xml ov +:+ doc
    | Replace => xml ov
    | After => doc +:+ xml ov
    end.
Proof.
  intros Ht Hno doc.
  set (body := "<" +:+ name +:+ attrs +:+ "/").
  assert (doc = body +:+ String ">" "") as Hdoc.
  { unfold doc, body. rewrite !app_cons, !app_nil. f_equal.
    rewrite <- !app_assoc. rewrite (app_assoc _ "/" ">"). done. }
  assert (~ occurs ">" body) as Hbody.
  { unfold body. rewrite app_cons, app_nil. simpl.
    rewrite <- app_assoc, occurs_app. simpl. intros [H|[H|[H|[]]]]; try done.
    all: by apply Hno. }
  assert (String.length doc = String.length body + 1) as Hlen.
  { rewrite Hdoc, length_app. done. }
  assert (indexOf ("<" +:+ name) doc = Some 0) as Hopen.
  { unfold doc. rewrite <- (app_assoc "<" name). apply indexOf_prefix. }
  assert (endsWith "/>" doc = true) as Hends.
  { unfold doc. rewrite <- !app_assoc. apply endsWith_app. }
  clearbody doc body.
  unfold applyXmlOverride. rewrite Ht, Hopen.
  assert (indexOfFrom ">" doc 0 = Some (String.length body)) as ->.
  { unfold indexOfFrom. simpl. rewrite Hdoc, indexOf_char by done. done. }
  assert (slice doc 0 (String.length body + 1) = doc) as ->.
  { unfold slice. rewrite Nat.sub_0_r, <- Hlen. simpl. apply stake_length. }
  assert (trimEnd doc = doc) as ->.
  { rewrite Hdoc. by apply trimEnd_snoc. }
  rewrite Hends.
  unfold sliceFrom, slice. rewrite <- Hlen, sdrop_length. simpl.
  destruct (position ov) as [[]|]; simpl; norm_app;
    rewrite ?Nat.sub_0_r, ?stake_length, ?app_empty_r; done.
Qed.

End XmlFacts.

(** ** Escaping *)

Module EscapeFacts.
Import JsString Js Xml JsStringFacts.

Lemma replaceAllChar_removes (c : ascii) (rep s : string) :
  ~ occurs c rep -> ~ occurs c (replaceAllChar c rep s).
Proof.
  intros Hrep. induction s as [|a s IH]; simpl; [tauto |].
  rewrite occurs_app. intros [Hh|Ht]; [| tauto].
  case_bool_decide; simpl in Hh; [tauto |]. destruct Hh as [Hh|[]]. done.
Qed.

Lemma replaceAllChar_keeps_out (c d : ascii) (rep s : string) :
  ~ occurs c rep -> ~ occurs c s -> ~ occurs c (replaceAllChar d rep s).
Proof.
  intros Hrep. induction s as [|a s IH]; simpl; [tauto |].
  rewrite occurs_app. intros Hs [Hh|Ht]; [| tauto].
  case_bool_decide; simpl in Hh; tauto.
Qed.

Ltac no_char_in_literal :=
  let H := fresh in
  simpl; intros H; repeat (destruct H as [H|H]; [discriminate |]); exact H.

(** Closes a goal from an occurrence of a character in a text put
    together from literals without it and texts known to avoid it. *)
Ltac occurs_cases :=
  simpl in *;
  repeat match goal with
         | H : _ \/ _ |- _ => destruct H as [H|H]
         | H : False |- _ => destruct H
         end;
  first [done | discriminate].

Lemma escapeXmlString_no_lt (s : string) : ~ occurs "<" (escapeXmlString s).
Proof.
  unfold escapeXmlString.
  do 3 (apply replaceAllChar_keeps_out; [no_char_in_literal |]).
  apply replaceAllChar_removes. no_char_in_literal.
Qed.

Lemma escapeXmlString_no_gt (s : string) : ~ occurs ">" (escapeXmlString s).
Proof.
  unfold escapeXmlString.
  do 2 (apply replaceAllChar_keeps_out; [no_char_in_literal |]).
  apply replaceAllChar_removes. no_char_in_literal.
Qed.

Lemma escapeXmlString_no_dquote (s : string) : ~ occurs "034" (escapeXmlString s).
Proof.
  unfold escapeXmlString.
  do 1 (apply replaceAllChar_keeps_out; [no_char_in_literal |]).
  apply replaceAllChar_removes. no_char_in_literal.
Qed.

Lemma escapeXml_string (s : string) : escapeXml (JStr s) = escapeXmlString s.
Proof. reflexivity. Qed.

End EscapeFacts.

(** ** The serializers' root element *)

Module SerializerFacts.
Import JsString Js Xml Platform Version Gml Filter Options Errors Serializers.
Import JsStringFacts XmlFacts EscapeFacts SerializerTerms.

Lemma occurs_concat_map {A} (c : ascii) (f : A -> string) (l : list A) :
  Forall (fun x => ~ occurs c (f x)) l -> ~ occurs c (JsString.concat (map f l)).
Proof.
  induction 1 as [|x l Hx Hl IH]; [simpl; tauto |].
  rewrite map_cons, concat_cons, occurs_app. tauto.
Qed.

Lemma cleanKeys_setNamespace (prefix uri : string) (namespaces : Namespaces) :
  ~ occurs ">" prefix -> cleanKeys namespaces ->
  cleanKeys (setNamespace prefix uri namespaces).
Proof.
  intros Hp. induction namespaces as [|[k u] rest IH]; intros Hns; simpl.
  - case_bool_decide; [done |]. by repeat constructor.
  - case_bool_decide as Hproto; [done |].
    apply Forall_cons in Hns as [Hk Hrest].
    case_bool_decide; [by constructor |]. constructor; [done |].
    specialize (IH Hrest). revert IH.
    destruct rest; simpl; by rewrite (bool_decide_eq_false_2 _ Hproto).
Qed.

Lemma cleanKeys_defaults (version : WfsVersion) :
  cleanKeys (defaultNamespacesForVersion version).
Proof.
  unfold defaultNamespacesForVersion.
  destruct (is110 version); repeat constructor; no_char_in_literal.
Qed.

Lemma cleanKeys_merged (ctx : SerializerContext) :
  cleanKeys (default [] (ctxNamespaces ctx)) -> cleanKeys (mergedNamespaces ctx).
Proof.
  unfold mergedNamespaces.
  pose proof (cleanKeys_defaults (ctxVersion ctx)) as Hstart. revert Hstart.
  generalize (defaultNamespacesForVersion (ctxVersion ctx)).
  induction (default [] (ctxNamespaces ctx)) as [|[k u] entries IH];
    intros acc Hacc Hentries; simpl; [done |].
  apply Forall_cons in Hentries as [Hk Hrest].
  apply IH; [| done].
  case_bool_decide; [done | by apply cleanKeys_setNamespace].
Qed.

Lemma cleanKeys_filter (keep : string * string -> bool) (l : Namespaces) :
  cleanKeys l -> cleanKeys (List.filter keep l).
Proof.
  induction 1 as [|e l He Hl IH]; simpl; [constructor |].
  destruct (keep e); [by constructor | done].
Qed.

Section Root.
Context `{Externals}.

Lemma cleanKeys_insertSorted (e : string * string) (l : Namespaces) :
  ~ occurs ">" (fst e) -> cleanKeys l -> cleanKeys (insertSorted e l).
Proof.
  intros He. induction 1 as [|x l Hx Hl IH]; simpl; [by repeat constructor |].
  destruct (localeLeb (fst e) (fst x)); repeat constructor; done.
Qed.

Lemma cleanKeys_sortByPrefix (l : Namespaces) :
  cleanKeys l -> cleanKeys (sortByPrefix l).
Proof.
  induction 1 as [|e l He Hl IH]; simpl; [constructor |].
  by apply cleanKeys_insertSorted.
Qed.

(** The namespace declarations of a root element hold no [>] when no
    prefix does: the URIs are escaped. *)
Lemma rootXmlns_no_gt (namespaces : Namespaces) :
  cleanKeys namespaces -> ~ occurs ">" (rootXmlns namespaces).
Proof.
  intros Hns. unfold rootXmlns. apply occurs_concat_map.
  assert (forall l, cleanKeys l ->
            Forall (fun e : string * string =>
                      ~ occurs ">" (" xmlns:" +:+ fst e +:+ "=" +:+ dquote
                                      +:+ escapeXml (JStr (snd e)) +:+ dquote)) l)
    as Hrender.
  { intros l Hl. eapply Forall_impl; [exact Hl |]. intros [p u] Hp. simpl in *.
    rewrite !occurs_app. unfold dquote.
    pose proof (escapeXmlString_no_gt u) as Hu. rewrite escapeXml_string.
    intros Hin. occurs_cases. }
  apply Hrender, Forall_app. split.
  - unfold ROOT_PREFIX_ORDER. simpl.
    repeat (destruct (assoc _ namespaces) as [?|]; [case_bool_decide |]; simpl);
      repeat constructor; no_char_in_literal.
  - by apply cleanKeys_sortByPrefix, cleanKeys_filter, cleanKeys_filter.
Qed.

(** [buildListStoredQueriesXml] with one [replace] override aimed at its
    root element. *)
Lemma buildListStoredQueriesXml_replace_root (ctx : SerializerContext)
  (ovxml : string) :
  cleanKeys (default [] (ctxNamespaces ctx)) ->
  ~ occurs ">" (ctxVersion ctx) ->
  buildListStoredQueriesXml (Some (replaceRoot "wfs:ListStoredQueries" ovxml)) ctx
  = Normal ovxml.
Proof.
  intros Hkeys Hversion. unfold buildListStoredQueriesXml, resolveRootNamespaces.
  cbn [firstMissing find bindC]. f_equal.
  pose proof (rootXmlns_no_gt _ (cleanKeys_merged ctx Hkeys)) as Hroot.
  set (ns := rootXmlns (mergedNamespaces ctx)) in *.
  set (attrs := ns +:+ " service=" +:+ dquote +:+ "WFS" +:+ dquote +:+ " version="
                  +:+ dquote +:+ ctxVersion ctx +:+ dquote).
  assert (~ occurs ">" ("wfs:ListStoredQueries" +:+ attrs)) as Hattrs.
  { unfold attrs, dquote. rewrite !occurs_app. intros Hin. occurs_cases. }
  pose proof (applyXmlOverride_self_closing_root "wfs:ListStoredQueries" attrs
                (mkXmlOverride "wfs:ListStoredQueries" (Some Replace) ovxml)
                eq_refl Hattrs) as Hsplice.
  cbv zeta in Hsplice. cbn [position default xml] in Hsplice.
  rewrite <- Hsplice at 2. unfold applyXmlOverrides, replaceRoot.
  cbn [xmlOverrides mbind option_bind fold_left]. f_equal.
  unfold attrs. rewrite <- !app_assoc. norm_app. reflexivity.
Qed.

(** A [replace] override aimed at a self-closing root element that is
    the whole document leaves exactly the override XML, and so does the
    ListStoredQueries serializer, whose output is such a document;
    overrides for whose targets the text made of [<] and the target
    occurs nowhere in the document leave the document as it is. *)
Theorem applyXmlOverrides_replace_root_and_missing_target :
  (forall (name attrs ovxml : string),
      ~ occurs ">" (name +:+ attrs) ->
      applyXmlOverrides ("<" +:+ name +:+ attrs +:+ "/>")
        (Some [mkXmlOverride name (Some Replace) ovxml]) = ovxml)
  /\ (forall (ctx : SerializerContext) (ovxml : string),
         cleanKeys (default [] (ctxNamespaces ctx)) ->
         ~ occurs ">" (ctxVersion ctx) ->
         buildListStoredQueriesXml (Some (replaceRoot "wfs:ListStoredQueries" ovxml)) ctx
         = Normal ovxml)
  /\ (forall (doc : string) (overrides : list XmlOverride),
         Forall (fun ov => ~ exists pre post, doc = pre +:+ ("<" +:+ target ov) +:+ post)
           overrides ->
         applyXmlOverrides doc (Some overrides) = doc).
Proof.
  split; [| split].
  - intros name attrs ovxml Hno. unfold applyXmlOverrides. simpl.
    rewrite applyXmlOverride_self_closing_root with (name := name) (attrs := attrs);
      done.
  - apply buildListStoredQueriesXml_replace_root.
  - intros doc overrides Hall. unfold applyXmlOverrides.
    destruct overrides as [|o rest]; [done |].
    induction Hall as [|ov l Hov Hl IH]; [done |].
    simpl. rewrite applyXmlOverride_not_found by (by apply indexOf_None).
    exact IH.
Qed.

End Root.

Lemma applyXmlOverrides_replace_root_and_missing_target_witness :
  applyXmlOverrides "<wfs:ListStoredQueries service='WFS'/>"
    (Some [mkXmlOverride "wfs:ListStoredQueries" (Some Replace) "<custom:List/>"])
  = "<custom:List/>"
  /\ buildListStoredQueriesXml (H := tablePlatform [])
       (Some (replaceRoot "wfs:ListStoredQueries" "<custom:List/>"))
       (mkSerializerContext V2_0_2 (Some [("topp", "http://example.com/topp")]))
     = Normal "<custom:List/>"
  /\ applyXmlOverrides "<wfs:GetFeature></wfs:GetFeature>"
       (Some [mkXmlOverride "wfs:Query" (Some After) "<!--custom-->"])
     = "<wfs:GetFeature></wfs:GetFeature>".
Proof.
  destruct (@applyXmlOverrides_replace_root_and_missing_target (tablePlatform []))
    as (Hroot & Hserializer & Hmissing).
  split; [| split].
  - apply (Hroot "wfs:ListStoredQueries" " service='WFS'" "<custom:List/>").
    no_char_in_literal.
  - apply Hserializer.
    + repeat constructor. no_char_in_literal.
    + no_char_in_literal.
  - apply (Hmissing "<wfs:GetFeature></wfs:GetFeature>").
    repeat constructor. apply indexOf_None. vm_compute. reflexivity.
Defined.

End SerializerFacts.

(** ** The filter compiler *)

Module FilterFacts.
Import JsString Js Xml Platform Version Gml Filter Markup JsStringFacts EscapeFacts.
Import FilterTerms TextTerms.

Lemma tagNames_skip (a b : string) :
  ~ occurs "<" a -> tagNames (a +:+ b) = tagNames b.
Proof.
  induction a as [|c a IH]; norm_app; [done |]. simpl. intros Hno.
  rewrite bool_decide_eq_false_2 by (intros ->; tauto). apply IH. tauto.
Qed.

Lemma tagNames_featureIdElement (id rest : string) :
  tagNames (featureIdElement id +:+ rest) = "ogc:FeatureId" :: tagNames rest.
Proof.
  unfold featureIdElement, dquote. rewrite !app_assoc. norm_app. simpl.
  f_equal. rewrite tagNames_skip by apply escapeXmlString_no_lt.
  norm_app. done.
Qed.

Lemma tagNames_resourceIdElement (id rest : string) :
  tagNames (resourceIdElement id +:+ rest) = "fes:ResourceId" :: tagNames rest.
Proof.
  unfold resourceIdElement, dquote. rewrite !app_assoc. norm_app. simpl.
  f_equal. rewrite tagNames_skip by apply escapeXmlString_no_lt.
  norm_app. done.
Qed.

Lemma tagNames_featureIds (ids : list string) (rest : string) :
  tagNames (JsString.concat (map featureIdElement ids) +:+ rest)
  = repeat "ogc:FeatureId" (length ids) ++ tagNames rest.
Proof.
  induction ids as [|id ids IH]; [done |].
  rewrite map_cons, concat_cons, app_assoc, tagNames_featureIdElement, IH. done.
Qed.

Lemma tagNames_resourceIds (ids : list string) (rest : string) :
  tagNames (JsString.concat (map resourceIdElement ids) +:+ rest)
  = repeat "fes:ResourceId" (length ids) ++ tagNames rest.
Proof.
  induction ids as [|id ids IH]; [done |].
  rewrite map_cons, concat_cons, app_assoc, tagNames_resourceIdElement, IH. done.
Qed.

Lemma compileIdFilter_110 (ids : list string) :
  compileIdFilter ids V1_1_0 = JsString.concat (map featureIdElement ids).
Proof. reflexivity. Qed.

Lemma compileIdFilter_20x (ids : list string) (v : WfsVersion) :
  is110 v = false ->
  compileIdFilter ids v = JsString.concat (map resourceIdElement ids).
Proof. intros Hv. unfold compileIdFilter. by rewrite Hv. Qed.

Section IdFilters.
Context `{Externals}.

Lemma compileFilterXml_wrapper (f : WfsFilter) (o : CompileFilterOptions) :
  compileFilterXml f o
  = filterOpen (version o) (includeNamespaceDeclarations o)
      +:+ compileFilterBody f o +:+ "</" +:+ filterPrefix (version o) +:+ ":Filter>".
Proof. unfold compileFilterXml, filterOpen. by rewrite !app_assoc. Qed.

Lemma tagNames_filterOpen (v : WfsVersion) (ns : option bool) (rest : string) :
  tagNames (filterOpen v ns +:+ rest)
  = (filterPrefix v +:+ ":Filter") :: tagNames rest.
Proof.
  unfold filterOpen, filterNamespaceAttrs, filterPrefix, dquote.
  destruct (is110 v), ns as [[]|]; simpl default; cbv iota;
    rewrite ?app_assoc; norm_app; reflexivity.
Qed.

(** C3.  An id filter compiles, in the order of its identifiers, to one
    [ogc:FeatureId] element with a [fid] attribute per identifier under
    1.1.0 and to one [fes:ResourceId] element with a [rid] attribute per
    identifier under 2.0.2 and 2.0.0; the elements of the other dialect
    do not occur. *)
Theorem compileFilterXml_id_by_dialect (ids : list string) (srs : option string)
  (ns : option bool) :
  (compileFilterXml (Id ids) (mkCompileFilterOptions V1_1_0 srs ns)
   = filterOpen V1_1_0 ns +:+ JsString.concat (map featureIdElement ids)
       +:+ "</ogc:Filter>"
   /\ tagNames (compileFilterXml (Id ids) (mkCompileFilterOptions V1_1_0 srs ns))
      = "ogc:Filter" :: repeat "ogc:FeatureId" (length ids) ++ ["/ogc:Filter"])
  /\ (compileFilterXml (Id ids) (mkCompileFilterOptions V2_0_2 srs ns)
      = filterOpen V2_0_2 ns +:+ JsString.concat (map resourceIdElement ids)
          +:+ "</fes:Filter>"
      /\ tagNames (compileFilterXml (Id ids) (mkCompileFilterOptions V2_0_2 srs ns))
         = "fes:Filter" :: repeat "fes:ResourceId" (length ids) ++ ["/fes:Filter"])
  /\ (compileFilterXml (Id ids) (mkCompileFilterOptions V2_0_0 srs ns)
      = filterOpen V2_0_0 ns +:+ JsString.concat (map resourceIdElement ids)
          +:+ "</fes:Filter>"
      /\ tagNames (compileFilterXml (Id ids) (mkCompileFilterOptions V2_0_0 srs ns))
         = "fes:Filter" :: repeat "fes:ResourceId" (length ids) ++ ["/fes:Filter"])
  /\ includes ("<ogc:FeatureId fid=" +:+ dquote +:+ "roads.1" +:+ dquote +:+ "/>")
       (compileFilterXml (Id ["roads.1"]) (mkCompileFilterOptions V1_1_0 None None))
     = true
  /\ includes ("<fes:ResourceId rid=" +:+ dquote +:+ "roads.1" +:+ dquote +:+ "/>")
       (compileFilterXml (Id ["roads.1"]) (mkCompileFilterOptions V2_0_2 None None))
     = true.
Proof.
  repeat split.
  - by rewrite compileFilterXml_wrapper.
  - rewrite compileFilterXml_wrapper.
    cbn [compileFilterBody version includeNamespaceDeclarations].
    rewrite tagNames_filterOpen, compileIdFilter_110, tagNames_featureIds. done.
  - by rewrite compileFilterXml_wrapper.
  - rewrite compileFilterXml_wrapper.
    cbn [compileFilterBody version includeNamespaceDeclarations].
    rewrite tagNames_filterOpen, compileIdFilter_20x, tagNames_resourceIds; done.
  - by rewrite compileFilterXml_wrapper.
  - rewrite compileFilterXml_wrapper.
    cbn [compileFilterBody version includeNamespaceDeclarations].
    rewrite tagNames_filterOpen, compileIdFilter_20x, tagNames_resourceIds; done.
Qed.

End IdFilters.

Section OperatorTable.
Context `{Externals}.




End OperatorTable.









Section Operators.
Context `{Externals}.









End Operators.


End FilterFacts.

(** ** The GetFeature KVP builder *)

Module KvpFacts.
Import JsString Js Xml Platform Version Gml Filter Options Kvp.
Import KvpTerms.

Lemma lookup_assign (params source : gmap string string) (k : string) :
  assign params source !! k
  = match source !! k with Some v => Some v | None => params !! k end.
Proof.
  unfold assign. rewrite lookup_union.
  destruct (source !! k), (params !! k); done.
Qed.

Lemma lookup_setOpt_ne (k k' : string) (o : option string)
  (params : gmap string string) :
  k <> k' -> setOpt k' o params !! k = params !! k.
Proof.
  intros Hne. destruct o; simpl; [| done]. by rewrite lookup_insert_ne.
Qed.

Lemma lookup_applyGeoServerParams (params : gmap string string)
  (g : option GeoServerOptions) (k : string) :
  k <> "cql_filter" -> k <> "viewParams" -> k <> "format_options" ->
  (g ≫= vendorParams) ≫= (fun m => m !! k) = None ->
  applyGeoServerParams params g !! k = params !! k.
Proof.
  intros H1 H2 H3 Hv. destruct g as [g|]; simpl in *; [| done].
  destruct (vendorParams g) as [vp|]; simpl in *.
  - rewrite lookup_assign, Hv. by rewrite !lookup_setOpt_ne.
  - by rewrite !lookup_setOpt_ne.
Qed.

Section Lookups.
Context `{Externals}.

(** What [buildGetFeatureKvp] binds a protocol key to when the caller's
    free-form parameters leave that key alone. *)
Lemma buildGetFeatureKvp_lookup (options : GetFeatureOptions) (v : WfsVersion)
  (k : string) :
  k ∈ ["typeName"; "typeNames"; "count"; "maxFeatures"] ->
  notOverridden options k ->
  buildGetFeatureKvp options v !! k
  = if bool_decide (k = (if is110 v then "typeName" else "typeNames"))
    then Some (join "," (typeNames options))
    else if bool_decide (k = (if is110 v then "maxFeatures" else "count"))
         then numberToString <$> count options
         else None.
Proof.
  intros Hk [Hraw Hvendor]. unfold buildGetFeatureKvp. cbv zeta.
  rewrite lookup_assign.
  assert (default ∅ (raw options ≫= kvp) !! k = None) as ->.
  { destruct (raw options ≫= kvp); simpl in *; [done | apply lookup_empty]. }
  assert (k <> "cql_filter" /\ k <> "viewParams" /\ k <> "format_options"
          /\ k <> "resolveTimeout" /\ k <> "resolveDepth" /\ k <> "resolve"
          /\ k <> "bbox" /\ k <> "filter" /\ k <> "resultType"
          /\ k <> "startIndex" /\ k <> "propertyName" /\ k <> "srsName"
          /\ k <> "outputFormat" /\ k <> "request" /\ k <> "version"
          /\ k <> "service") as Hne.
  { set_unfold. destruct Hk as [->|[->|[->|[->|[]]]]]; repeat split; done. }
  destruct Hne as (? & ? & ? & ? & ? & ? & ? & ? & ? & ? & ? & ? & ? & ? & ? & ?).
  rewrite lookup_applyGeoServerParams by done.
  set_unfold.
  destruct Hk as [->|[->|[->|[->|[]]]]];
    destruct (is110 v), (bbox options) as [[[[a b] c] d]|], (count options) as [c0|],
      (propertyNames options) as [[|p ps]|];
    cbv iota;
    repeat first [ rewrite lookup_setOpt_ne by done
                 | rewrite lookup_insert_eq
                 | rewrite lookup_insert_ne by done ];
    rewrite ?lookup_empty; reflexivity.
Qed.

Lemma buildGetFeatureKvp_outputFormat (options : GetFeatureOptions) (v : WfsVersion) :
  notOverridden options "outputFormat" ->
  buildGetFeatureKvp options v !! "outputFormat" = nonEmpty (outputFormat options).
Proof.
  intros [Hraw Hvendor]. unfold buildGetFeatureKvp. cbv zeta.
  rewrite lookup_assign.
  assert (default ∅ (Options.raw options ≫= kvp) !! "outputFormat" = None) as ->.
  { destruct (Options.raw options ≫= kvp); simpl in *; [done | apply lookup_empty]. }
  rewrite lookup_applyGeoServerParams by done.
  destruct (is110 v), (bbox options) as [[[[a b] c] d]|], (count options) as [c0|],
    (propertyNames options) as [[|p ps]|], (nonEmpty (outputFormat options)) as [f|];
    cbv iota;
    repeat first [ rewrite lookup_setOpt_ne by done
                 | rewrite lookup_insert_ne by done ];
    simpl; rewrite ?lookup_insert_eq;
    repeat first [ rewrite lookup_insert_ne by done ];
    rewrite ?lookup_empty; reflexivity.
Qed.

(** C4, as amended.  When the caller's free-form parameters ([raw.kvp]
    and [geoserver.vendorParams]) bind none of the four protocol keys,
    the type names are keyed under [typeName] and a numeric count under
    [maxFeatures] for 1.1.0, with no [typeNames] and no [count]; for
    2.0.2 and 2.0.0 the type names are keyed under [typeNames] and the
    count under [count], with no [typeName] and no [maxFeatures]. *)
Theorem buildGetFeatureKvp_version_keys (options : GetFeatureOptions) :
  (forall k, k ∈ ["typeName"; "typeNames"; "count"; "maxFeatures"] ->
             notOverridden options k) ->
  (buildGetFeatureKvp options V1_1_0 !! "typeName"
     = Some (join "," (typeNames options))
   /\ buildGetFeatureKvp options V1_1_0 !! "typeNames" = None
   /\ buildGetFeatureKvp options V1_1_0 !! "count" = None
   /\ buildGetFeatureKvp options V1_1_0 !! "maxFeatures"
      = numberToString <$> count options)
  /\ (forall v, v = V2_0_2 \/ v = V2_0_0 ->
       buildGetFeatureKvp options v !! "typeNames"
         = Some (join "," (typeNames options))
       /\ buildGetFeatureKvp options v !! "typeName" = None
       /\ buildGetFeatureKvp options v !! "maxFeatures" = None
       /\ buildGetFeatureKvp options v !! "count"
          = numberToString <$> count options).
Proof.
  intros Hfree. split.
  - repeat split; rewrite buildGetFeatureKvp_lookup;
      try (apply Hfree); try set_solver; reflexivity.
  - intros v [-> | ->]; repeat split; rewrite buildGetFeatureKvp_lookup;
      try (apply Hfree); try set_solver; reflexivity.
Qed.

End Lookups.

Lemma buildGetFeatureKvp_version_keys_witness :
  buildGetFeatureKvp (H := tablePlatform [])
    (plainOptions ["topp:roads"; "infra:bridges"] (Some (Int 5)) None) V1_1_0
    !! "maxFeatures" = Some "5"
  /\ buildGetFeatureKvp (H := tablePlatform [])
       (plainOptions ["topp:roads"; "infra:bridges"] (Some (Int 5)) None) V2_0_2
       !! "typeNames" = Some "topp:roads,infra:bridges".
Proof.
  pose proof (@buildGetFeatureKvp_version_keys (tablePlatform [])
                (plainOptions ["topp:roads"; "infra:bridges"] (Some (Int 5)) None))
    as Hkeys.
  destruct Hkeys as [H110 H20x].
  - intros k _. split; reflexivity.
  - split.
    + apply H110.
    + apply (H20x V2_0_2). by left.
Defined.

(** C4 as stated fails: a [count] entry of [raw.kvp] is emitted under
    1.1.0 as well. *)
Lemma buildGetFeatureKvp_raw_count_emitted_110 :
  buildGetFeatureKvp (H := tablePlatform [])
    (plainOptions ["topp:roads"] None (Some {[ "count" := "5" ]})) V1_1_0
    !! "count" = Some "5".
Proof. vm_compute. reflexivity. Qed.

End KvpFacts.

(** ** Axis order *)

Module AxisOrderFacts.
Import JsString Js Platform Options Errors Gml Helpers FeatureCollection.
Import AxisOrderTerms.

Lemma maybeSwap_preserve {A} (coords : list A) (srsName : option string) :
  maybeSwap coords Preserve srsName = coords.
Proof. unfold maybeSwap. by rewrite orb_true_r. Qed.

Lemma maybeSwap_forceLonLat {A} (a b : A) (rest : list A) (srsName : option string) :
  maybeSwap (a :: b :: rest) ForceLonLat srsName
  = if names4326 srsName then b :: a :: rest else a :: b :: rest.
Proof.
  unfold maybeSwap, names4326. simpl.
  match goal with |- context [includes ?p ?t] => destruct (includes p t) end;
    reflexivity.
Qed.

Lemma maybeSwap_short {A} (coords : list A) (strategy : AxisOrderStrategy)
  (srsName : option string) :
  length coords < 2 -> maybeSwap coords strategy srsName = coords.
Proof.
  intros Hlen. unfold maybeSwap.
  destruct (Nat.ltb_spec (length coords) 2); [done | lia].
Qed.

Lemma parsePoint_forceLonLat (value : JsValue) (srsName : option string)
  (coords : list number) :
  parsePoint value Preserve (optStr srsName) = Normal (Some (Point coords)) ->
  parsePoint value ForceLonLat (optStr srsName)
  = Normal (Some (Point (if names4326 srsName then swapFirstTwo coords else coords))).
Proof.
  unfold parsePoint.
  destruct (nonEmpty _) as [text|]; [| discriminate].
  destruct (length (parseNumbers text) <? 2) eqn:Hlen; [discriminate |].
  unfold maybeSwapDynamic. rewrite Hlen. simpl.
  intros [= <-].
  destruct srsName as [s|]; simpl; unfold maybeSwap, names4326;
    rewrite Hlen; simpl.
  - by destruct (includes "4326" (toLowerCase s)).
  - reflexivity.
Qed.

(** Under [preserve] a tuple is returned as it is.  Under
    [forceLonLat] a tuple of at least two components has its first two
    components exchanged exactly when the lower-cased reference system
    name contains "4326", and the components after the second stay in
    place.  The reference system that governs a geometry element is its
    own [srsName] when that is a string and the inherited one otherwise,
    and a Point decoded under [forceLonLat] is the [preserve] decoding of
    the same element with that exchange applied. *)
Theorem axis_order_forceLonLat_swaps_exactly_4326 :
  (forall (A : Type) (coords : list A) (srsName : option string),
      maybeSwap coords Preserve srsName = coords)
  /\ (forall (A : Type) (a b : A) (rest : list A) (srsName : option string),
         maybeSwap (a :: b :: rest) ForceLonLat srsName
         = if includes "4326" (toLowerCase (default "" srsName))
           then b :: a :: rest else a :: b :: rest)
  /\ (forall (value inherited : JsValue) (strategy : AxisOrderStrategy),
         parseGeometryNode "Point" value strategy inherited
         = parsePoint value strategy (nodeSrsName value inherited)
         /\ (forall s, isNode value = true -> getProp value "@_srsName" = JStr s ->
                       nodeSrsName value inherited = JStr s)
         /\ (isNode value = true -> getProp value "@_srsName" = JUndefined ->
             nodeSrsName value inherited = inherited))
  /\ (forall (value : JsValue) (srsName : option string) (coords : list number),
         parsePoint value Preserve (optStr srsName) = Normal (Some (Point coords)) ->
         parsePoint value ForceLonLat (optStr srsName)
         = Normal (Some (Point
                     (if includes "4326" (toLowerCase (default "" srsName))
                      then swapFirstTwo coords else coords)))).
Proof.
  split; [| split; [| split]].
  - intros. apply maybeSwap_preserve.
  - intros. apply maybeSwap_forceLonLat.
  - intros value inherited strategy. split; [reflexivity |]. split.
    + intros s Hn Hs. unfold nodeSrsName. by rewrite Hn, Hs.
    + intros Hn Hs. unfold nodeSrsName. by rewrite Hn, Hs.
  - intros. by apply parsePoint_forceLonLat.
Qed.

Lemma axis_order_forceLonLat_swaps_exactly_4326_witness :
  parsePoint samplePoint ForceLonLat (JStr "urn:ogc:def:crs:EPSG::4326")
  = Normal (Some (Point [Int 20; Int 40]))
  /\ nodeSrsName samplePoint JUndefined = JStr "EPSG:4326".
Proof.
  destruct axis_order_forceLonLat_swaps_exactly_4326 as (_ & _ & Hnode & Hpoint).
  split.
  - apply (Hpoint samplePoint (Some "urn:ogc:def:crs:EPSG::4326") [Int 40; Int 20]).
    reflexivity.
  - destruct (Hnode samplePoint JUndefined Preserve) as (_ & Hlocal & _).
    apply Hlocal; reflexivity.
Defined.

End AxisOrderFacts.

(** ** Transaction results *)

Module TransactionFacts.
Import JsString Js Platform Errors Helpers TransactionParser LockParser.
Import TransactionTerms.

Lemma total_absent (summaryNode : option JsValue) (name : string) :
  omitsTotal summaryNode name -> toNumber (firstByLocalName summaryNode name) = None.
Proof.
  destruct summaryNode as [node|]; [| done].
  intros [H1 H2]. unfold firstByLocalName. by rewrite H1, H2.
Qed.

Lemma total_zero (node : JsValue) (name : string) (zero : JsValue) :
  isZero zero -> holdsTotal node name zero ->
  toNumber (firstByLocalName (Some node) name) = Some (Int 0).
Proof.
  intros Hz Hhold. unfold firstByLocalName.
  destruct Hhold as [Hw | [Hw Hn]]; rewrite Hw; [| rewrite Hn];
    destruct Hz as [-> | ->]; reflexivity.
Qed.

Section Totals.
Context `{Externals}.

(** The totals of a transaction response whose summary omits an element
    stay absent, and a total of zero under the key that is read stays
    the number zero. *)
Lemma parseTransactionResult_totals (text : string) (txNode : JsValue) :
  getNodeByLocalName (parseXml text) "TransactionResponse" = Some txNode ->
  let summaryNode := getNodeByLocalName txNode "TransactionSummary" in
  let result := parseTransactionResult (JStr text) in
  (omitsTotal summaryNode "totalInserted" -> totalInserted result = None)
  /\ (omitsTotal summaryNode "totalUpdated" -> totalUpdated result = None)
  /\ (omitsTotal summaryNode "totalReplaced" -> totalReplaced result = None)
  /\ (omitsTotal summaryNode "totalDeleted" -> totalDeleted result = None)
  /\ (forall node zero, summaryNode = Some node -> isZero zero ->
        (holdsTotal node "totalInserted" zero -> totalInserted result = Some (Int 0))
        /\ (holdsTotal node "totalUpdated" zero -> totalUpdated result = Some (Int 0))
        /\ (holdsTotal node "totalReplaced" zero -> totalReplaced result = Some (Int 0))
        /\ (holdsTotal node "totalDeleted" zero -> totalDeleted result = Some (Int 0))).
Proof.
  intros Htx summaryNode result. unfold result, parseTransactionResult.
  rewrite Htx. fold summaryNode. cbn [totalInserted totalUpdated totalReplaced totalDeleted].
  split; [apply total_absent |]. split; [apply total_absent |].
  split; [apply total_absent |]. split; [apply total_absent |].
  intros node zero -> Hzero.
  repeat split; intros Hhold; by eapply total_zero.
Qed.

End Totals.

Lemma parseTransactionResult_totals_witness :
  totalInserted
    (parseTransactionResult (H := tablePlatform [(summaryDocument, summaryTree)])
       (JStr summaryDocument)) = Some (Int 0)
  /\ totalDeleted
       (parseTransactionResult (H := tablePlatform [(summaryDocument, summaryTree)])
          (JStr summaryDocument)) = None.
Proof.
  destruct (parseTransactionResult_totals
              (H := tablePlatform [(summaryDocument, summaryTree)]) summaryDocument
              (JObj [("wfs:TransactionSummary", summaryNodeTree)]) eq_refl)
    as (_ & _ & _ & Hdeleted & Hzero).
  split.
  - destruct (Hzero summaryNodeTree (JNum (Int 0)) eq_refl) as (Hinserted & _).
    + by left.
    + apply Hinserted. by left.
  - apply Hdeleted. split; reflexivity.
Defined.

(** C7 at its own example: the [FeatureId] child of a [Feature] node is
    not collected by [parseActionResults], while [collectResourceIds] of
    the lock parser collects the same child. *)
Lemma parseActionResults_skips_FeatureId :
  insertResults
    (parseTransactionResult
       (H := tablePlatform [(insertResponseDocument, insertResponseTree)])
       (JStr insertResponseDocument))
  = [mkActionResult JUndefined []]
  /\ collectResourceIds (JObj [("wfs:FeaturesLocked", featureIdNode)]) "FeaturesLocked"
     = [JStr "x"].
Proof. split; vm_compute; reflexivity. Qed.

(** C6 at a summary whose elements carry the prefix [ns0]: the total
    that the service reports as zero is absent from the result. *)
Lemma parseTransactionResult_other_prefix_total_lost :
  totalInserted
    (parseTransactionResult
       (H := tablePlatform [(prefixedSummaryDocument, prefixedSummaryTree)])
       (JStr prefixedSummaryDocument))
  = None.
Proof. vm_compute. reflexivity. Qed.

End TransactionFacts.

(** ** Feature collections *)

Module FeatureCollectionFacts.
Import JsString Js Platform Options Errors Gml Helpers FeatureCollection.
Import FeatureCollectionTerms.

(** *** Induction over trees *)

Lemma JsValue_tree_ind (P : JsValue -> Prop) :
  P JUndefined -> P JNull -> (forall b, P (JBool b)) -> (forall n, P (JNum n)) ->
  (forall s, P (JStr s)) ->
  (forall items, Forall P items -> P (JArr items)) ->
  (forall fields, Forall (fun kv => P (snd kv)) fields -> P (JObj fields)) ->
  forall v, P v.
Proof.
  intros Hundefined Hnull Hbool Hnum Hstr Harr Hobj.
  fix IH 1.
  intros [| | b | n | s | items | fields];
    [exact Hundefined | exact Hnull | apply Hbool | apply Hnum | apply Hstr | |].
  - apply Harr. induction items as [|x l IHl]; constructor; [apply IH | exact IHl].
  - apply Hobj. induction fields as [|[k x] l IHl]; constructor; [apply IH | exact IHl].
Qed.

(** *** Loops that do not throw *)

Lemma returns_bindC {A B} (c : Completion A) (k : A -> Completion B) :
  returns c -> (forall a, returns (k a)) -> returns (bindC c k).
Proof. intros [a ->] Hk. apply Hk. Qed.

Lemma returns_mapC {A B} (f : A -> Completion B) (l : list A) :
  Forall (fun x => returns (f x)) l -> returns (mapC f l).
Proof.
  induction 1 as [|x l Hx Hl IH]; simpl; [by eexists |].
  apply returns_bindC; [done |]. intros y.
  apply returns_bindC; [done |]. intros ys. by eexists.
Qed.

Lemma returns_firstSomeC {A B} (f : A -> Completion (option B)) (l : list A) :
  Forall (fun x => returns (f x)) l -> returns (firstSomeC f l).
Proof.
  induction 1 as [|x l Hx Hl IH]; simpl; [by eexists |].
  apply returns_bindC; [done |]. intros [b|]; [by eexists | done].
Qed.

Lemma returns_firstSomeFromC {A B} (f : nat -> A -> Completion (option B)) (i : nat)
  (l : list A) :
  Forall (fun x => forall j, returns (f j x)) l -> returns (firstSomeFromC f i l).
Proof.
  intros Hall. revert i. induction Hall as [|x l Hx Hl IH]; intros i; simpl;
    [by eexists |].
  apply returns_bindC; [done |]. intros [b|]; [by eexists | apply IH].
Qed.

Lemma returns_firstEntryC {B} (f : string -> JsValue -> Completion (option B))
  (node : JsValue) :
  (forall k v, (k, v) ∈ entries node -> returns (f k v)) ->
  (forall items, node = JArr items -> Forall (fun v => forall k, returns (f k v)) items) ->
  returns (firstEntryC f node).
Proof.
  intros Hentries Harr. destruct node as [| | | | |items|fields]; simpl;
    try (by eexists).
  - apply returns_firstSomeFromC.
    eapply Forall_impl; [by apply Harr |]. intros v Hv j. apply Hv.
  - apply returns_firstSomeC. apply Forall_forall. intros [k v] Hin.
    by apply Hentries.
Qed.

(** *** The geometry parsers *)

Lemma returns_maybeSwapDynamic {A} (coords : list A) (strategy : AxisOrderStrategy)
  (srsName : JsValue) :
  safeSrs strategy srsName -> returns (maybeSwapDynamic coords strategy srsName).
Proof.
  unfold maybeSwapDynamic. intros [-> | Hok].
  - rewrite orb_true_r. by eexists.
  - destruct (_ || _); [by eexists |].
    destruct srsName; try discriminate; by eexists.
Qed.

Lemma returns_swapAll (positions : list (list number)) (strategy : AxisOrderStrategy)
  (srsName : JsValue) :
  safeSrs strategy srsName ->
  returns (mapC (fun position => maybeSwapDynamic position strategy srsName) positions).
Proof.
  intros Hsafe. apply returns_mapC, Forall_forall. intros position _.
  by apply returns_maybeSwapDynamic.
Qed.

Lemma returns_parsePoint (value : JsValue) (strategy : AxisOrderStrategy)
  (srsName : JsValue) :
  safeSrs strategy srsName -> returns (parsePoint value strategy srsName).
Proof.
  intros Hsafe. unfold parsePoint.
  destruct (nonEmpty _) as [text|]; [| by eexists].
  destruct (_ <? _); [by eexists |].
  apply returns_bindC; [by apply returns_maybeSwapDynamic |]. intros. by eexists.
Qed.

Lemma returns_parseLineStringCoordinates (value : JsValue)
  (strategy : AxisOrderStrategy) (srsName : JsValue) :
  safeSrs strategy srsName ->
  returns (parseLineStringCoordinates value strategy srsName).
Proof.
  intros Hsafe. unfold parseLineStringCoordinates.
  destruct (nonEmpty _) as [text|]; [| by eexists].
  apply returns_bindC; [by apply returns_swapAll |].
  intros [|p [|q rest]]; by eexists.
Qed.

Lemma returns_parseRing (text value : JsValue) (strategy : AxisOrderStrategy)
  (srsName : JsValue) :
  safeSrs strategy srsName -> returns (parseRing text value strategy srsName).
Proof.
  intros Hsafe. unfold parseRing. destruct (truthy text); [| by eexists].
  apply returns_bindC; [by apply returns_swapAll |]. intros. by eexists.
Qed.

Lemma returns_parsePolygonCoordinates (value : JsValue)
  (strategy : AxisOrderStrategy) (srsName : JsValue) :
  safeSrs strategy srsName ->
  returns (parsePolygonCoordinates value strategy srsName).
Proof.
  intros Hsafe. unfold parsePolygonCoordinates.
  destruct (negb (isNode value)); [by eexists |].
  apply returns_bindC; [by apply returns_parseRing |]. intros outer.
  apply returns_bindC.
  - apply returns_mapC, Forall_forall. intros interior _. by apply returns_parseRing.
  - intros inners. destruct (outer ++ List.concat inners); by eexists.
Qed.

Lemma returns_parseGeometryNode (nodeName : string) (value : JsValue)
  (strategy : AxisOrderStrategy) (srsName : JsValue) :
  safeSrs strategy srsName ->
  returns (parseGeometryNode nodeName value strategy srsName).
Proof.
  intros Hsafe.
  assert (safeSrs strategy (nodeSrsName value srsName)) as Hnode.
  { unfold nodeSrsName.
    destruct (if isNode value then getProp value "@_srsName" else JUndefined);
      try done. by right. }
  unfold parseGeometryNode. cbv zeta.
  repeat match goal with
         | |- returns (if ?b then _ else _) => destruct b
         end.
  - by apply returns_parsePoint.
  - unfold parseLineString.
    apply returns_bindC; [by apply returns_parseLineStringCoordinates |].
    intros. by eexists.
  - unfold parsePolygon.
    apply returns_bindC; [by apply returns_parsePolygonCoordinates |].
    intros. by eexists.
  - unfold parseMultiPoint. apply returns_bindC.
    + apply returns_mapC, Forall_forall. intros node _. by apply returns_parsePoint.
    + intros parsed. destruct (omap pointCoordinates parsed); by eexists.
  - unfold parseMultiLineString. apply returns_bindC.
    + apply returns_mapC, Forall_forall. intros node _.
      by apply returns_parseLineStringCoordinates.
    + intros parsed. destruct (omap id parsed); by eexists.
  - unfold parseMultiPolygon. apply returns_bindC.
    + apply returns_mapC, Forall_forall. intros node _.
      by apply returns_parsePolygonCoordinates.
    + intros parsed. destruct (omap id parsed); by eexists.
  - by eexists.
Qed.

(** *** Trees whose reference system names are strings *)

Lemma indexKey_not_attribute (i : nat) (name : string) :
  indexKey i <> String "@" name.
Proof. unfold indexKey. destruct (Nat.to_uint i); discriminate. Qed.

Lemma assoc_indexed_attribute {A} (name : string) (i : nat) (l : list A) :
  assoc (String "@" name) (indexed i l) = None.
Proof.
  revert i. induction l as [|x l IH]; intros i; simpl; [done |].
  rewrite bool_decide_eq_false_2 by apply indexKey_not_attribute. apply IH.
Qed.

Lemma elem_of_indexed {A} (k : string) (x : A) (i : nat) (l : list A) :
  (k, x) ∈ indexed i l -> x ∈ l.
Proof.
  revert i. induction l as [|y l IH]; intros i; simpl.
  - by intros ?%elem_of_nil.
  - intros [[= _ ->] | Hin]%elem_of_cons; [by left | right; by eapply IH].
Qed.

Lemma elem_of_chars (c : JsValue) (s : string) : c ∈ chars s -> srsTyped c = true.
Proof.
  induction s as [|a s IH]; simpl.
  - by intros ?%elem_of_nil.
  - intros [-> | Hin]%elem_of_cons; [done | by apply IH].
Qed.

Lemma srsTyped_entries (v : JsValue) (k : string) (child : JsValue) :
  srsTyped v = true -> (k, child) ∈ entries v -> srsTyped child = true.
Proof.
  destruct v as [| | | |s|items|fields]; simpl; try (by intros _ ?%elem_of_nil).
  - intros _ Hin. by eapply elem_of_chars, elem_of_indexed.
  - intros Hall Hin. apply elem_of_indexed in Hin.
    rewrite forallb_forall in Hall. by apply Hall, list_elem_of_In.
  - intros [_ Hall]%andb_true_iff Hin. rewrite forallb_forall in Hall.
    by apply (Hall (k, child)), list_elem_of_In.
Qed.

Lemma srsOk_getProp (v : JsValue) :
  srsTyped v = true -> srsOk (getProp v "@_srsName") = true.
Proof.
  destruct v as [| | | |s|items|fields]; simpl; try done.
  - by rewrite assoc_indexed_attribute.
  - by rewrite assoc_indexed_attribute.
  - by intros [Hok _]%andb_true_iff.
Qed.

Lemma safeTree_entries (strategy : AxisOrderStrategy) (v : JsValue) (k : string)
  (child : JsValue) :
  safeTree strategy v -> (k, child) ∈ entries v -> safeTree strategy child.
Proof. intros [-> | Ht] Hin; [by left | right; by eapply srsTyped_entries]. Qed.

Lemma safeSrs_inherit (strategy : AxisOrderStrategy) (v inherited : JsValue) :
  safeTree strategy v -> safeSrs strategy inherited ->
  safeSrs strategy (nullish (getProp v "@_srsName") inherited).
Proof.
  intros [-> | Ht] Hin; [by left |]. unfold nullish.
  destruct (isNullish _); [done |]. right. by apply srsOk_getProp.
Qed.

Lemma parseGeometryDeep_unfold (value : JsValue) (strategy : AxisOrderStrategy)
  (inherited : JsValue) :
  parseGeometryDeep value strategy inherited
  = if negb (isNode value) then Normal None
    else
      let srsName := nullish (getProp value "@_srsName") inherited in
      direct <- firstEntryC
                  (fun key child =>
                     if startsWith "@_" key then Normal None
                     else parseGeometryNode (localName key) child strategy srsName)
                  value ;;
      match direct with
      | Some geometry => Normal (Some geometry)
      | None =>
          firstEntryC (fun _ child => parseGeometryDeep child strategy srsName) value
      end.
Proof. by destruct value. Qed.

Lemma returns_parseGeometryDeep (strategy : AxisOrderStrategy) (value : JsValue) :
  forall inherited,
    safeTree strategy value -> safeSrs strategy inherited ->
    returns (parseGeometryDeep value strategy inherited).
Proof.
  induction value as [| | b | n | s | items IH | fields IH] using JsValue_tree_ind;
    intros inherited Htree Hsrs; try (by eexists);
    try (rewrite parseGeometryDeep_unfold; unfold isNode; simpl;
         rewrite andb_false_r; by eexists).
  - rewrite parseGeometryDeep_unfold. cbv zeta.
    pose proof (safeSrs_inherit _ _ _ Htree Hsrs) as Hhere.
    change (negb (isNode (JArr items))) with false. cbv iota.
    apply returns_bindC.
    + apply returns_firstEntryC.
      * intros k v _. destruct (startsWith _ _); [by eexists |].
        by apply returns_parseGeometryNode.
      * intros l _. apply Forall_forall. intros v _ k.
        destruct (startsWith _ _); [by eexists |].
        by apply returns_parseGeometryNode.
    + intros [g|]; [by eexists |]. simpl.
      apply returns_firstSomeFromC.
      rewrite Forall_forall in IH. apply Forall_forall. intros v Hv j.
      apply IH; [done | | done].
      destruct Htree as [-> | Ht]; [by left | right].
      simpl in Ht. rewrite forallb_forall in Ht. by apply Ht, list_elem_of_In.
  - rewrite parseGeometryDeep_unfold. cbv zeta.
    pose proof (safeSrs_inherit _ _ _ Htree Hsrs) as Hhere.
    change (negb (isNode (JObj fields))) with false. cbv iota.
    apply returns_bindC.
    + apply returns_firstEntryC; [| done].
      intros k v _. destruct (startsWith _ _); [by eexists |].
      by apply returns_parseGeometryNode.
    + intros [g|]; [by eexists |]. simpl.
      apply returns_firstSomeC.
      rewrite Forall_forall in IH. apply Forall_forall. intros [k v] Hin.
      apply (IH (k, v)); [done | | done].
      by eapply safeTree_entries.
Qed.

(** *** Features *)

Lemma returns_parseMemberEntries (strategy : AxisOrderStrategy)
  (l : list (string * JsValue)) :
  Forall (fun kv => safeTree strategy (snd kv)) l ->
  forall geometry properties,
    returns (parseMemberEntries l strategy geometry properties).
Proof.
  induction 1 as [|[k v] l Hv Hl IH]; intros geometry properties;
    cbn [parseMemberEntries]; [by eexists |].
  destruct (startsWith "@_" k); [apply IH |].
  apply returns_bindC.
  - apply returns_parseGeometryDeep; [done | by right].
  - intros [g|]; destruct geometry; apply IH.
Qed.

Lemma safeTree_leaf (strategy : AxisOrderStrategy) : safeTree strategy JUndefined.
Proof. by right. Qed.

Lemma safeTree_unwrapFeatureContainer (strategy : AxisOrderStrategy)
  (member : JsValue) :
  safeTree strategy member -> safeTree strategy (unwrapFeatureContainer member).
Proof.
  intros Hmember. unfold unwrapFeatureContainer.
  destruct (negb (isNode member)); [apply safeTree_leaf |].
  assert (forall k v, In (k, v) (nonAttributeEntries member) -> safeTree strategy v)
    as Hchild.
  { intros k v [Hin _]%filter_In. eapply safeTree_entries; [done |].
    by apply list_elem_of_In. }
  destruct (nonAttributeEntries member) as [|[k v] [|e rest]];
    [apply safeTree_leaf | apply (Hchild k v); by left |].
  destruct (find _ _) as [[k' v']|] eqn:Hfind; [| apply safeTree_leaf].
  apply find_some in Hfind as [Hin _]. by apply (Hchild k' v').
Qed.

Lemma returns_parseMemberToFeature (member : JsValue) (strategy : AxisOrderStrategy) :
  safeTree strategy member -> returns (parseMemberToFeature member strategy).
Proof.
  intros Hmember. unfold parseMemberToFeature. cbv zeta.
  destruct (negb (truthy _)); [by eexists |].
  apply returns_bindC; [| intros; by eexists].
  apply returns_parseMemberEntries, Forall_forall. intros [k v] Hin.
  eapply safeTree_entries; [| done]. by apply safeTree_unwrapFeatureContainer.
Qed.

(** *** The nodes a tree walk hands over belong to the tree *)

Lemma firstSome_Some {A B} (f : A -> option B) (l : list A) (b : B) :
  firstSome f l = Some b -> exists x, x ∈ l /\ f x = Some b.
Proof.
  induction l as [|x l IH]; simpl; [done |].
  destruct (f x) as [b'|] eqn:Hx.
  - intros [= ->]. exists x. split; [by left | done].
  - intros (y & Hy & Hfy)%IH. exists y. split; [by right | done].
Qed.

Lemma firstSomeFrom_Some {A B} (f : nat -> A -> option B) (i : nat) (l : list A)
  (b : B) :
  firstSomeFrom f i l = Some b -> exists j x, x ∈ l /\ f j x = Some b.
Proof.
  revert i. induction l as [|x l IH]; intros i; simpl; [done |].
  destruct (f i x) as [b'|] eqn:Hx.
  - intros [= ->]. exists i, x. split; [by left | done].
  - intros (j & y & Hy & Hfy)%IH. exists j, y. split; [by right | done].
Qed.

Lemma elem_of_flatFrom {A B} (f : nat -> A -> list B) (i : nat) (l : list A) (b : B) :
  b ∈ flatFrom f i l -> exists j x, x ∈ l /\ b ∈ f j x.
Proof.
  revert i. induction l as [|x l IH]; intros i; simpl.
  - by intros ?%elem_of_nil.
  - intros [Hin | Hin]%elem_of_app.
    + exists i, x. split; [by left | done].
    + apply IH in Hin as (j & y & Hy & Hb). exists j, y. split; [by right | done].
Qed.

Lemma srsTyped_items (items : list JsValue) (x : JsValue) :
  srsTyped (JArr items) = true -> x ∈ items -> srsTyped x = true.
Proof.
  simpl. rewrite forallb_forall. intros Hall Hin. by apply Hall, list_elem_of_In.
Qed.

Lemma srsTyped_fields (fields : list (string * JsValue)) (k : string) (x : JsValue) :
  srsTyped (JObj fields) = true -> (k, x) ∈ fields -> srsTyped x = true.
Proof. intros Ht Hin. by eapply (srsTyped_entries (JObj fields)). Qed.

Lemma srsTyped_asArray (v x : JsValue) :
  srsTyped v = true -> x ∈ asArray v -> srsTyped x = true.
Proof.
  destruct v as [| | | | |items|fields]; simpl;
    try (by intros _ ?%elem_of_nil);
    try (by intros Hv ->%list_elem_of_singleton).
  apply srsTyped_items.
Qed.

Lemma getNodeByLocalName_unfold (root : JsValue) (expected : string) :
  getNodeByLocalName root expected
  = if negb (isNode root) then None
    else firstEntry
           (fun key value =>
              if bool_decide (localName key = expected) && isNode value then Some value
              else if isNode value then getNodeByLocalName value expected
                   else None)
           root.
Proof. by destruct root. Qed.

Lemma collectNodesByLocalName_unfold (root : JsValue) (expected : string) :
  collectNodesByLocalName root expected
  = if negb (isNode root) then []
    else eachEntry
           (fun key value =>
              (if bool_decide (localName key = expected)
               then List.filter isNode (asArray value)
               else [])
                ++ (if isNode value then collectNodesByLocalName value expected
                    else []))
           root.
Proof. by destruct root. Qed.

Lemma isNode_leaf (v : JsValue) :
  match v with JArr _ | JObj _ => False | _ => True end -> isNode v = false.
Proof. destruct v; try done; intros _; unfold isNode; simpl; apply andb_false_r. Qed.

Lemma srsTyped_getNodeByLocalName (expected : string) (root : JsValue) :
  srsTyped root = true ->
  forall node, getNodeByLocalName root expected = Some node -> srsTyped node = true.
Proof.
  induction root as [| | b | n | s | items IH | fields IH] using JsValue_tree_ind;
    intros Hroot node; rewrite getNodeByLocalName_unfold;
    try (rewrite isNode_leaf by done; discriminate).
  - change (negb (isNode (JArr items))) with false. cbv iota. simpl.
    intros (j & v & Hv & Hfound)%firstSomeFrom_Some.
    pose proof (srsTyped_items _ _ Hroot Hv) as Htyped.
    rewrite Forall_forall in IH.
    destruct (_ && _); [by injection Hfound as <- |].
    destruct (isNode v); [by eapply IH | discriminate].
  - change (negb (isNode (JObj fields))) with false. cbv iota. simpl.
    intros ([k v] & Hv & Hfound)%firstSome_Some.
    pose proof (srsTyped_fields _ _ _ Hroot Hv) as Htyped.
    rewrite Forall_forall in IH.
    destruct (_ && _); [by injection Hfound as <- |].
    destruct (isNode v); [by eapply (IH (k, v)) | discriminate].
Qed.

Lemma srsTyped_collected (expected : string) (key : string) (value node : JsValue)
  (collected : list JsValue) :
  srsTyped value = true ->
  (forall x, x ∈ collected -> srsTyped x = true) ->
  node ∈ (if bool_decide (localName key = expected)
          then List.filter isNode (asArray value) else [])
         ++ (if isNode value then collected else []) ->
  srsTyped node = true.
Proof.
  intros Hvalue Hcollected [Hin | Hin]%elem_of_app.
  - destruct (bool_decide _); [| by apply elem_of_nil in Hin].
    apply list_elem_of_In, filter_In in Hin as [Hin _].
    by eapply srsTyped_asArray, list_elem_of_In.
  - destruct (isNode value); [by apply Hcollected | by apply elem_of_nil in Hin].
Qed.

Lemma srsTyped_collectNodesByLocalName (expected : string) (root : JsValue) :
  srsTyped root = true ->
  forall node, node ∈ collectNodesByLocalName root expected -> srsTyped node = true.
Proof.
  induction root as [| | b | n | s | items IH | fields IH] using JsValue_tree_ind;
    intros Hroot node; rewrite collectNodesByLocalName_unfold;
    try (rewrite isNode_leaf by done; by intros ?%elem_of_nil).
  - change (negb (isNode (JArr items))) with false. cbv iota. simpl.
    intros (j & v & Hv & Hin)%elem_of_flatFrom.
    pose proof (srsTyped_items _ _ Hroot Hv) as Htyped.
    rewrite Forall_forall in IH.
    eapply srsTyped_collected; [exact Htyped | | exact Hin]. by apply IH.
  - change (negb (isNode (JObj fields))) with false. cbv iota. simpl.
    intros ([k v] & Hv%list_elem_of_In & Hin%list_elem_of_In)%list_elem_of_In%in_flat_map.
    pose proof (srsTyped_fields _ _ _ Hroot Hv) as Htyped.
    rewrite Forall_forall in IH.
    eapply srsTyped_collected; [exact Htyped | | exact Hin]. by apply (IH (k, v)).
Qed.

Lemma srsTyped_flattenFeatureMembersContainers (containers : list JsValue)
  (member : JsValue) :
  (forall c, c ∈ containers -> srsTyped c = true) ->
  member ∈ flattenFeatureMembersContainers containers -> srsTyped member = true.
Proof.
  intros Hall. unfold flattenFeatureMembersContainers.
  intros (c & Hc%list_elem_of_In & Hin)%list_elem_of_In%in_flat_map.
  apply in_flat_map in Hin as ([k v] & Hkv%list_elem_of_In & Hin).
  cbn [fst snd] in Hin.
  destruct (startsWith "@_" k) eqn:Hattr; [done |].
  apply in_map_iff in Hin as (item & <- & [Hitem _]%filter_In).
  assert (srsTyped item = true) as Hitem'.
  { eapply srsTyped_asArray; [| by apply list_elem_of_In].
    eapply srsTyped_entries; [by apply Hall | done]. }
  simpl. rewrite Hitem'.
  case_bool_decide as Hk; [| done]. subst k. discriminate.
Qed.

Section Fallbacks.
Context `{Externals}.

(** A payload that already is a GeoJSON collection is handed back as it
    is; any other payload that is not a string, and any string in whose
    tree no [FeatureCollection] or [SimpleFeatureCollection] element is
    found, gives the empty collection without a lock identifier. *)
Lemma parseFeatureCollection_fallbacks (payload : JsValue)
  (strategy : AxisOrderStrategy) :
  (isGeoJsonFeatureCollection payload = true ->
   parseFeatureCollection payload strategy = Normal (Passthrough payload))
  /\ (isGeoJsonFeatureCollection payload = false ->
      (forall text, payload <> JStr text) ->
      parseFeatureCollection payload strategy = Normal (Built [] None))
  /\ (forall text,
         payload = JStr text ->
         getNodeByLocalName (parseXml text) "FeatureCollection" = None ->
         getNodeByLocalName (parseXml text) "SimpleFeatureCollection" = None ->
         parseFeatureCollection payload strategy = Normal (Built [] None)).
Proof.
  unfold parseFeatureCollection. split; [| split].
  - by intros ->.
  - intros -> Hnot. destruct payload as [| | | |s| |]; try done.
    exfalso. by apply (Hnot s).
  - intros text -> H1 H2.
    assert (isGeoJsonFeatureCollection (JStr text) = false) as ->.
    { unfold isGeoJsonFeatureCollection, isNode. simpl. by rewrite andb_false_r. }
    by rewrite H1, H2.
Qed.

End Fallbacks.

(** Decoding a feature member, and looking for a geometry in a tree,
    throws nothing under [preserve], and nothing under the other
    strategies when every [srsName] attribute of the tree and the
    inherited name are strings or absent. *)
Lemma parseMemberToFeature_returns (member : JsValue)
  (strategy : AxisOrderStrategy) :
  strategy = Preserve \/ srsTyped member = true ->
  returns (parseMemberToFeature member strategy)
  /\ (forall inherited,
         strategy = Preserve \/ srsOk inherited = true ->
         returns (parseGeometryDeep member strategy inherited)).
Proof.
  intros Hsafe. split.
  - by apply returns_parseMemberToFeature.
  - intros inherited Hinherited. by apply returns_parseGeometryDeep.
Qed.

Lemma parseMemberToFeature_returns_witness :
  returns (parseMemberToFeature numericSrsTree Preserve)
  /\ returns (parseMemberToFeature typedSrsTree ForceLonLat)
  /\ returns (parseGeometryDeep typedSrsTree ForceLonLat (JStr "EPSG:4326")).
Proof.
  split; [| split].
  - apply (parseMemberToFeature_returns numericSrsTree Preserve). by left.
  - apply (parseMemberToFeature_returns typedSrsTree ForceLonLat). by right.
  - apply (parseMemberToFeature_returns typedSrsTree ForceLonLat);
      [by right | by right].
Defined.

Lemma parseFeatureCollection_fallbacks_witness :
  parseFeatureCollection (H := tablePlatform [])
    (JObj [("type", JStr "FeatureCollection"); ("features", JArr [])]) ForceLonLat
  = Normal (Passthrough (JObj [("type", JStr "FeatureCollection"); ("features", JArr [])]))
  /\ parseFeatureCollection (H := tablePlatform []) (JNum (Int 1)) ForceLonLat
     = Normal (Built [] None)
  /\ parseFeatureCollection (H := tablePlatform []) (JStr "<a/>") ForceLonLat
     = Normal (Built [] None).
Proof.
  split; [| split].
  - by apply (parseFeatureCollection_fallbacks (H := tablePlatform [])).
  - by apply (parseFeatureCollection_fallbacks (H := tablePlatform [])).
  - by eapply (parseFeatureCollection_fallbacks (H := tablePlatform [])).
Defined.

(** C10 at a payload outside its two fall-back classes: decoding under
    [forceLonLat] ends in a [TypeError], while [preserve] decodes the
    same payload. *)
Lemma parseFeatureCollection_numeric_srsName_throws :
  parseFeatureCollection
    (H := tablePlatform [(numericSrsDocument, numericSrsTree)])
    (JStr numericSrsDocument) ForceLonLat
  = Thrown (TypeError "(srsName ?? <empty>).toLowerCase is not a function")
  /\ parseFeatureCollection
       (H := tablePlatform [(numericSrsDocument, numericSrsTree)])
       (JStr numericSrsDocument) Preserve
     = Normal (Built [mkFeature JUndefined (Some (Point [Int 40; Int 20])) []] None).
Proof. split; vm_compute; reflexivity. Qed.

End FeatureCollectionFacts.

(** ** The client: GetFeature *)

Module ClientFacts.
Import JsString Js Xml Platform Version Gml Filter Options Errors Helpers.
Import FeatureCollection Serializers Kvp OwsExceptionParser CapabilitiesParser Transport.
Import Client WfsClient.
Import ClientTerms.

Section Attempts.
Context `{Externals}.
Variable config : WfsClientConfig.

(** The negotiation loop catches every failure of a probe and ends with
    a version. *)
Lemma negotiate_returns (chain : list WfsVersion) (st : ClientState) :
  exists version st', negotiate config chain st = (Normal version, st').
Proof.
  revert st. induction chain as [|candidate rest IH]; intros st; cbn [negotiate].
  - by eexists _, _.
  - unfold tryCatch at 1.
    match goal with
    | |- context [match ?body with _ => _ end] => destruct body as [[version|e] st']
    end; [by eexists _, _ | apply IH].
Qed.

Lemma resolveVersion_returns (explicit : option WfsVersion) (st : ClientState) :
  exists version st', resolveVersion config explicit st = (Normal version, st').
Proof.
  unfold resolveVersion.
  destruct (nonEmpty explicit); [by eexists _, _ |].
  destruct (fixedVersion _); [by eexists _, _ |].
  unfold bind at 1, getState.
  destruct (nonEmpty (negotiatedVersion st)); [by eexists _, _ |].
  apply negotiate_returns.
Qed.

Lemma getFeatureAttempt_unfold (version : WfsVersion) (style : RequestStyle)
  (options : GetFeatureOptions) (st : ClientState) :
  getFeatureAttempt config version style options st
  = match attemptBody config version style options with
    | Thrown e => (Thrown e, st)
    | Normal body =>
        let request := attemptRequest config st version style options body in
        let req :=
          operationRequest config st
            {| spOperation := GetFeature; spVersion := version;
               spRequestStyle := style;
               spKvp := Some (buildGetFeatureKvp options version); spXml := body;
               spRawHeaders := Options.raw options ≫= Options.headers |} in
        match axios config (sent st) request with
        | AxiosRejected e => (Thrown e, afterRequest st request)
        | AxiosResponse status headers data =>
            let response := responseOf req status headers data in
            match ensureNoError GetFeature version response with
            | Thrown e => (Thrown e, afterRequest st request)
            | Normal _ => (parseFeatureResponse config response, afterRequest st request)
            end
        end
    end.
Proof.
  unfold getFeatureAttempt, attemptBody, bind, lift, sendOperation, bind, getState,
    transportRequest, attemptRequest, afterRequest, ret.
  destruct style; simpl.
  - destruct (axios config _ _) as [status headers data|e]; [| done].
    destruct (ensureNoError _ _ _); done.
  - destruct (buildGetFeatureXml _ _) as [body|e]; simpl; [| done].
    destruct (axios config _ _) as [status headers data|e]; [| done].
    destruct (ensureNoError _ _ _); done.
Qed.

(** An attempt hands at most one request to the HTTP library and leaves
    the other fields of the client alone. *)
Lemma getFeatureAttempt_sent (version : WfsVersion) (style : RequestStyle)
  (options : GetFeatureOptions) (st st' : ClientState)
  (r : Completion FeatureCollectionResult) :
  getFeatureAttempt config version style options st = (r, st') ->
  st' = st
  \/ exists body,
       attemptBody config version style options = Normal body
       /\ st' = afterRequest st (attemptRequest config st version style options body).
Proof.
  rewrite getFeatureAttempt_unfold.
  destruct (attemptBody config version style options) as [body|e].
  - cbv zeta. destruct (axios config _ _) as [status headers data|e].
    + destruct (ensureNoError _ _ _); intros [= <- <-]; right; eauto.
    + intros [= <- <-]. right; eauto.
  - intros [= <- <-]. by left.
Qed.

End Attempts.

(** *** The output-format fallback *)

Lemma isOutputFormatException_typed (message : string) (context : WfsErrorContext)
  (payload : JsValue) (l : list (option string * JsValue * string)) :
  isOutputFormatException
    (OwsExceptionError message context (map typedException l) payload)
  = Normal (existsb (fun e => indicates (fst (fst e)) (snd e)) l).
Proof.
  simpl. induction l as [|[[code loc] text] l IH]; simpl; [done |].
  unfold indicatesOutputFormat at 1. simpl.
  assert (toLowerCaseOf (nullish (optStr code) (JStr ""))
          = Normal (toLowerCase (default "" code))) as ->.
  { by destruct code. }
  simpl. fold (indicates code text).
  destruct (indicates code text); [done | exact IH].
Qed.

Section Fallback.
Context `{Externals}.
Variable config : WfsClientConfig.

Lemma getFeature_unfold (options : GetFeatureOptions) (st0 st1 : ClientState)
  (version : WfsVersion) :
  resolveVersion config (Options.version options) st0 = (Normal version, st1) ->
  getFeature config options st0
  = match getFeatureAttempt config version (default GET (requestStyle options))
            (baseOptionsOf config options) st1 with
    | (Normal r, st2) => (Normal r, st2)
    | (Thrown e, st2) =>
        match isOutputFormatException e with
        | Normal true =>
            getFeatureAttempt config version (default GET (requestStyle options))
              (fallbackOptionsOf config options) st2
        | Normal false => (Thrown e, st2)
        | Thrown t => (Thrown t, st2)
        end
    end.
Proof.
  intros Hv. unfold getFeature, bind at 1. rewrite Hv. unfold tryCatch.
  destruct (getFeatureAttempt _ _ _ _ _) as [[r|e] st2]; [done |].
  unfold bind, lift, throw.
  destruct (isOutputFormatException e) as [[]|t]; done.
Qed.

(** The version of a call is always resolved.  The first exchange asks
    for the caller's output format or, when there is none, for
    "application/json".  When it fails with an error that
    [isOutputFormatException] accepts, the same options with the output
    format removed are sent in one more exchange and its outcome, the
    parsed response or the error, is the outcome of the call.  When
    [isOutputFormatException] rejects the error, the error ends the
    call, and when it throws itself, what it throws ends the call; in
    both cases, and after every failure of the second exchange, no
    further request is made.  On an [OwsExceptionError] whose exceptions
    carry strings, [isOutputFormatException] accepts exactly those one of
    whose exceptions has "outputformat" in its lower-cased text or
    "invalidparametervalue" or "operationprocessingfailed" in its
    lower-cased code; it rejects every error of another kind. *)
Theorem getFeature_retries_once_on_output_format_failure
  (options : GetFeatureOptions) (st0 : ClientState) :
  exists (version : WfsVersion) (st1 : ClientState),
  resolveVersion config (Options.version options) st0 = (Normal version, st1) /\
  let style := default GET (requestStyle options) in
  let base := baseOptionsOf config options in
  let fallback := fallbackOptionsOf config options in
  (* the output format of the two exchanges *)
  (outputFormat base = Some (default "application/json" (outputFormat options))
   /\ outputFormat fallback = None
   /\ withOutputFormat fallback (outputFormat base) = base
   /\ (KvpTerms.notOverridden fallback "outputFormat" ->
       buildGetFeatureKvp fallback version !! "outputFormat" = None))
  (* a first exchange that succeeds is the whole call *)
  /\ (forall r st2,
         getFeatureAttempt config version style base st1 = (Normal r, st2) ->
         getFeature config options st0 = (Normal r, st2))
  (* a first exchange that fails *)
  /\ (forall e st2,
         getFeatureAttempt config version style base st1 = (Thrown e, st2) ->
         (isOutputFormatException e = Normal true ->
          getFeature config options st0
          = getFeatureAttempt config version style fallback st2)
         /\ (isOutputFormatException e = Normal false ->
             getFeature config options st0 = (Thrown e, st2))
         /\ (forall t, isOutputFormatException e = Thrown t ->
                       getFeature config options st0 = (Thrown t, st2)))
  (* an exchange is at most one request, and its outcome *)
  /\ (forall opts st r st',
         getFeatureAttempt config version style opts st = (r, st') ->
         st' = st
         \/ exists body, st' = afterRequest st
                                 (attemptRequest config st version style opts body))
  /\ (forall opts st body status headers data,
         attemptBody config version style opts = Normal body ->
         axios config (sent st) (attemptRequest config st version style opts body)
         = AxiosResponse status headers data ->
         let response :=
           responseOf
             (operationRequest config st
                {| spOperation := GetFeature; spVersion := version;
                   spRequestStyle := style;
                   spKvp := Some (buildGetFeatureKvp opts version); spXml := body;
                   spRawHeaders := Options.raw opts ≫= Options.headers |})
             status headers data in
         getFeatureAttempt config version style opts st
         = (match ensureNoError GetFeature version response with
            | Thrown e => Thrown e
            | Normal _ => parseFeatureResponse config response
            end,
            afterRequest st (attemptRequest config st version style opts body)))
  (* the errors that are retried *)
  /\ (forall e, isOwsExceptionError e = false ->
                isOutputFormatException e = Normal false)
  /\ (forall message context payload l,
         isOutputFormatException
           (OwsExceptionError message context (map typedException l) payload)
         = Normal (existsb (fun e => indicates (fst (fst e)) (snd e)) l)).
Proof.
  destruct (resolveVersion_returns config (Options.version options) st0)
    as (version & st1 & Hv).
  exists version, st1. split; [exact Hv |]. intros style base fallback.
  split; [| split; [| split; [| split; [| split; [| split]]]]].
  - repeat split. intros Hfree. rewrite KvpFacts.buildGetFeatureKvp_outputFormat; done.
  - intros r st2 Hfirst. rewrite (getFeature_unfold _ _ _ _ Hv).
    fold style base. by rewrite Hfirst.
  - intros e st2 Hfirst. rewrite (getFeature_unfold _ _ _ _ Hv).
    fold style base fallback. rewrite Hfirst.
    repeat split; [intros -> | intros -> | intros t ->]; reflexivity.
  - intros opts st r st' Hrun.
    apply getFeatureAttempt_sent in Hrun as [-> | (body & _ & ->)]; eauto.
  - intros opts st body status headers data Hbody Hanswer response.
    rewrite getFeatureAttempt_unfold, Hbody. cbv zeta. rewrite Hanswer.
    subst response. by destruct (ensureNoError _ _ _).
  - intros e He. by destruct e.
  - intros. apply isOutputFormatException_typed.
Qed.

End Fallback.

Lemma getFeature_retries_once_on_output_format_failure_witness :
  fst (getFeature (H := samplePlatform) (sampleConfig formatSensitiveService)
         (roadsQuery None) freshClient)
  = Normal (Built [mkFeature (JStr "roads.1") None [("name", JStr "Main St")]] None)
  /\ map (fun request => axParams request ≫= (fun params => params !! "outputFormat"))
       (sent (snd (getFeature (H := samplePlatform)
                     (sampleConfig formatSensitiveService) (roadsQuery None)
                     freshClient)))
     = [Some "application/json"; None].
Proof.
  destruct (getFeature_retries_once_on_output_format_failure
              (H := samplePlatform) (sampleConfig formatSensitiveService)
              (roadsQuery None) freshClient)
    as (version & st1 & [= <- <-] & _ & _ & Hfail & _).
  cbv zeta in Hfail.
  edestruct Hfail as (Hretry & _ & _); [vm_compute; reflexivity |].
  rewrite Hretry; [| vm_compute; reflexivity].
  split; vm_compute; reflexivity.
Defined.

End ClientFacts.

(** ** The client: namespace prefixes of XML requests *)

Module NamespaceFacts.
Import JsString Js Xml Platform Version Gml Filter Options Errors Helpers.
Import FeatureCollection Serializers Kvp OwsExceptionParser CapabilitiesParser Transport.
Import Client WfsClient ClientFacts.
Import ClientTerms NamespaceTerms.







Section Requests.
Context `{Externals}.
Variable config : WfsClientConfig.


End Requests.


End NamespaceFacts.

(** ** Escaped text is free of markup *)

Module EscapeProperties.
Import JsString Js Xml JsStringFacts EscapeFacts.

Lemma escapeXmlString_no_apos (s : string) : ~ occurs "'" (escapeXmlString s).
Proof.
  unfold escapeXmlString. apply replaceAllChar_removes. no_char_in_literal.
Qed.

Lemma replaceAllChar_absent (c : ascii) (rep s : string) :
  ~ occurs c s -> replaceAllChar c rep s = s.
Proof.
  induction s as [|a s IH]; simpl; [done |]. intros Hno.
  rewrite bool_decide_eq_false_2 by (intros ->; tauto).
  rewrite app_cons, app_nil, IH; [done | tauto].
Qed.

(** Whatever the value, the text [escapeXml] returns holds no [<], no
    [>] and neither kind of quote, so it can stand as element content and
    inside an attribute value; a string without the five characters that
    are replaced is returned as it is. *)
Theorem escapeXml_is_character_data (value : JsValue) :
  (~ occurs "<" (escapeXml value) /\ ~ occurs ">" (escapeXml value)
   /\ ~ occurs "034" (escapeXml value) /\ ~ occurs "'" (escapeXml value))
  /\ (forall s, value = JStr s ->
                ~ occurs "&" s -> ~ occurs "<" s -> ~ occurs ">" s ->
                ~ occurs "034" s -> ~ occurs "'" s ->
                escapeXml value = s).
Proof.
  split.
  - unfold escapeXml.
    auto using escapeXmlString_no_lt, escapeXmlString_no_gt,
      escapeXmlString_no_dquote, escapeXmlString_no_apos.
  - intros s -> Hamp Hlt Hgt Hdq Hap. rewrite escapeXml_string.
    unfold escapeXmlString.
    rewrite (replaceAllChar_absent "&") by done.
    rewrite (replaceAllChar_absent "<") by done.
    rewrite (replaceAllChar_absent ">") by done.
    rewrite (replaceAllChar_absent "034") by done.
    by rewrite (replaceAllChar_absent "'").
Qed.

End EscapeProperties.

(** ** The two forcing strategies *)

Module AxisOrderProperties.
Import JsString Js Platform Options Errors Gml Helpers.

Lemma swapFirstTwo_involutive {A} (coords : list A) :
  swapFirstTwo (swapFirstTwo coords) = coords.
Proof. by destruct coords as [|a [|b rest]]. Qed.

Lemma length_swapFirstTwo {A} (coords : list A) :
  length (swapFirstTwo coords) = length coords.
Proof. by destruct coords as [|a [|b rest]]. Qed.

Lemma maybeSwap_cases {A} (coords : list A) (strategy : AxisOrderStrategy)
  (srsName : option string) :
  maybeSwap coords strategy srsName = coords
  \/ maybeSwap coords strategy srsName = swapFirstTwo coords.
Proof.
  unfold maybeSwap. destruct (_ || _); [by left |].
  destruct strategy;
    try match goal with
        | |- context [includes ?p ?t] => destruct (includes p t)
        end; simpl; auto.
Qed.

(** [forceLatLon] is the mirror image of [forceLonLat]: on a tuple of
    at least two components it exchanges the first two exactly when the
    lower-cased reference system name does not contain "4326".  No
    strategy changes the number of components, and deciding twice with
    the same strategy and reference system gives the tuple back. *)
Theorem maybeSwap_forceLatLon_mirrors_forceLonLat (A : Type) (srsName : option string) :
  (forall (a b : A) (rest : list A),
      maybeSwap (a :: b :: rest) ForceLatLon srsName
      = if includes "4326" (toLowerCase (default "" srsName))
        then a :: b :: rest else b :: a :: rest)
  /\ (forall (a b : A) (rest : list A),
         maybeSwap (a :: b :: rest) ForceLonLat srsName
         = if includes "4326" (toLowerCase (default "" srsName))
           then b :: a :: rest else a :: b :: rest)
  /\ (forall (coords : list A) (strategy : AxisOrderStrategy),
         length (maybeSwap coords strategy srsName) = length coords)
  /\ (forall (coords : list A) (strategy : AxisOrderStrategy),
         maybeSwap (maybeSwap coords strategy srsName) strategy srsName = coords).
Proof.
  split; [| split; [| split]].
  - intros a b rest. unfold maybeSwap. simpl.
    by destruct (includes "4326" (toLowerCase (default "" srsName))).
  - intros a b rest. unfold maybeSwap. simpl.
    by destruct (includes "4326" (toLowerCase (default "" srsName))).
  - intros coords strategy.
    destruct (maybeSwap_cases coords strategy srsName) as [-> | ->];
      [done | apply length_swapFirstTwo].
  - intros coords strategy. unfold maybeSwap at 2.
    destruct (_ || _) eqn:Hskip.
    + unfold maybeSwap. by rewrite Hskip.
    + destruct strategy;
        try (destruct (includes "4326" (toLowerCase (default "" srsName))) eqn:H4326);
        simpl; unfold maybeSwap; rewrite ?length_swapFirstTwo, Hskip, ?H4326; simpl;
        rewrite ?swapFirstTwo_involutive; done.
Qed.

End AxisOrderProperties.

(** ** Free-form parameters of the GetFeature KVP *)

Module KvpOverlayFacts.
Import JsString Js Xml Platform Version Gml Filter Options Kvp.
Import KvpFacts KvpOverlayTerms.

Section Overlays.
Context `{Externals}.

Lemma applyGeoServerParams_lookup (params : gmap string string)
  (g : option GeoServerOptions) (k : string) :
  applyGeoServerParams params g !! k
  = match (g ≫= vendorParams) ≫= (fun m => m !! k) with
    | Some v => Some v
    | None =>
        applyGeoServerParams params
          ((fun g => mkGeoServerOptions (cqlFilter g) (viewParams g) (formatOptions g)
                       None (xmlHints g)) <$> g) !! k
    end.
Proof.
  destruct g as [g|]; simpl; [| done].
  destruct (vendorParams g) as [vp|]; simpl; [| done].
  rewrite lookup_assign. by destruct (vp !! k).
Qed.

(** The parameters of a GetFeature request are the ones built from the
    typed options, overlaid first with [geoserver.vendorParams] and then
    with [raw.kvp]: a key bound by [raw.kvp] carries the value given
    there, a key bound only by the vendor parameters carries theirs, and
    every other key is what the typed options alone give.  Left alone,
    [service], [request] and [version] are "WFS", "GetFeature" and the
    version of the call. *)
Theorem buildGetFeatureKvp_overlays (options : GetFeatureOptions)
  (v : WfsVersion) (k : string) :
  buildGetFeatureKvp options v !! k
  = match overlay options k with
    | Some value => Some value
    | None => buildGetFeatureKvp (withoutOverlays options) v !! k
    end
  /\ buildGetFeatureKvp (withoutOverlays options) v !! "service" = Some "WFS"
  /\ buildGetFeatureKvp (withoutOverlays options) v !! "request" = Some "GetFeature"
  /\ buildGetFeatureKvp (withoutOverlays options) v !! "version" = Some v.
Proof.
  split.
  - unfold buildGetFeatureKvp, overlay. cbv zeta. rewrite !lookup_assign.
    assert (default ∅ (raw (withoutOverlays options) ≫= kvp) !! k = None) as ->.
    { unfold withoutOverlays. simpl. by destruct (raw options). }
    destruct (raw options ≫= kvp) as [m|] eqn:Hraw; simpl.
    + destruct (m !! k); [done |].
      rewrite applyGeoServerParams_lookup.
      by destruct ((geoserver options ≫= vendorParams) ≫= _).
    + rewrite lookup_empty, applyGeoServerParams_lookup.
      by destruct ((geoserver options ≫= vendorParams) ≫= _).
  - assert (forall key, key <> "typeName" -> key <> "typeNames" ->
              key <> "cql_filter" -> key <> "viewParams" -> key <> "format_options" ->
              key <> "resolveTimeout" -> key <> "resolveDepth" -> key <> "resolve" ->
              key <> "bbox" -> key <> "filter" -> key <> "resultType" ->
              key <> "startIndex" -> key <> "propertyName" -> key <> "srsName" ->
              key <> "outputFormat" -> key <> "maxFeatures" -> key <> "count" ->
              buildGetFeatureKvp (withoutOverlays options) v !! key
              = (<["request" := "GetFeature"]>
                   (<["version" := v]> (<["service" := "WFS"]> ∅)) : gmap string string)
                  !! key) as Hbase.
    { intros key. intros.
      unfold buildGetFeatureKvp. cbv zeta. rewrite lookup_assign.
      assert (default ∅ (raw (withoutOverlays options) ≫= kvp) !! key = None) as ->.
      { unfold withoutOverlays. simpl. by destruct (raw options). }
      rewrite lookup_applyGeoServerParams by
        (try done; unfold withoutOverlays; simpl; by destruct (geoserver options)).
      unfold withoutOverlays. cbn [bbox count propertyNames Options.srsName].
      destruct (is110 v), (bbox options) as [[[[a b] c] d]|],
        (count options) as [c0|], (propertyNames options) as [[|p ps]|];
        cbv iota;
        repeat first [ rewrite lookup_setOpt_ne by done
                     | rewrite lookup_insert_ne by done ];
        reflexivity. }
    repeat split; rewrite Hbase by done.
    + by rewrite !lookup_insert_ne, lookup_insert_eq by done.
    + by rewrite lookup_insert_eq.
    + by rewrite lookup_insert_ne, lookup_insert_eq by done.
Qed.

End Overlays.

End KvpOverlayFacts.

(** ** The other KVP builders *)

Module KvpBuildersFacts.
Import JsString Js Xml Platform Version Gml Filter Kvp KvpBuilders.
Import KvpFacts KvpBuildersTerms.

Lemma lookup_baseParams (request : string) (version : WfsVersion) (k : string) :
  baseParams request version !! k
  = if bool_decide (k = "request") then Some request
    else if bool_decide (k = "version") then Some version
         else if bool_decide (k = "service") then Some "WFS" else None.
Proof.
  unfold baseParams. repeat case_bool_decide; subst;
    repeat first [ rewrite lookup_insert_eq | rewrite lookup_insert_ne by done ];
    rewrite ?lookup_empty; done.
Qed.

Section PropertyValue.
Context `{Externals}.

(** The KVP of GetPropertyValue, on the keys that the caller's free-form
    parameters leave alone: the type names are keyed by version as for
    GetFeature, but a numeric count goes under [count] for every version
    and never under [maxFeatures]; the value reference is always there;
    and the output format and the resolve options of the call are not
    written at all. *)
Theorem buildGetPropertyValueKvp_keys (options : GetPropertyValueOptions)
  (v : WfsVersion) :
  (forall k, k ∈ ["typeName"; "typeNames"; "count"; "maxFeatures"; "valueReference";
                  "request"; "outputFormat"; "resolve"; "resolveDepth";
                  "resolveTimeout"] -> leavesAlone options k) ->
  buildGetPropertyValueKvp options v !! (if is110 v then "typeName" else "typeNames")
  = Some (join "," (gpvTypeNames options))
  /\ buildGetPropertyValueKvp options v !! (if is110 v then "typeNames" else "typeName")
     = None
  /\ buildGetPropertyValueKvp options v !! "count" = numberToString <$> gpvCount options
  /\ buildGetPropertyValueKvp options v !! "maxFeatures" = None
  /\ buildGetPropertyValueKvp options v !! "valueReference"
     = Some (valueReference options)
  /\ buildGetPropertyValueKvp options v !! "request" = Some "GetPropertyValue"
  /\ buildGetPropertyValueKvp options v !! "outputFormat" = None
  /\ buildGetPropertyValueKvp options v !! "resolve" = None
  /\ buildGetPropertyValueKvp options v !! "resolveDepth" = None
  /\ buildGetPropertyValueKvp options v !! "resolveTimeout" = None.
Proof.
  intros Hfree.
  assert (forall k,
            k ∈ ["typeName"; "typeNames"; "count"; "maxFeatures"; "valueReference";
                 "request"; "outputFormat"; "resolve"; "resolveDepth";
                 "resolveTimeout"] ->
            buildGetPropertyValueKvp options v !! k
            = (setOpt "count" (numberToString <$> gpvCount options)
                 (<[(if is110 v then "typeName" else "typeNames")
                    := join "," (gpvTypeNames options)]>
                    (<["valueReference" := valueReference options]>
                       (baseParams "GetPropertyValue" v)))) !! k) as Hlookup.
  { intros k Hk. destruct (Hfree k Hk) as [Hraw Hvendor].
    unfold buildGetPropertyValueKvp. cbv zeta. rewrite lookup_assign.
    assert (default ∅ (gpvRaw options ≫= Options.kvp) !! k = None) as ->.
    { destruct (gpvRaw options ≫= Options.kvp); simpl in *;
        [done | apply lookup_empty]. }
    assert (k <> "cql_filter" /\ k <> "viewParams" /\ k <> "format_options"
            /\ k <> "filter" /\ k <> "resultType" /\ k <> "startIndex"
            /\ k <> "resolvePath") as (? & ? & ? & ? & ? & ? & ?).
    { set_unfold.
      destruct Hk as [->|[->|[->|[->|[->|[->|[->|[->|[->|[->|[]]]]]]]]]]];
        repeat split; done. }
    rewrite lookup_applyGeoServerParams by done.
    rewrite !(lookup_setOpt_ne k "filter"), !(lookup_setOpt_ne k "resultType") by done.
    destruct (gpvCount options) as [c|]; simpl.
    - destruct (decide (k = "count")) as [-> | Hne].
      + by rewrite !lookup_insert_eq.
      + rewrite !(lookup_insert_ne _ "count") by done.
        by rewrite !lookup_setOpt_ne by done.
    - by rewrite !lookup_setOpt_ne by done. }
  repeat split; rewrite Hlookup by (destruct (is110 v); set_solver).
  all: destruct (gpvCount options) as [c|], (is110 v); simpl;
    repeat first [ rewrite lookup_insert_eq | rewrite lookup_insert_ne by done ];
    rewrite ?lookup_baseParams; reflexivity.
Qed.

End PropertyValue.

Lemma buildGetPropertyValueKvp_keys_witness :
  buildGetPropertyValueKvp (H := tablePlatform []) sampleValueQuery V1_1_0
    !! "count" = Some "5"
  /\ buildGetPropertyValueKvp (H := tablePlatform []) sampleValueQuery V1_1_0
       !! "outputFormat" = None.
Proof.
  destruct (buildGetPropertyValueKvp_keys (H := tablePlatform []) sampleValueQuery
              V1_1_0) as (_ & _ & Hcount & _ & _ & _ & Hformat & _).
  - intros k _. split; reflexivity.
  - split; [exact Hcount | exact Hformat].
Defined.

End KvpBuildersFacts.

(** ** Stored-query and capabilities parameters *)

Module SimpleKvpFacts.
Import JsString Js Xml Platform Version Gml Filter Kvp KvpBuilders.
Import KvpFacts KvpBuildersFacts.

Lemma lookup_buildSimpleKvp (request : string) (version : WfsVersion)
  (raw : option (gmap string string)) (k : string) :
  buildSimpleKvp request version raw !! k
  = match raw ≫= (fun m => m !! k) with
    | Some value => Some value
    | None => baseParams request version !! k
    end.
Proof.
  unfold buildSimpleKvp. rewrite lookup_assign.
  destruct raw as [m|]; simpl; [done |]. by rewrite lookup_empty.
Qed.

(** In the stored-query builders the identifier options are written
    after the caller's [raw.kvp] and so cannot be overridden by it: [id]
    of DropStoredQuery is always the option, and [storedQueryId] of
    DescribeStoredQueries is the joined list whenever the list is not
    empty (with no list, or an empty one, it is whatever [raw.kvp]
    gives).  [service], [version] and [request], written before
    [raw.kvp], are overridden by an entry of that name, and are "WFS",
    the version and the operation name otherwise. *)
Theorem stored_query_kvp_precedence :
  (forall (options : DropStoredQueryOptions) (v : WfsVersion),
      buildDropStoredQueryKvp options v !! "id" = Some (id options))
  /\ (forall (options : DescribeStoredQueriesOptions) (v : WfsVersion),
         buildDescribeStoredQueriesKvp options v !! "storedQueryId"
         = match nonEmptyList (storedQueryIds options) with
           | Some ids => Some (join "," ids)
           | None => (dsqRaw options ≫= Options.kvp) ≫= (fun m => m !! "storedQueryId")
           end)
  /\ (forall (request : string) (v : WfsVersion) (raw : option (gmap string string))
        (k : string),
         k ∈ ["service"; "version"; "request"] ->
         buildSimpleKvp request v raw !! k
         = match raw ≫= (fun m => m !! k) with
           | Some value => Some value
           | None => if bool_decide (k = "service") then Some "WFS"
                     else if bool_decide (k = "version") then Some v
                          else Some request
           end)
  /\ (forall (options : DropStoredQueryOptions) (v : WfsVersion) (k : string),
         k <> "id" ->
         buildDropStoredQueryKvp options v !! k
         = buildSimpleKvp "DropStoredQuery" v (dropRaw options ≫= Options.kvp) !! k)
  /\ (forall (options : ListStoredQueriesOptions) (v : WfsVersion),
         buildListStoredQueriesKvp options v
         = buildSimpleKvp "ListStoredQueries" v (lsqRaw options ≫= Options.kvp)).
Proof.
  split; [| split; [| split; [| split]]].
  - intros options v. unfold buildDropStoredQueryKvp. cbv zeta.
    apply lookup_insert_eq.
  - intros options v. unfold buildDescribeStoredQueriesKvp. cbv zeta.
    destruct (nonEmptyList (storedQueryIds options)) as [ids|]; simpl.
    + apply lookup_insert_eq.
    + rewrite lookup_buildSimpleKvp.
      destruct ((dsqRaw options ≫= Options.kvp) ≫= _); [done |].
      by rewrite lookup_baseParams.
  - intros request v raw k Hk. rewrite lookup_buildSimpleKvp, lookup_baseParams.
    destruct (raw ≫= _); [done |].
    set_unfold. destruct Hk as [->|[->|[->|[]]]]; reflexivity.
  - intros options v k Hk. unfold buildDropStoredQueryKvp. cbv zeta.
    by rewrite lookup_insert_ne.
  - reflexivity.
Qed.

End SimpleKvpFacts.

(** ** The version fallback chain ([core/version.ts]) *)

Module VersionChainFacts.
Import JsString Js Platform Version Client WfsClient.

(** With a fixed strategy the chain is that one version.  Otherwise it
    starts with the preferred version, holds the preferred version and
    every supported version and nothing else, and holds none of them
    twice; for the preferred version of a client without a fixed
    strategy it is the list of supported versions in its own order. *)
Theorem getVersionFallbackChain_shape (preferred : WfsVersion)
  (strategy : option string) :
  (forall v, fixedVersion strategy = Some v ->
             getVersionFallbackChain preferred strategy = [v])
  /\ (fixedVersion strategy = None ->
      head (getVersionFallbackChain preferred strategy) = Some preferred
      /\ NoDup (getVersionFallbackChain preferred strategy)
      /\ (forall v, v ∈ getVersionFallbackChain preferred strategy
                    <-> v = preferred \/ v ∈ SUPPORTED_VERSIONS))
  /\ (forall config, fixedVersion (versionStrategy config) = None ->
                     getVersionFallbackChain (resolveInitialVersion config)
                       (versionStrategy config)
                     = SUPPORTED_VERSIONS).
Proof.
  split; [| split].
  - intros v Hv. unfold getVersionFallbackChain. by rewrite Hv.
  - intros Hauto. unfold getVersionFallbackChain. rewrite Hauto.
    unfold SUPPORTED_VERSIONS, V2_0_2, V2_0_0, V1_1_0.
    assert (forall chain : list WfsVersion,
               bool_decide (NoDup chain) = true -> NoDup chain) as Hnodup.
    { intros chain. apply bool_decide_eq_true_1. }
    destruct (decide (preferred = "2.0.2")) as [-> | H202];
      [| destruct (decide (preferred = "2.0.0")) as [-> | H200];
         [| destruct (decide (preferred = "1.1.0")) as [-> | H110]]].
    1-3: match goal with
         | |- context [fold_left ?f ?l ?i] =>
             let chain := eval vm_compute in (fold_left f l i) in
             change (fold_left f l i) with chain
         end;
         split; [reflexivity |]; split; [by apply Hnodup |];
         intros v; rewrite !elem_of_cons, !elem_of_nil; tauto.
    cbv beta iota delta [fold_left].
    repeat (match goal with
            | |- context [@bool_decide ?P ?dec] =>
                rewrite (@bool_decide_eq_false_2 P dec)
                  by (rewrite ?elem_of_app, ?elem_of_cons, ?elem_of_nil; intros Hin;
                      decompose [or] Hin; congruence)
            end; cbv beta iota).
    cbn. split; [reflexivity |]. split.
    + repeat (apply NoDup_cons; split;
              [rewrite ?elem_of_cons, ?elem_of_nil; intros Hin;
               decompose [or] Hin; congruence |]).
      apply NoDup_nil_2.
    + intros v. rewrite !elem_of_cons, !elem_of_nil. tauto.
  - intros config Hauto. unfold getVersionFallbackChain, resolveInitialVersion.
    by rewrite Hauto.
Qed.

Lemma getVersionFallbackChain_shape_witness :
  getVersionFallbackChain V1_1_0 (Some "auto") = ["1.1.0"; "2.0.2"; "2.0.0"]
  /\ getVersionFallbackChain V2_0_2 (Some "2.0.0") = ["2.0.0"].
Proof.
  destruct (getVersionFallbackChain_shape V2_0_2 (Some "2.0.0")) as (Hfixed & _).
  split; [reflexivity | by apply Hfixed].
Defined.

End VersionChainFacts.

(** ** Version resolution *)

Module NegotiationFacts.
Import JsString Js Platform Version Options Errors Transport Client WfsClient.
Import NegotiationTerms.

Section Negotiation.
Context `{Externals}.
Variable config : WfsClientConfig.

(** The negotiation loop probes the versions of the chain in order,
    stops at the first probe that is answered without an error, and
    records the version it returns. *)
Lemma negotiate_probes (chain : list WfsVersion) (st : ClientState) :
  exists version st' n,
    negotiate config chain st = (Normal version, st')
    /\ n <= length chain
    /\ sent st' = sent st ++ map (probeRequest config) (take n chain)
    /\ negotiatedVersion st' = Some version.
Proof.
  revert st. induction chain as [|candidate rest IH]; intros st; cbn [negotiate].
  - exists DEFAULT_WFS_VERSION, (snd (setNegotiated DEFAULT_WFS_VERSION None st)), 0.
    repeat split; simpl; [lia | by rewrite app_nil_r].
  - unfold tryCatch at 1, bind at 1, transportRequest.
    fold (probeRequest config candidate).
    set (st1 := {| negotiatedVersion := negotiatedVersion st;
                   capabilities := capabilities st;
                   sent := sent st ++ [probeRequest config candidate] |}).
    assert (forall version st' n,
               negotiate config rest st1 = (Normal version, st') ->
               n <= length rest ->
               sent st' = sent st1 ++ map (probeRequest config) (take n rest) ->
               negotiatedVersion st' = Some version ->
               exists version0 st0 n0,
                 negotiate config rest st1 = (Normal version0, st0)
                 /\ n0 <= length (candidate :: rest)
                 /\ sent st0
                    = sent st ++ map (probeRequest config) (take n0 (candidate :: rest))
                 /\ negotiatedVersion st0 = Some version0) as Hnext.
    { intros version st' n Hrun Hn Hsent Hversion. exists version, st', (S n).
      repeat split; [done | simpl; lia | | done].
      rewrite Hsent. unfold st1. simpl. by rewrite <- app_assoc. }
    destruct (IH st1) as (version & st' & n & Hrun & Hn & Hsent & Hversion).
    destruct (axios config (sent st) (probeRequest config candidate))
      as [status headers data|e]; [| by eapply Hnext].
    unfold bind at 1, lift.
    destruct (ensureNoError GetCapabilities candidate _); [| by eapply Hnext].
    cbv zeta. unfold bind, setNegotiated, ret.
    eexists _, _, 1. split; [reflexivity |]. split; [simpl; lia |].
    split; reflexivity.
Qed.

(** A version named by the call wins over everything, a fixed strategy
    over the negotiated version, and a negotiated version that is kept
    in the client over a new negotiation: in these three cases no request
    is made.  Only a client without any of them negotiates; it then sends
    at most three capabilities probes, for the supported versions in
    their order, and keeps the version it returns. *)
Theorem resolveVersion_precedence (explicit : option WfsVersion) (st : ClientState) :
  (forall e, nonEmpty explicit = Some e ->
             resolveVersion config explicit st = (Normal e, st))
  /\ (nonEmpty explicit = None ->
      forall f, fixedVersion (versionStrategy config) = Some f ->
                resolveVersion config explicit st = (Normal f, st))
  /\ (nonEmpty explicit = None ->
      fixedVersion (versionStrategy config) = None ->
      forall c, nonEmpty (negotiatedVersion st) = Some c ->
                resolveVersion config explicit st = (Normal c, st))
  /\ (nonEmpty explicit = None ->
      fixedVersion (versionStrategy config) = None ->
      nonEmpty (negotiatedVersion st) = None ->
      exists version st' n,
        resolveVersion config explicit st = (Normal version, st')
        /\ n <= 3
        /\ sent st' = sent st ++ map (probeRequest config) (take n SUPPORTED_VERSIONS)
        /\ negotiatedVersion st' = Some version).
Proof.
  unfold resolveVersion. split; [| split; [| split]].
  - by intros e ->.
  - by intros -> f ->.
  - intros -> -> c Hc. unfold bind, getState. by rewrite Hc.
  - intros -> Hauto Hnone. rewrite Hauto. unfold bind at 1, getState. rewrite Hnone.
    unfold getVersionFallbackChain, resolveInitialVersion. rewrite Hauto.
    change (fold_left _ SUPPORTED_VERSIONS [default DEFAULT_WFS_VERSION None])
      with SUPPORTED_VERSIONS.
    apply negotiate_probes.
Qed.

End Negotiation.

End NegotiationFacts.

(** ** The text of numbers *)

Module TextFacts.
Import JsString Js JsStringFacts TextTerms.

Lemma allChars_app (test : ascii -> bool) (a b : string) :
  allChars test (a +:+ b) = allChars test a && allChars test b.
Proof.
  induction a as [|c a IH]; norm_app; simpl; [done |].
  by rewrite IH, andb_assoc.
Qed.

Lemma allChars_impl (p q : ascii -> bool) (s : string) :
  (forall c, p c = true -> q c = true) -> allChars p s = true -> allChars q s = true.
Proof.
  intros Himpl. induction s as [|c s IH]; simpl; [done |].
  intros [Hc Hs]%andb_true_iff. by rewrite (Himpl c Hc), IH.
Qed.

Lemma allChars_occurs (test : ascii -> bool) (c : ascii) (s : string) :
  allChars test s = true -> occurs c s -> test c = true.
Proof.
  induction s as [|a s IH]; simpl; [done |].
  intros [Ha Hs]%andb_true_iff [-> | Hin]; [done | by apply IH].
Qed.

Lemma digits_string_of_uint (d : Decimal.uint) :
  allChars isDigit (NilEmpty.string_of_uint d) = true.
Proof. induction d; simpl; done. Qed.

Lemma digits_NilZero_string_of_uint (d : Decimal.uint) :
  allChars isDigit (NilZero.string_of_uint d) = true.
Proof. destruct d; try done; apply (digits_string_of_uint (_ d)). Qed.

(** The text of an integer is an optional minus sign and digits. *)
Lemma numberToString_decimal (z : Z) :
  allChars isDecimalChar (numberToString (Int z)) = true.
Proof.
  assert (forall d, allChars isDecimalChar (NilZero.string_of_uint d) = true) as Hd.
  { intros d. eapply allChars_impl; [| apply digits_NilZero_string_of_uint].
    intros c Hc. unfold isDecimalChar. by rewrite Hc. }
  unfold numberToString. destruct z as [|p|p]; simpl; [done | apply Hd |].
  apply Hd.
Qed.

Lemma lowerChar_decimal (c : ascii) : isDecimalChar c = true -> lowerChar c = c.
Proof.
  unfold isDecimalChar, isDigit, Serializers.inRange, lowerChar.
  intros [[Hlo Hhi]%andb_true_iff | ->%bool_decide_eq_true]%orb_true_iff;
    [| reflexivity].
  apply N.leb_le in Hlo, Hhi.
  assert ((65 <=? N_of_ascii c)%N = false) as -> by (apply N.leb_gt; lia).
  assert ((192 <=? N_of_ascii c)%N = false) as -> by (apply N.leb_gt; lia).
  reflexivity.
Qed.

Lemma toLowerCase_decimal (s : string) :
  allChars isDecimalChar s = true -> toLowerCase s = s.
Proof.
  induction s as [|c s IH]; simpl; [done |].
  intros [Hc Hs]%andb_true_iff. by rewrite lowerChar_decimal, IH.
Qed.

Lemma toLowerCase_app (a b : string) :
  toLowerCase (a +:+ b) = toLowerCase a +:+ toLowerCase b.
Proof. induction a as [|c a IH]; norm_app; simpl; [done |]. by rewrite IH. Qed.

(** A pattern whose first character is not in the text is not in it. *)
Lemma includes_first_char_absent (c : ascii) (pat s : string) :
  ~ occurs c s -> includes (String c pat) s = false.
Proof.
  intros Hno. unfold includes. apply bool_decide_eq_false_2.
  intros [i Hi].
  assert (indexOf (String c pat) s <> None) as Hfound by congruence.
  apply Hfound, indexOf_None. intros (pre & post & ->).
  apply Hno. rewrite occurs_app, app_cons. simpl. tauto.
Qed.

End TextFacts.

(** ** Failures that are not retried *)

Module FailureFacts.
Import JsString Js Xml Platform Version Gml Filter Options Errors Helpers.
Import FeatureCollection Serializers Kvp OwsExceptionParser CapabilitiesParser Transport.
Import Client WfsClient.
Import JsStringFacts TextTerms TextFacts ClientTerms ClientFacts FailureTerms.

(** The exception that stands for an HTTP failure without an exception
    report does not indicate an output-format problem, whatever the
    status. *)
Lemma defaultException_not_output_format (status : Z) (message : string)
  (context : WfsErrorContext) (payload : JsValue) :
  isOutputFormatException
    (OwsExceptionError message context (defaultException status) payload)
  = Normal false.
Proof.
  unfold isOutputFormatException, defaultException, someC, indicatesOutputFormat.
  cbn [text exceptionCode toLowerCaseOf nullish isNullish bindC].
  rewrite toLowerCase_app.
  rewrite (toLowerCase_decimal (numberToString (Int status)))
    by apply numberToString_decimal.
  rewrite includes_first_char_absent; [reflexivity |].
  rewrite occurs_app. intros [Hin | Hin].
  - revert Hin. vm_compute. intuition discriminate.
  - by apply (allChars_occurs _ _ _ (numberToString_decimal status)) in Hin.
Qed.

Section Failures.
Context `{Externals}.
Variable config : WfsClientConfig.

(** [ensureNoError] lets a response pass exactly when its status is
    below 400 and its body holds no exception; the error it throws
    otherwise always carries at least one exception, the parsed ones or
    else the one that stands for the HTTP status. *)
Lemma ensureNoError_outcomes (operation : WfsOperation) (version : WfsVersion)
  (response : TransportResponse) :
  let parsed := parseOwsExceptionPayload (data response) in
  ((status response <? 400)%Z = true -> parsed = [] ->
   ensureNoError operation version response = Normal tt)
  /\ ((400 <=? status response)%Z = true \/ parsed <> [] ->
      exists message context exceptions,
        ensureNoError operation version response
        = Thrown (OwsExceptionError message context exceptions (data response))
        /\ exceptions <> []
        /\ exceptions = (if bool_decide (parsed = [])
                         then defaultException (status response) else parsed)
        /\ ctxOperation context = operation
        /\ ctxStatus context = Some (status response)).
Proof.
  intros parsed. unfold ensureNoError. fold parsed. split.
  - intros Hstatus ->. apply Z.ltb_lt in Hstatus.
    assert ((400 <=? status response)%Z = false) as -> by (apply Z.leb_gt; lia).
    reflexivity.
  - intros Hfail.
    assert ((400 <=? status response)%Z || negb (bool_decide (parsed = [])) = true)
      as ->.
    { destruct Hfail as [-> | Hne]; [done |].
      rewrite (bool_decide_eq_false_2 _ Hne). apply orb_true_r. }
    eexists _, _, _. split; [reflexivity |].
    case_bool_decide as Hparsed; simpl; repeat split; done.
Qed.

(** A GetFeature exchange that is answered with a status of 400 or more
    and a body without an exception ends the call with the error for the
    HTTP status: one request has been made and nothing is retried. *)
Theorem getFeature_http_failure_is_final (options : GetFeatureOptions)
  (st0 st1 : ClientState) (version : WfsVersion) (body : option string)
  (status : Z) (headers data : JsValue) :
  let style := default GET (requestStyle options) in
  let base := baseOptionsOf config options in
  let request := attemptRequest config st1 version style base body in
  let response :=
    responseOf
      (operationRequest config st1
         {| spOperation := GetFeature; spVersion := version; spRequestStyle := style;
            spKvp := Some (buildGetFeatureKvp base version); spXml := body;
            spRawHeaders := Options.raw base ≫= Options.headers |})
      status headers data in
  resolveVersion config (Options.version options) st0 = (Normal version, st1) ->
  attemptBody config version style base = Normal body ->
  axios config (sent st1) request = AxiosResponse status headers data ->
  (400 <= status)%Z ->
  parseOwsExceptionPayload (Transport.data response) = [] ->
  exists message context,
    getFeature config options st0
    = (Thrown (OwsExceptionError message context (defaultException status)
                 (Transport.data response)),
       afterRequest st1 request)
    /\ ctxStatus context = Some status.
Proof.
  intros style base request response Hversion Hbody Hanswer Hstatus Hparsed.
  rewrite (getFeature_unfold _ _ _ _ _ Hversion). fold style base.
  rewrite getFeatureAttempt_unfold, Hbody. cbv zeta. fold request.
  rewrite Hanswer. fold response.
  destruct (ensureNoError_outcomes GetFeature version response) as [_ Hthrows].
  destruct Hthrows as (message & context & exceptions & -> & _ & -> & _ & Hctx).
  { left. by apply Z.leb_le. }
  rewrite Hparsed. rewrite bool_decide_eq_true_2 by done.
  change (Transport.status response) with status.
  rewrite defaultException_not_output_format.
  by exists message, context.
Qed.

End Failures.

Lemma getFeature_http_failure_is_final_witness :
  exists message context,
    getFeature (H := plainTextPlatform) (sampleConfig failingService)
      (roadsQuery None) freshClient
    = (Thrown (OwsExceptionError message context (defaultException 503)
                 (JStr "Service Unavailable")),
       afterRequest freshClient
         (attemptRequest (H := plainTextPlatform) (sampleConfig failingService)
            freshClient "2.0.2" GET
            (baseOptionsOf (sampleConfig failingService) (roadsQuery None)) None))
    /\ ctxStatus context = Some 503%Z.
Proof.
  apply (getFeature_http_failure_is_final (H := plainTextPlatform)
           (sampleConfig failingService) (roadsQuery None) freshClient freshClient
           "2.0.2" None 503 (JObj [("content-type", JStr "text/plain")])
           (JStr "Service Unavailable")); try reflexivity.
  lia.
Defined.

End FailureFacts.

(** ** The request of an operation *)

Module RequestFacts.
Import JsString Js Platform Version Options Errors CapabilitiesParser Transport.
Import Client WfsClient ClientTerms RequestTerms.

Section Requests.
Context `{Externals}.
Variable config : WfsClientConfig.

(** [sendOperation] hands exactly one request to the HTTP library. *)
Lemma sendOperation_sent (params : SendOperationParams) (st : ClientState) :
  snd (sendOperation config params st) = afterRequest st (handed config st params).
Proof.
  unfold sendOperation, bind, getState, transportRequest, lift, ret. cbv zeta.
  fold (handed config st params).
  destruct (axios config (sent st) (handed config st params)) as [status hs d | e];
    [| reflexivity].
  destruct (ensureNoError _ _ _); reflexivity.
Qed.

(** Whatever the answer, [sendOperation] hands the HTTP library
    one request.  Each of its headers is the caller's raw header of that
    name if there is one, otherwise the XML content type when the name
    is [Content-Type] and the style is POST, otherwise the client's
    default header of that name.  The parameters travel only with GET
    and the body only with POST; the time limit and the credentials are
    those of the configuration. *)
Theorem sendOperation_request_shape (params : SendOperationParams)
  (st : ClientState) (k : string) :
  let request := handed config st params in
  sent (snd (sendOperation config params st)) = sent st ++ [request]
  /\ axHeaders request !! k
     = match spRawHeaders params ≫= (fun raw => raw !! k) with
       | Some v => Some v
       | None =>
           if bool_decide (spRequestStyle params = POST)
              && bool_decide (k = "Content-Type")
           then Some "text/xml; charset=UTF-8"
           else defaultHeaders config ≫= (fun headers => headers !! k)
       end
  /\ axMethod request = spRequestStyle params
  /\ axParams request
     = match spRequestStyle params with GET => spKvp params | POST => None end
  /\ axData request
     = match spRequestStyle params with POST => spXml params | GET => None end
  /\ axTimeout request = requestMs config
  /\ axAuth request = auth config.
Proof.
  intros request. split; [by rewrite sendOperation_sent |].
  split; [| by repeat split].
  unfold request, handed, axiosConfigOf, operationRequest.
  cbn [axHeaders reqHeaders default]. change (id ?m) with m.
  rewrite !lookup_union.
  assert (default ∅ (spRawHeaders params) !! k
          = spRawHeaders params ≫= (fun raw => raw !! k)) as ->.
  { destruct (spRawHeaders params); [reflexivity | apply lookup_empty]. }
  assert (default ∅ (defaultHeaders config) !! k
          = defaultHeaders config ≫= (fun headers => headers !! k)) as ->.
  { destruct (defaultHeaders config); [reflexivity | apply lookup_empty]. }
  destruct (spRawHeaders params ≫= _) as [v|]; [by rewrite !union_Some_l |].
  rewrite !(left_id_L None union).
  destruct (spRequestStyle params); cbn [bool_decide andb].
  - rewrite bool_decide_eq_false_2 by done. cbn [andb].
    by rewrite lookup_empty, (left_id_L None union).
  - rewrite bool_decide_eq_true_2 by done. cbn [andb].
    case_bool_decide as Hk.
    + subst k. by rewrite lookup_singleton_eq, union_Some_l.
    + by rewrite lookup_singleton_ne, (left_id_L None union).
Qed.

(** The address of an operation: the one the configuration pins
    it to, when that is a non-empty string, whatever the capabilities
    say; otherwise the address the cached capabilities advertise for the
    request style, or for the other style when that one is missing;
    otherwise the base address.  Without cached capabilities, or for an
    operation they do not list, it is the base address. *)
Theorem resolveEndpoint_precedence (st : ClientState) (params : SendOperationParams) :
  let operation := spOperation params in
  let style := spRequestStyle params in
  let url := axUrl (handed config st params) in
  url = resolveEndpoint config st operation style
  /\ (forall explicit, pinned config operation = Some explicit ->
        explicit <> "" -> url = explicit)
  /\ (pinned config operation = None \/ pinned config operation = Some "" ->
      (advertised st operation = None -> url = baseUrl config)
      /\ (forall binding, advertised st operation = Some binding ->
            url = match style, bindingGet binding, bindingPost binding with
                  | GET, Some get, _ => get
                  | GET, None, Some post => post
                  | POST, _, Some post => post
                  | POST, Some get, None => get
                  | _, None, None => baseUrl config
                  end)).
Proof.
  intros operation style url. split; [reflexivity |].
  change url with (resolveEndpoint config st operation style).
  clearbody operation style. clear url.
  unfold resolveEndpoint, pinned, advertised.
  split.
  - intros explicit -> Hexplicit. by destruct explicit.
  - intros Hpinned.
    assert (nonEmpty (endpoints config ≫= assoc (operationName operation)) = None)
      as -> by (by destruct Hpinned as [-> | ->]).
    split.
    + by intros ->.
    + intros binding ->. unfold pickBinding, FeatureCollection.orElse.
      by destruct style, (bindingGet binding), (bindingPost binding).
Qed.

End Requests.

End RequestFacts.

(** ** Coordinates written and read back *)

Module CoordinateFacts.
Import JsString Js Gml Helpers FeatureCollection.
Import JsStringFacts TextTerms TextFacts CoordinateTerms.

Lemma isDigit_cases (c : ascii) :
  isDigit c = true ->
  c ∈ ["0"; "1"; "2"; "3"; "4"; "5"; "6"; "7"; "8"; "9"]%char.
Proof.
  destruct c as [[] [] [] [] [] [] [] []]; intros Hc; try discriminate Hc;
    apply (bool_decide_unpack _); vm_compute; exact I.
Qed.

Lemma decimal_solid (c : ascii) : isDecimalChar c = true -> solid c = true.
Proof.
  destruct c as [[] [] [] [] [] [] [] []]; intros Hc; try discriminate Hc;
    vm_compute; reflexivity.
Qed.

Lemma solid_not_white (c : ascii) : solid c = true -> isWhiteSpace c = false.
Proof.
  unfold solid, isSeparator. intros Hc%negb_true_iff.
  by apply orb_false_iff in Hc as [Hc _].
Qed.

Lemma trimEnd_solid (s : string) : allChars solid s = true -> trimEnd s = s.
Proof.
  induction s as [|c s IH]; simpl; [done |].
  intros [Hc Hs]%andb_true_iff. rewrite (IH Hs).
  destruct s; [by rewrite (solid_not_white c Hc) | done].
Qed.

Lemma trimEnd_app (a b : string) :
  trimEnd b = b -> b <> "" -> trimEnd (a +:+ b) = a +:+ b.
Proof.
  intros Hb Hne. induction a as [|c a IH]; norm_app; [done |].
  simpl. rewrite IH. destruct a; norm_app; [by destruct b | done].
Qed.

Lemma trimStart_solid (s : string) : allChars solid s = true -> trimStart s = s.
Proof.
  destruct s as [|c s]; simpl; [done |].
  intros [Hc _]%andb_true_iff. by rewrite (solid_not_white c Hc).
Qed.

Lemma trimStart_app (a b : string) :
  a <> "" -> allChars solid a = true -> trimStart (a +:+ b) = a +:+ b.
Proof.
  destruct a as [|c a]; [done |]. intros _. norm_app. simpl.
  intros [Hc _]%andb_true_iff. by rewrite (solid_not_white c Hc).
Qed.

Lemma trim_solid (s : string) : allChars solid s = true -> trim s = s.
Proof. intros Hs. unfold trim. by rewrite trimStart_solid, trimEnd_solid. Qed.

(** *** [Number(String(n))] *)

Lemma stringToNumber_digits (r : string) :
  r <> "" -> allChars isDigit r = true ->
  stringToNumber r
  = match NilZero.uint_of_string r with
    | Some d => Int (Z.of_uint d)
    | None => NaN
    end.
Proof.
  intros Hne Hdigits.
  assert (allChars solid r = true) as Hsolid.
  { eapply allChars_impl; [| exact Hdigits]. intros c Hc. apply decimal_solid.
    unfold isDecimalChar. by rewrite Hc. }
  unfold stringToNumber. rewrite (trim_solid r Hsolid).
  destruct r as [|c r]; [done |]. simpl in Hdigits.
  apply andb_true_iff in Hdigits as [Hc _]. apply isDigit_cases in Hc.
  rewrite !elem_of_cons, elem_of_nil in Hc.
  rewrite !bool_decide_eq_false_2 by (intros [= ->]; decompose [or] Hc; done).
  cbn [orb].
  decompose [or] Hc; try subst c; try done;
    by destruct (NilZero.uint_of_string _).
Qed.

Lemma string_of_uint_nonempty (p : positive) :
  NilZero.string_of_uint (Pos.to_uint p) <> "".
Proof.
  pose proof (DecimalPos.Unsigned.to_uint_nonnil p) as Hnil.
  destruct (Pos.to_uint p); done.
Qed.

Lemma uint_of_string_of_pos (p : positive) :
  Z.of_uint <$> NilZero.uint_of_string (NilZero.string_of_uint (Pos.to_uint p))
  = Some (Z.pos p).
Proof.
  rewrite NilZero.usu by apply DecimalPos.Unsigned.to_uint_nonnil.
  simpl. unfold Z.of_uint. by rewrite DecimalPos.Unsigned.of_to.
Qed.

Lemma stringToNumber_numberToString (z : Z) :
  stringToNumber (numberToString (Int z)) = Int z.
Proof.
  destruct z as [|p|p]; [reflexivity | |].
  - unfold numberToString. cbn [Z.to_int NilZero.string_of_int].
    rewrite stringToNumber_digits;
      [| apply string_of_uint_nonempty | apply digits_NilZero_string_of_uint].
    pose proof (uint_of_string_of_pos p) as Hp.
    destruct (NilZero.uint_of_string _) as [d|]; [| done].
    by injection Hp as ->.
  - pose proof (numberToString_decimal (Z.neg p)) as Hdec.
    assert (allChars solid (numberToString (Int (Z.neg p))) = true) as Hsolid.
    { eapply allChars_impl; [apply decimal_solid | exact Hdec]. }
    unfold stringToNumber. rewrite (trim_solid _ Hsolid).
    unfold numberToString. cbn [Z.to_int NilZero.string_of_int].
    pose proof (string_of_uint_nonempty p) as Hne.
    pose proof (digits_NilZero_string_of_uint (Pos.to_uint p)) as Hdigits.
    pose proof (uint_of_string_of_pos p) as Hp.
    destruct (NilZero.string_of_uint (Pos.to_uint p)) as [|c r] eqn:Hr; [done |].
    simpl in Hdigits. apply andb_true_iff in Hdigits as [Hc _].
    apply isDigit_cases in Hc. rewrite !elem_of_cons, elem_of_nil in Hc.
    rewrite !bool_decide_eq_false_2 by (intros [= ->]; decompose [or] Hc; done).
    cbn [orb].
    destruct (NilZero.uint_of_string (String c r)) as [d|]; [| done].
    rewrite Hp. reflexivity.
Qed.

(** *** Splitting a joined list *)

Lemma tokensGo_solid (current x s : string) :
  allChars solid x = true ->
  tokensGo isSeparator current (x +:+ s) = tokensGo isSeparator (current +:+ x) s.
Proof.
  revert current. induction x as [|c x IH]; intros current; norm_app.
  - by rewrite app_empty_r.
  - intros [Hc Hx]%andb_true_iff. cbn [allChars] in *. simpl.
    apply negb_true_iff in Hc. rewrite Hc, (IH _ Hx).
    by rewrite app_assoc.
Qed.

Lemma tokens_join (l : list string) :
  Forall piece l -> tokens isSeparator (join " " l) = l.
Proof.
  unfold tokens. induction l as [|x [|y rest] IH]; intros Hl.
  - reflexivity.
  - apply Forall_cons in Hl as [[Hne Hx] _]. cbn [join].
    rewrite <- (app_empty_r x) at 1. rewrite tokensGo_solid by done.
    norm_app. simpl. by rewrite bool_decide_eq_false_2.
  - apply Forall_cons in Hl as [[Hne Hx] Hrest]. cbn [join] in *.
    rewrite tokensGo_solid by done. norm_app. simpl.
    rewrite bool_decide_eq_false_2 by done. simpl. f_equal. by apply IH.
Qed.

Lemma join_nonempty (sep : string) (l : list string) :
  Forall piece l -> l <> [] -> join sep l <> "".
Proof.
  destruct l as [|x [|y rest]]; [done | |]; intros [[Hne _] _]%Forall_cons _;
    cbn [join]; [done |]. by destruct x.
Qed.

Lemma trim_join (l : list string) :
  Forall piece l -> trim (join " " l) = join " " l.
Proof.
  intros Hl. unfold trim.
  assert (trimStart (join " " l) = join " " l) as ->.
  { destruct l as [|x [|y rest]]; [done | |];
      apply Forall_cons in Hl as [[Hne Hx] _]; cbn [join].
    - by apply trimStart_solid.
    - by apply trimStart_app. }
  induction l as [|x [|y rest] IH]; [done | |].
  - apply Forall_cons in Hl as [[Hne Hx] _]. by apply trimEnd_solid.
  - apply Forall_cons in Hl as [_ Hrest]. cbn [join] in *.
    rewrite <- app_assoc. apply trimEnd_app; [by apply IH |].
    by apply (join_nonempty " " (y :: rest)).
Qed.

Lemma join_app (sep : string) (a b : list string) :
  a <> [] -> b <> [] -> join sep (a ++ b) = join sep a +:+ sep +:+ join sep b.
Proof.
  intros Ha Hb. induction a as [|x [|y a] IH]; [done | |].
  - destruct b; done.
  - cbn [app join] in *. rewrite IH by done. by rewrite !app_assoc.
Qed.

Lemma numberToString_piece (n : number) :
  isSafeInteger n = true -> piece (numberToString n).
Proof.
  destruct n as [z| | |]; try done. intros _. split.
  - destruct z as [|p|p]; [done | apply string_of_uint_nonempty | done].
  - eapply allChars_impl; [apply decimal_solid | apply numberToString_decimal].
Qed.

Lemma parseNumbers_join (numbers : list number) :
  forallb isSafeInteger numbers = true ->
  parseNumbers (join " " (map numberToString numbers)) = numbers.
Proof.
  intros Hsafe. unfold parseNumbers.
  assert (Forall piece (map numberToString numbers)) as Hpieces.
  { apply Forall_map, Forall_forall. intros n Hn. apply numberToString_piece.
    rewrite forallb_forall in Hsafe. by apply Hsafe, list_elem_of_In. }
  rewrite trim_join, tokens_join by done.
  rewrite map_map. rewrite forallb_forall in Hsafe.
  induction numbers as [|n numbers IH]; [done |]. cbn [map]. f_equal.
  - destruct n as [z| | |]; try (exfalso; by specialize (Hsafe _ (in_eq _ _))).
    apply stringToNumber_numberToString.
  - apply IH.
    + intros x Hx. apply Hsafe. by right.
    + by apply Forall_cons in Hpieces as [_ ?].
Qed.

(** *** Cutting into positions *)

Lemma coordList_concat (positions : list Position) :
  Forall (fun position => position <> []) positions ->
  coordList positions = coords (List.concat positions).
Proof.
  unfold coordList, coords.
  induction positions as [|p [|q rest] IH]; intros Hne; [done | |].
  - cbn [map List.concat join]. by rewrite app_nil_r.
  - apply Forall_cons in Hne as [Hp Hrest].
    change (List.concat (p :: q :: rest)) with (p ++ List.concat (q :: rest)).
    rewrite map_app, join_app.
    + rewrite <- (IH Hrest). reflexivity.
    + by destruct p.
    + apply Forall_cons in Hrest as [Hq _]. by destruct q.
Qed.

Lemma chunks_concat {A} (size fuel : nat) (positions : list (list A)) :
  2 <= size -> Forall (fun position => length position = size) positions ->
  length positions <= fuel ->
  chunks fuel size (List.concat positions) = positions.
Proof.
  intros Hsize. revert fuel.
  induction positions as [|p rest IH]; intros fuel Hlen Hfuel.
  - by destruct fuel.
  - apply Forall_cons in Hlen as [Hp Hrest].
    destruct fuel as [|fuel]; [simpl in Hfuel; lia |].
    cbn [List.concat]. destruct p as [|a p]; [simpl in Hp; lia |].
    cbn [app chunks]. change (a :: p ++ List.concat rest)
      with ((a :: p) ++ List.concat rest).
    rewrite take_app_length', drop_app_length' by done.
    rewrite Hp. assert ((2 <=? size) = true) as -> by (apply Nat.leb_le; lia).
    cbn [app]. f_equal. apply IH; [done | simpl in Hfuel; lia].
Qed.

(** A list of positions that [coordList] has written is read back by
    [parseNumbers] and [toPositions] as it was, when the positions have
    the dimension the reader works with and their coordinates are safe
    integers; a single position written by [coords] is read back by
    [parseNumbers]. *)
Theorem coordinates_read_back (dimension : nat) (positions : list Position) :
  2 <= dimension ->
  forallb (safePosition dimension) positions = true ->
  parseNumbers (coordList positions) = List.concat positions
  /\ toPositions (parseNumbers (coordList positions)) (Int (Z.of_nat dimension))
     = positions
  /\ Forall (fun position => parseNumbers (coords position) = position) positions.
Proof.
  intros Hdimension Hsafe. rewrite forallb_forall in Hsafe.
  assert (Forall (fun position => length position = dimension) positions) as Hlen.
  { apply Forall_forall. intros p Hp%list_elem_of_In.
    specialize (Hsafe p Hp). apply andb_true_iff in Hsafe as [Hl _].
    by apply Nat.eqb_eq. }
  assert (Forall (fun position => forallb isSafeInteger position = true) positions)
    as Hints.
  { apply Forall_forall. intros p Hp%list_elem_of_In.
    specialize (Hsafe p Hp). by apply andb_true_iff in Hsafe as [_ ?]. }
  assert (parseNumbers (coordList positions) = List.concat positions) as Hread.
  { rewrite coordList_concat.
    - apply parseNumbers_join. apply forallb_forall. intros n Hn.
      apply in_concat in Hn as (p & Hp & Hn).
      rewrite Forall_forall in Hints. specialize (Hints p).
      rewrite <- list_elem_of_In in Hp. specialize (Hints Hp).
      rewrite forallb_forall in Hints. by apply Hints.
    - eapply Forall_impl; [exact Hlen |]. intros p Hp ->. simpl in Hp. lia. }
  split; [exact Hread |]. split.
  - rewrite Hread. unfold toPositions. rewrite Nat2Z.id.
    apply chunks_concat; [done | done |].
    clear -Hlen Hdimension. induction Hlen as [|p rest Hp _ IH]; [done |].
    cbn [List.concat]. rewrite List.length_app. simpl. lia.
  - eapply Forall_impl; [exact Hints |]. intros p Hp. by apply parseNumbers_join.
Qed.

Lemma coordinates_read_back_witness :
  parseNumbers (coordList [[Int 23; Int 37]; [Int (-24); Int 38]; [Int 0; Int 39]])
  = [Int 23; Int 37; Int (-24); Int 38; Int 0; Int 39]
  /\ toPositions
       (parseNumbers (coordList [[Int 23; Int 37]; [Int (-24); Int 38]; [Int 0; Int 39]]))
       (Int 2)
     = [[Int 23; Int 37]; [Int (-24); Int 38]; [Int 0; Int 39]]
  /\ Forall (fun position => parseNumbers (coords position) = position)
       [[Int 23; Int 37]; [Int (-24); Int 38]; [Int 0; Int 39]].
Proof.
  apply (coordinates_read_back 2
           [[Int 23; Int 37]; [Int (-24); Int 38]; [Int 0; Int 39]]);
    [lia | reflexivity].
Defined.

End CoordinateFacts.

(** ** Parsers that read element names without their prefix *)

Module PrefixFacts.
Import JsString Js Platform Errors Helpers.
Import LockParser OwsExceptionParser CapabilitiesParser.
Import JsStringFacts FeatureCollectionFacts PrefixTerms.

#[local] Abbreviation same := (fun a b : JsValue => sameTree a b = true).

(** *** The relation *)

Lemma all2_Forall2 {A B} (f : A -> B -> bool) (l : list A) (l' : list B) :
  all2 f l l' = true <-> Forall2 (fun x y => f x y = true) l l'.
Proof.
  revert l'. induction l as [|x l IH]; intros [|y l']; simpl; split; try done;
    try (intros Hall; inversion Hall; fail).
  - intros [Hxy Hl]%andb_true_iff. constructor; [done | by apply IH].
  - intros Hall. inversion Hall; subst. apply andb_true_iff. split; [done | by apply IH].
Qed.

Lemma sameTree_arr (items items' : list JsValue) :
  sameTree (JArr items) (JArr items') = all2 sameTree items items'.
Proof. reflexivity. Qed.

Lemma sameTree_obj (fields fields' : list (string * JsValue)) :
  sameTree (JObj fields) (JObj fields')
  = all2 (fun kv kv' => sameKey (fst kv) (fst kv') && sameTree (snd kv) (snd kv'))
      fields fields'.
Proof.
  simpl. revert fields'.
  induction fields as [|[k v] fields IH]; intros [|[k' v'] fields']; simpl; try done.
  by rewrite IH.
Qed.

Lemma sameNumber_eq (a b : number) : sameNumber a b = true -> a = b.
Proof. destruct a, b; simpl; try done. by intros ->%Z.eqb_eq. Qed.

Lemma sameTree_leaf (a b : JsValue) : sameTree a b = true -> leaf a -> a = b.
Proof.
  destruct a, b; simpl; try done.
  - by intros ->%bool_decide_eq_true.
  - by intros ->%sameNumber_eq.
  - by intros ->%bool_decide_eq_true.
Qed.

Lemma sameTree_kind (a b : JsValue) :
  sameTree a b = true ->
  truthy a = truthy b /\ isNullish a = isNullish b /\ isNode a = isNode b.
Proof.
  intros Hsame.
  destruct a; try (by rewrite <- (sameTree_leaf _ _ Hsame I));
    destruct b; done.
Qed.

Lemma sameTree_refl (v : JsValue) : sameTree v v = true.
Proof.
  induction v as [| | b | n | s | items IH | fields IH] using JsValue_tree_ind;
    try done.
  - by apply bool_decide_eq_true_2.
  - destruct n; simpl; [apply Z.eqb_refl | done..].
  - by apply bool_decide_eq_true_2.
  - rewrite sameTree_arr. apply all2_Forall2.
    induction IH; constructor; done.
  - rewrite sameTree_obj. apply all2_Forall2.
    induction IH as [|[k v] fields Hv _ IHfields]; constructor; [| done].
    apply andb_true_iff. split; [| done].
    unfold sameKey. by rewrite bool_decide_eq_true_2.
Qed.

Lemma sameKey_localName (k k' : string) :
  sameKey k k' = true -> localName k = localName k'.
Proof.
  unfold sameKey. intros [->%bool_decide_eq_true | Hk]%orb_true_iff; [done |].
  by apply andb_true_iff in Hk as [_ ?%bool_decide_eq_true].
Qed.

Lemma sameKey_exact (k k' key : string) :
  sameKey k k' = true -> exactKey key = true ->
  bool_decide (k = key) = bool_decide (k' = key).
Proof.
  unfold sameKey. intros [->%bool_decide_eq_true | Hk]%orb_true_iff Hkey; [done |].
  apply andb_true_iff in Hk as [[Hk Hk']%andb_true_iff _].
  rewrite !bool_decide_eq_false_2; [done | |]; intros ->; by rewrite Hkey in *.
Qed.

Lemma sameKey_attribute (k k' : string) :
  sameKey k k' = true -> startsWith "@_" k = startsWith "@_" k'.
Proof.
  unfold sameKey. intros [->%bool_decide_eq_true | Hk]%orb_true_iff; [done |].
  apply andb_true_iff in Hk as [[Hk Hk']%andb_true_iff _].
  unfold exactKey in Hk, Hk'.
  apply negb_true_iff, orb_false_iff in Hk as [-> _].
  by apply negb_true_iff, orb_false_iff in Hk' as [-> _].
Qed.

(** The children of two related nodes, with what an induction provides
    for them. *)
Lemma related_items (Q : JsValue -> JsValue -> Prop) (items items' : list JsValue) :
  Forall (fun x => forall y, sameTree x y = true -> Q x y) items ->
  all2 sameTree items items' = true ->
  Forall2 (fun x y => sameTree x y = true /\ Q x y) items items'.
Proof.
  intros IH Hall%all2_Forall2. revert IH.
  induction Hall as [|x y items items' Hxy _ IHall]; intros IH; constructor.
  - apply Forall_cons in IH as [Hx _]. by split; [| apply Hx].
  - apply IHall. by apply Forall_cons in IH as [_ ?].
Qed.

Lemma related_fields (Q : JsValue -> JsValue -> Prop)
  (fields fields' : list (string * JsValue)) :
  Forall (fun kv => forall y, sameTree (snd kv) y = true -> Q (snd kv) y) fields ->
  sameTree (JObj fields) (JObj fields') = true ->
  Forall2 (fun kv kv' =>
             sameKey (fst kv) (fst kv') = true
             /\ sameTree (snd kv) (snd kv') = true /\ Q (snd kv) (snd kv'))
    fields fields'.
Proof.
  rewrite sameTree_obj. intros IH Hall%all2_Forall2. revert IH.
  induction Hall as [|x y fields fields' Hxy _ IHall]; intros IH; constructor.
  - apply Forall_cons in IH as [Hx _].
    apply andb_true_iff in Hxy as [Hk Hv]. by repeat split; [.. | apply Hx].
  - apply IHall. by apply Forall_cons in IH as [_ ?].
Qed.

(** *** The loops over the entries of a node *)

Lemma firstSome_related {A A' B B'} (S : B -> B' -> Prop)
  (f : A -> option B) (g : A' -> option B') (l : list A) (l' : list A') :
  Forall2 (fun x y => option_Forall2 S (f x) (g y)) l l' ->
  option_Forall2 S (firstSome f l) (firstSome g l').
Proof.
  induction 1 as [|x y l l' Hxy _ IH]; simpl; [constructor |].
  destruct (f x), (g y); inversion Hxy; subst; [by constructor | exact IH].
Qed.

Lemma firstSomeFrom_related {A A' B B'} (S : B -> B' -> Prop)
  (f : nat -> A -> option B) (g : nat -> A' -> option B') (i : nat)
  (l : list A) (l' : list A') :
  Forall2 (fun x y => forall j, option_Forall2 S (f j x) (g j y)) l l' ->
  option_Forall2 S (firstSomeFrom f i l) (firstSomeFrom g i l').
Proof.
  intros Hall. revert i.
  induction Hall as [|x y l l' Hxy _ IH]; intros i; simpl; [constructor |].
  specialize (Hxy i).
  destruct (f i x), (g i y); inversion Hxy; subst; [by constructor | apply IH].
Qed.

Lemma flat_map_related {A A' B B'} (S : B -> B' -> Prop)
  (f : A -> list B) (g : A' -> list B') (l : list A) (l' : list A') :
  Forall2 (fun x y => Forall2 S (f x) (g y)) l l' ->
  Forall2 S (flat_map f l) (flat_map g l').
Proof.
  induction 1 as [|x y l l' Hxy _ IH]; simpl; [constructor |].
  by apply Forall2_app.
Qed.

Lemma flatFrom_related {A A' B B'} (S : B -> B' -> Prop)
  (f : nat -> A -> list B) (g : nat -> A' -> list B') (i : nat)
  (l : list A) (l' : list A') :
  Forall2 (fun x y => forall j, Forall2 S (f j x) (g j y)) l l' ->
  Forall2 S (flatFrom f i l) (flatFrom g i l').
Proof.
  intros Hall. revert i.
  induction Hall as [|x y l l' Hxy _ IH]; intros i; simpl; [constructor |].
  by apply Forall2_app.
Qed.

Lemma map_related {A A' B B'} (S : B -> B' -> Prop) (f : A -> B) (g : A' -> B')
  (l : list A) (l' : list A') :
  Forall2 (fun x y => S (f x) (g y)) l l' -> Forall2 S (map f l) (map g l').
Proof. induction 1; simpl; by constructor. Qed.

Lemma filter_related {A A'} (S : A -> A' -> Prop) (p : A -> bool) (q : A' -> bool)
  (l : list A) (l' : list A') :
  (forall x y, S x y -> p x = q y) ->
  Forall2 S l l' -> Forall2 S (List.filter p l) (List.filter q l').
Proof.
  intros Hpq. induction 1 as [|x y l l' Hxy _ IH]; simpl; [constructor |].
  rewrite (Hpq x y Hxy). destruct (q y); [by constructor | exact IH].
Qed.

Lemma head_related {A A'} (S : A -> A' -> Prop) (l : list A) (l' : list A') :
  Forall2 S l l' -> option_Forall2 S (head l) (head l').
Proof. destruct 1; simpl; by constructor. Qed.

Lemma Forall2_same_refl (l : list JsValue) : Forall2 same l l.
Proof. induction l; constructor; [apply sameTree_refl | done]. Qed.

(** *** The primitives on related values *)

Lemma ToString_related (a b : JsValue) :
  sameTree a b = true -> ToString a = ToString b.
Proof.
  revert b.
  induction a as [| | x | n | s | items IH | fields IH] using JsValue_tree_ind;
    intros b Hsame; try (by rewrite <- (sameTree_leaf _ _ Hsame I)).
  - destruct b as [| | | | |items'|]; try done.
    rewrite sameTree_arr in Hsame.
    pose proof (related_items _ _ _ IH Hsame) as Hall. clear IH Hsame.
    cbn [ToString]. f_equal.
    induction Hall as [|x y l l' [Hxy Hstr] _ IHall]; [done |].
    cbn [map]. f_equal; [| apply IHall].
    destruct x, y; try done; exact Hstr.
  - by destruct b.
Qed.

Lemma nullish_related (a a' b b' : JsValue) :
  sameTree a a' = true -> sameTree b b' = true ->
  sameTree (nullish a b) (nullish a' b') = true.
Proof.
  intros Ha Hb. unfold nullish.
  destruct (sameTree_kind _ _ Ha) as (_ & <- & _). by destruct (isNullish a).
Qed.

Lemma assoc_indexed_related (k : string) (i : nat) (items items' : list JsValue) :
  Forall2 same items items' ->
  option_Forall2 same (assoc k (indexed i items)) (assoc k (indexed i items')).
Proof.
  intros Hall. revert i.
  induction Hall as [|x y l l' Hxy _ IH]; intros i; simpl; [constructor |].
  destruct (bool_decide _); [by constructor | apply IH].
Qed.

Lemma assoc_fields_related (k : string) (fields fields' : list (string * JsValue)) :
  exactKey k = true ->
  sameTree (JObj fields) (JObj fields') = true ->
  option_Forall2 same (assoc k fields) (assoc k fields').
Proof.
  intros Hk Hsame.
  pose proof (related_fields (fun _ _ => True) fields fields') as Hall.
  specialize (Hall ltac:(by apply Forall_forall) Hsame). clear Hsame.
  induction Hall as [|[k1 v1] [k2 v2] l l' (Hkey & Hv & _) _ IH]; simpl;
    [constructor |].
  cbn [fst snd] in *. rewrite (sameKey_exact _ _ _ Hkey Hk).
  destruct (bool_decide _); [by constructor | apply IH].
Qed.

Lemma default_related (o o' : option JsValue) :
  option_Forall2 same o o' ->
  sameTree (default JUndefined o) (default JUndefined o') = true.
Proof. by destruct 1. Qed.

Lemma exactKey_not_length (k : string) :
  exactKey k = true -> bool_decide (k = "length") = false.
Proof. intros Hk. apply bool_decide_eq_false_2. by intros ->. Qed.

Lemma getProp_related (a b : JsValue) (k : string) :
  exactKey k = true -> sameTree a b = true ->
  sameTree (getProp a k) (getProp b k) = true.
Proof.
  intros Hk Hsame.
  destruct a as [| | | | |items|fields];
    try (rewrite <- (sameTree_leaf _ _ Hsame I); apply sameTree_refl).
  - destruct b as [| | | | |items'|]; try done. cbn [getProp].
    rewrite (exactKey_not_length k Hk).
    apply default_related, assoc_indexed_related. by apply all2_Forall2.
  - destruct b as [| | | | | |fields']; try done. cbn [getProp].
    by apply default_related, assoc_fields_related.
Qed.

Lemma asArray_related (a b : JsValue) :
  sameTree a b = true -> Forall2 same (asArray a) (asArray b).
Proof.
  intros Hsame.
  destruct a as [| | | | |items|fields];
    try (rewrite <- (sameTree_leaf _ _ Hsame I); apply Forall2_same_refl).
  - destruct b as [| | | | |items'|]; try done. by apply all2_Forall2.
  - destruct b as [| | | | | |fields']; try done.
    cbn [asArray]. by repeat constructor.
Qed.

(** *** The tree walks on related trees *)

Lemma valueText_unfold (node : JsValue) :
  valueText node
  = match node with
    | JNull | JUndefined => None
    | JStr _ | JNum _ | JBool _ => Some (ToString node)
    | _ =>
        let direct := getProp node "#text" in
        if negb (isNullish direct) then Some (ToString direct)
        else
          firstEntry
            (fun key value => if startsWith "@_" key then None else valueText value)
            node
    end.
Proof. by destruct node. Qed.

Lemma valueText_related (a b : JsValue) :
  sameTree a b = true -> valueText a = valueText b.
Proof.
  revert b.
  induction a as [| | x | n | s | items IH | fields IH] using JsValue_tree_ind;
    intros b Hsame; try (by rewrite <- (sameTree_leaf _ _ Hsame I)).
  - destruct b as [| | | | |items'|]; try done.
    rewrite !valueText_unfold. cbv zeta.
    pose proof (getProp_related _ _ "#text" eq_refl Hsame) as Hdirect.
    destruct (sameTree_kind _ _ Hdirect) as (_ & <- & _).
    rewrite (ToString_related _ _ Hdirect).
    destruct (negb _); [done |].
    apply option_eq_Forall2. cbn [firstEntry]. apply firstSomeFrom_related.
    eapply Forall2_impl; [apply (related_items _ _ _ IH Hsame) |].
    intros x y [_ Hxy] j. cbv beta. rewrite Hxy. by apply option_eq_Forall2.
  - destruct b as [| | | | | |fields']; try done.
    rewrite !valueText_unfold. cbv zeta.
    pose proof (getProp_related _ _ "#text" eq_refl Hsame) as Hdirect.
    destruct (sameTree_kind _ _ Hdirect) as (_ & <- & _).
    rewrite (ToString_related _ _ Hdirect).
    destruct (negb _); [done |].
    apply option_eq_Forall2. cbn [firstEntry]. apply firstSome_related.
    eapply Forall2_impl; [apply (related_fields
              (fun v v' => valueText v = valueText v') _ _ IH Hsame) |].
    intros [k v] [k' v'] (Hk & _ & Hv). cbn [fst snd] in *.
    rewrite (sameKey_attribute _ _ Hk), Hv. by apply option_eq_Forall2.
Qed.

Lemma getNodeByLocalName_related (expected : string) (a b : JsValue) :
  sameTree a b = true ->
  option_Forall2 same (getNodeByLocalName a expected) (getNodeByLocalName b expected).
Proof.
  revert b.
  induction a as [| | x | n | s | items IH | fields IH] using JsValue_tree_ind;
    intros b Hsame;
    try (rewrite <- (sameTree_leaf _ _ Hsame I), getNodeByLocalName_unfold,
           isNode_leaf by done; constructor).
  - destruct b as [| | | | |items'|]; try done.
    rewrite !getNodeByLocalName_unfold.
    change (negb (isNode (JArr items))) with false.
    change (negb (isNode (JArr items'))) with false.
    cbv iota. cbn [firstEntry]. apply firstSomeFrom_related.
    eapply Forall2_impl; [apply (related_items _ _ _ IH Hsame) |].
    intros x y [Hxy Hrec] j. cbv beta.
    destruct (sameTree_kind _ _ Hxy) as (_ & _ & <-).
    destruct (bool_decide _ && isNode x); [by constructor |].
    destruct (isNode x); [apply Hrec | constructor].
  - destruct b as [| | | | | |fields']; try done.
    rewrite !getNodeByLocalName_unfold.
    change (negb (isNode (JObj fields))) with false.
    change (negb (isNode (JObj fields'))) with false.
    cbv iota. cbn [firstEntry]. apply firstSome_related.
    eapply Forall2_impl; [apply (related_fields
              (fun v v' => option_Forall2 same (getNodeByLocalName v expected)
                     (getNodeByLocalName v' expected)) _ _ IH Hsame) |].
    intros [k v] [k' v'] (Hk & Hv & Hrec). cbn [fst snd] in *.
    rewrite (sameKey_localName _ _ Hk).
    destruct (sameTree_kind _ _ Hv) as (_ & _ & <-).
    destruct (bool_decide _ && isNode v); [by constructor |].
    destruct (isNode v); [apply Hrec | constructor].
Qed.

Lemma collected_related (expected key key' : string) (v v' : JsValue)
  (collected collected' : list JsValue) :
  localName key = localName key' -> sameTree v v' = true ->
  Forall2 same collected collected' ->
  Forall2 same
    ((if bool_decide (localName key = expected)
      then List.filter isNode (asArray v) else [])
       ++ (if isNode v then collected else []))
    ((if bool_decide (localName key' = expected)
      then List.filter isNode (asArray v') else [])
       ++ (if isNode v' then collected' else [])).
Proof.
  intros <- Hv Hcollected. apply Forall2_app.
  - destruct (bool_decide _); [| constructor].
    apply filter_related; [| by apply asArray_related].
    intros x y Hxy. by destruct (sameTree_kind _ _ Hxy) as (_ & _ & ?).
  - destruct (sameTree_kind _ _ Hv) as (_ & _ & <-).
    destruct (isNode v); [done | constructor].
Qed.

Lemma collectNodesByLocalName_related (expected : string) (a b : JsValue) :
  sameTree a b = true ->
  Forall2 same (collectNodesByLocalName a expected)
    (collectNodesByLocalName b expected).
Proof.
  revert b.
  induction a as [| | x | n | s | items IH | fields IH] using JsValue_tree_ind;
    intros b Hsame;
    try (rewrite <- (sameTree_leaf _ _ Hsame I), collectNodesByLocalName_unfold,
           isNode_leaf by done; constructor).
  - destruct b as [| | | | |items'|]; try done.
    rewrite !collectNodesByLocalName_unfold.
    change (negb (isNode (JArr items))) with false.
    change (negb (isNode (JArr items'))) with false.
    cbv iota. cbn [eachEntry]. apply flatFrom_related.
    eapply Forall2_impl; [apply (related_items _ _ _ IH Hsame) |].
    intros x y [Hxy Hrec] j. cbv beta. by apply collected_related.
  - destruct b as [| | | | | |fields']; try done.
    rewrite !collectNodesByLocalName_unfold.
    change (negb (isNode (JObj fields))) with false.
    change (negb (isNode (JObj fields'))) with false.
    cbv iota. cbn [eachEntry]. apply flat_map_related.
    eapply Forall2_impl; [apply (related_fields
              (fun v v' => Forall2 same (collectNodesByLocalName v expected)
                     (collectNodesByLocalName v' expected)) _ _ IH Hsame) |].
    intros [k v] [k' v'] (Hk & Hv & Hrec). cbn [fst snd] in *.
    apply collected_related; [by apply sameKey_localName | done..].
Qed.

Lemma collectTextValuesByLocalName_unfold (root : JsValue) (expected : string) :
  collectTextValuesByLocalName root expected
  = if negb (isNode root) then []
    else eachEntry
           (fun key value =>
              (if bool_decide (localName key = expected)
               then omap valueText (asArray value)
               else [])
                ++ (if isNode value then collectTextValuesByLocalName value expected
                    else []))
           root.
Proof. by destruct root. Qed.

Lemma omap_valueText_related (l l' : list JsValue) :
  Forall2 same l l' -> omap valueText l = omap valueText l'.
Proof.
  induction 1 as [|x y l l' Hxy _ IH]; [done |].
  cbn [omap list_omap]. rewrite (valueText_related _ _ Hxy).
  destruct (valueText y); [by f_equal | done].
Qed.

Lemma texts_related (expected key key' : string) (v v' : JsValue)
  (collected collected' : list string) :
  localName key = localName key' -> sameTree v v' = true ->
  collected = collected' ->
  (if bool_decide (localName key = expected)
   then omap valueText (asArray v) else [])
    ++ (if isNode v then collected else [])
  = (if bool_decide (localName key' = expected)
     then omap valueText (asArray v') else [])
      ++ (if isNode v' then collected' else []).
Proof.
  intros <- Hv <-. destruct (sameTree_kind _ _ Hv) as (_ & _ & <-).
  by rewrite (omap_valueText_related _ _ (asArray_related _ _ Hv)).
Qed.

Lemma collectTextValuesByLocalName_related (expected : string) (a b : JsValue) :
  sameTree a b = true ->
  collectTextValuesByLocalName a expected = collectTextValuesByLocalName b expected.
Proof.
  revert b.
  induction a as [| | x | n | s | items IH | fields IH] using JsValue_tree_ind;
    intros b Hsame; try (by rewrite <- (sameTree_leaf _ _ Hsame I)).
  - destruct b as [| | | | |items'|]; try done.
    rewrite !collectTextValuesByLocalName_unfold.
    change (negb (isNode (JArr items))) with false.
    change (negb (isNode (JArr items'))) with false.
    cbv iota. cbn [eachEntry]. apply list_eq_Forall2, flatFrom_related.
    eapply Forall2_impl; [apply (related_items _ _ _ IH Hsame) |].
    intros x y [Hxy Hrec] j. cbv beta. apply list_eq_Forall2.
    by apply texts_related.
  - destruct b as [| | | | | |fields']; try done.
    rewrite !collectTextValuesByLocalName_unfold.
    change (negb (isNode (JObj fields))) with false.
    change (negb (isNode (JObj fields'))) with false.
    cbv iota. cbn [eachEntry]. apply list_eq_Forall2, flat_map_related.
    eapply Forall2_impl; [apply (related_fields
              (fun v v' => collectTextValuesByLocalName v expected
                   = collectTextValuesByLocalName v' expected) _ _ IH Hsame) |].
    intros [k v] [k' v'] (Hk & Hv & Hrec). cbn [fst snd] in *.
    apply list_eq_Forall2. apply texts_related; [by apply sameKey_localName | done..].
Qed.

(** The identifiers read off the nodes of one kind. *)
Lemma identifiers_related (first second kind : string) (a b : JsValue) :
  exactKey first = true -> exactKey second = true ->
  sameTree a b = true ->
  Forall2 same
    (List.filter truthy
       (map (fun node => nullish (getProp node first) (getProp node second))
          (collectNodesByLocalName a kind)))
    (List.filter truthy
       (map (fun node => nullish (getProp node first) (getProp node second))
          (collectNodesByLocalName b kind))).
Proof.
  intros Hfirst Hsecond Hsame. apply filter_related.
  - intros x y Hxy. by destruct (sameTree_kind _ _ Hxy) as (? & _).
  - apply map_related.
    eapply Forall2_impl; [by apply collectNodesByLocalName_related |].
    intros x y Hxy. cbv beta. by apply nullish_related; apply getProp_related.
Qed.

(** *** Lock results *)

Lemma collectResourceIds_related (name : string) (a b : JsValue) :
  sameTree a b = true ->
  Forall2 same (collectResourceIds a name) (collectResourceIds b name).
Proof.
  intros Hsame. unfold collectResourceIds.
  destruct (getNodeByLocalName_related name _ _ Hsame) as [x y Hxy|];
    [| constructor].
  cbv zeta. apply Forall2_app; by apply identifiers_related.
Qed.

Section Parsers.
Context `{Externals}.

(** Two lock responses whose trees differ at most in the prefixes of
    their element names give the same lock identifier and the same
    locked and not locked resource identifiers, in the same order. *)
Theorem parseLockResult_ignores_prefixes (document document' : string) :
  sameTree (parseXml document) (parseXml document') = true ->
  let result := parseLockResult (JStr document) in
  let result' := parseLockResult (JStr document') in
  sameTree (lockId result) (lockId result') = true
  /\ all2 sameTree (lockedResourceIds result) (lockedResourceIds result') = true
  /\ all2 sameTree (notLockedResourceIds result) (notLockedResourceIds result')
     = true.
Proof.
  intros Hsame result result'. unfold result, result', parseLockResult.
  destruct (getNodeByLocalName_related "LockFeatureResponse" _ _ Hsame)
    as [node node' Hnode|]; [| done].
  cbv zeta. cbn [lockId lockedResourceIds notLockedResourceIds].
  split; [| split].
  - apply nullish_related; [by apply getProp_related |].
    apply nullish_related; [by apply getProp_related |].
    rewrite (collectTextValuesByLocalName_related "LockId" _ _ Hnode).
    apply sameTree_refl.
  - by apply all2_Forall2, collectResourceIds_related.
  - by apply all2_Forall2, collectResourceIds_related.
Qed.

End Parsers.

Lemma parseLockResult_ignores_prefixes_witness :
  sameTree (lockId (parseLockResult (H := lockPlatform) (JStr lockDocument)))
    (lockId (parseLockResult (H := lockPlatform) (JStr lockDocumentPlain))) = true
  /\ all2 sameTree
       (lockedResourceIds (parseLockResult (H := lockPlatform) (JStr lockDocument)))
       (lockedResourceIds (parseLockResult (H := lockPlatform) (JStr lockDocumentPlain)))
     = true
  /\ all2 sameTree
       (notLockedResourceIds (parseLockResult (H := lockPlatform) (JStr lockDocument)))
       (notLockedResourceIds
          (parseLockResult (H := lockPlatform) (JStr lockDocumentPlain)))
     = true.
Proof.
  apply (parseLockResult_ignores_prefixes (H := lockPlatform) lockDocument
           lockDocumentPlain).
  reflexivity.
Defined.

End PrefixFacts.

(** ** Exception reports and capabilities without their prefixes *)

Module PrefixParserFacts.
Import JsString Js Platform Errors Helpers.
Import OwsExceptionParser CapabilitiesParser.
Import JsStringFacts FeatureCollectionFacts PrefixTerms PrefixFacts PrefixSamples.

#[local] Abbreviation same := (fun a b : JsValue => sameTree a b = true).

Lemma entries_related (a b : JsValue) :
  sameTree a b = true ->
  Forall2 (fun kv kv' =>
             sameKey (fst kv) (fst kv') = true /\ sameTree (snd kv) (snd kv') = true)
    (entries a) (entries b).
Proof.
  assert (forall l : list (string * JsValue),
            Forall2 (fun kv kv' =>
                       sameKey (fst kv) (fst kv') = true
                       /\ sameTree (snd kv) (snd kv') = true) l l) as Hrefl.
  { induction l as [|[k v] l IH]; constructor; [| done]. split.
    - unfold sameKey. by rewrite bool_decide_eq_true_2.
    - apply sameTree_refl. }
  intros Hsame.
  destruct a as [| | | | |items|fields];
    try (rewrite <- (sameTree_leaf _ _ Hsame I); apply Hrefl).
  - destruct b as [| | | | |items'|]; try done. cbn [entries].
    rewrite sameTree_arr in Hsame. apply all2_Forall2 in Hsame.
    generalize 0. induction Hsame as [|x y l l' Hxy _ IH]; intros i; simpl;
      constructor; [| apply IH].
    split; [| done]. unfold sameKey. by rewrite bool_decide_eq_true_2.
  - destruct b as [| | | | | |fields']; try done. cbn [entries].
    eapply Forall2_impl;
      [apply (related_fields (fun _ _ => True) fields fields'); [| done] |].
    + by apply Forall_forall.
    + by intros kv kv' (? & ? & _).
Qed.

Lemma firstChildTextByLocalName_related (expected : string) (o o' : option JsValue) :
  option_Forall2 same o o' ->
  firstChildTextByLocalName o expected = firstChildTextByLocalName o' expected.
Proof.
  intros [node node' Hnode|]; [| done]. unfold firstChildTextByLocalName.
  pose proof (entries_related _ _ Hnode) as Hall.
  induction Hall as [|[k v] [k' v'] l l' [Hk Hv] _ IH]; [done |].
  cbn [find fst snd] in *. rewrite (sameKey_localName _ _ Hk).
  destruct (bool_decide _); [by apply valueText_related | exact IH].
Qed.

Lemma truthyText_related (a b : JsValue) :
  sameTree a b = true -> truthyText a = truthyText b.
Proof.
  intros Hsame. unfold truthyText.
  destruct (sameTree_kind _ _ Hsame) as (<- & _).
  by rewrite (ToString_related _ _ Hsame).
Qed.

(** The address an operation node advertises under one kind of
    binding. *)
Lemma href_related (kind : string) (a b : JsValue) :
  sameTree a b = true ->
  let first v := default JUndefined (head (collectNodesByLocalName v kind)) in
  truthyText (nullish (getProp (first a) "@_xlink:href") (getProp (first a) "@_href"))
  = truthyText (nullish (getProp (first b) "@_xlink:href")
                  (getProp (first b) "@_href")).
Proof.
  intros Hsame first. apply truthyText_related.
  assert (sameTree (first a) (first b) = true) as Hfirst.
  { apply default_related, head_related. by apply collectNodesByLocalName_related. }
  by apply nullish_related; apply getProp_related.
Qed.

Section Parsers.
Context `{Externals}.

(** Two exception reports whose trees differ at most in the prefixes
    of their element names give the same exceptions, in the same
    order: the same codes, locators and texts. *)
Theorem parseOwsExceptionPayload_ignores_prefixes (document document' : string) :
  sameTree (parseXml document) (parseXml document') = true ->
  all2 sameException (parseOwsExceptionPayload (JStr document))
    (parseOwsExceptionPayload (JStr document')) = true.
Proof.
  intros Hsame. unfold parseOwsExceptionPayload. apply all2_Forall2, map_related.
  eapply Forall2_impl; [by apply collectNodesByLocalName_related |].
  intros node node' Hnode. cbv beta zeta. unfold sameException.
  cbn [exceptionCode locator text].
  rewrite (collectTextValuesByLocalName_related "ExceptionText" _ _ Hnode).
  rewrite (collectTextValuesByLocalName_related "exceptionText" _ _ Hnode).
  rewrite !andb_true_iff. split; [split |].
  - by apply nullish_related; apply getProp_related.
  - by apply getProp_related.
  - apply sameTree_refl.
Qed.

(** Two capabilities documents whose trees differ at most in the
    prefixes of their element names give the same title, the same
    abstract, the same bindings of the operations and the same
    version. *)
Theorem parseCapabilities_ignores_prefixes (document document' : string) :
  sameTree (parseXml document) (parseXml document') = true ->
  let parsed := parseCapabilities (JStr document) in
  let parsed' := parseCapabilities (JStr document') in
  title parsed = title parsed'
  /\ abstract parsed = abstract parsed'
  /\ operations parsed = operations parsed'
  /\ sameTree (capabilitiesVersion parsed) (capabilitiesVersion parsed') = true.
Proof.
  intros Hsame parsed parsed'. unfold parsed, parsed', parseCapabilities.
  cbv zeta. cbn [title abstract operations capabilitiesVersion].
  pose proof (getNodeByLocalName_related "ServiceIdentification" _ _ Hsame)
    as Hservice.
  split; [by apply firstChildTextByLocalName_related |].
  split; [by apply firstChildTextByLocalName_related |].
  split.
  - pose proof (collectNodesByLocalName_related "Operation" _ _ Hsame) as Hall.
    generalize (@nil (string * CapabilitiesOperationBinding)).
    induction Hall as [|node node' l l' Hnode _ IH]; intros acc; [done |].
    cbn [fold_left]. rewrite <- IH. f_equal.
    pose proof (getProp_related _ _ "@_name" eq_refl Hnode) as Hname.
    destruct (sameTree_kind _ _ Hname) as (<- & _).
    rewrite <- (ToString_related _ _ Hname).
    destruct (negb _ || negb _); [done |].
    pose proof (href_related "Get" _ _ Hnode) as Hget.
    pose proof (href_related "Post" _ _ Hnode) as Hpost.
    cbv zeta in Hget, Hpost. by rewrite Hget, Hpost.
  - pose proof (getNodeByLocalName_related "WFS_Capabilities" _ _ Hsame) as H1.
    pose proof (getNodeByLocalName_related "WMT_MS_Capabilities" _ _ Hsame) as H2.
    pose proof (getNodeByLocalName_related "Capabilities" _ _ Hsame) as H3.
    unfold FeatureCollection.orElse.
    destruct H1 as [x y Hxy|]; [by apply getProp_related |].
    destruct H2 as [x y Hxy|]; [by apply getProp_related |].
    destruct H3 as [x y Hxy|]; [by apply getProp_related | done].
Qed.

End Parsers.

Lemma parseOwsExceptionPayload_ignores_prefixes_witness :
  all2 sameException
    (parseOwsExceptionPayload (H := documentsPlatform) (JStr reportDocument))
    (parseOwsExceptionPayload (H := documentsPlatform) (JStr reportDocumentPlain))
  = true.
Proof.
  apply (parseOwsExceptionPayload_ignores_prefixes (H := documentsPlatform)
           reportDocument reportDocumentPlain).
  reflexivity.
Defined.

Lemma parseCapabilities_ignores_prefixes_witness :
  title (parseCapabilities (H := documentsPlatform) (JStr capabilitiesDocument))
  = title (parseCapabilities (H := documentsPlatform) (JStr capabilitiesDocumentPlain))
  /\ abstract (parseCapabilities (H := documentsPlatform) (JStr capabilitiesDocument))
     = abstract (parseCapabilities (H := documentsPlatform)
                   (JStr capabilitiesDocumentPlain))
  /\ operations (parseCapabilities (H := documentsPlatform) (JStr capabilitiesDocument))
     = operations (parseCapabilities (H := documentsPlatform)
                     (JStr capabilitiesDocumentPlain))
  /\ sameTree
       (capabilitiesVersion
          (parseCapabilities (H := documentsPlatform) (JStr capabilitiesDocument)))
       (capabilitiesVersion
          (parseCapabilities (H := documentsPlatform) (JStr capabilitiesDocumentPlain)))
     = true.
Proof.
  apply (parseCapabilities_ignores_prefixes (H := documentsPlatform)
           capabilitiesDocument capabilitiesDocumentPlain).
  reflexivity.
Defined.

End PrefixParserFacts.

(** ** Overrides that only add text *)

Module OverrideFacts.
Import JsString Js Xml JsStringFacts OverrideTerms.

Lemma embedded_refl (s : string) : embedded s s.
Proof. induction s; by constructor. Qed.

Lemma embedded_trans (a b c : string) : embedded a b -> embedded b c -> embedded a c.
Proof.
  intros Hab Hbc. revert a Hab.
  induction Hbc as [|x b c Hbc IH|x b c Hbc IH]; intros a Hab; [done | |].
  - constructor. by apply IH.
  - inversion Hab; subst; constructor; by apply IH.
Qed.

Lemma embedded_prepend (x s : string) : embedded s (x +:+ s).
Proof.
  induction x as [|c x IH]; norm_app; [apply embedded_refl | by constructor].
Qed.

Lemma embedded_insert (pre x post : string) :
  embedded (pre +:+ post) (pre +:+ x +:+ post).
Proof.
  induction pre as [|c pre IH]; norm_app; [apply embedded_prepend | by constructor].
Qed.

Lemma stake_sdrop (n : nat) (s : string) : stake n s +:+ sdrop n s = s.
Proof.
  revert s. induction n as [|n IH]; intros [|c s]; simpl; norm_app; try done.
  by rewrite IH.
Qed.

Lemma slice_sliceFrom (s : string) (i : nat) : slice s 0 i +:+ sliceFrom s i = s.
Proof. unfold slice, sliceFrom. rewrite Nat.sub_0_r. apply stake_sdrop. Qed.

(** One override placed before or after its target leaves every
    character of the document in place. *)
Lemma applyXmlOverride_inserting (acc : string) (override : XmlOverride) :
  inserting override = true -> embedded acc (applyXmlOverride acc override).
Proof.
  intros Hinserting. unfold applyXmlOverride. cbv zeta.
  destruct (indexOf _ acc) as [openIndex|]; [| apply embedded_refl].
  destruct (indexOfFrom ">" acc openIndex) as [openEnd|]; [| apply embedded_refl].
  set (closeIndex := if endsWith _ _ then None else _).
  set (segmentEnd := match closeIndex with Some _ => _ | None => _ end).
  assert (embedded acc
            (match default After (position override) with
             | Before =>
                 slice acc 0 openIndex +:+ xml override +:+ sliceFrom acc openIndex
             | Replace =>
                 slice acc 0 openIndex +:+ xml override +:+ sliceFrom acc segmentEnd
             | After =>
                 slice acc 0 segmentEnd +:+ xml override +:+ sliceFrom acc segmentEnd
             end)) as Hspliced.
  { unfold inserting in Hinserting.
    destruct (position override) as [[]|]; try done; cbn [default from_option id].
    - rewrite <- (slice_sliceFrom acc openIndex) at 1. apply embedded_insert.
    - rewrite <- (slice_sliceFrom acc segmentEnd) at 1. apply embedded_insert.
    - rewrite <- (slice_sliceFrom acc segmentEnd) at 1. apply embedded_insert. }
  destruct (endsWith _ _), closeIndex; try exact Hspliced. apply embedded_refl.
Qed.

(** Overrides that are all placed before or after their targets only
    add text: the document they are applied to is what is left of the
    result when the added text is taken out again, whatever the targets
    are and whether or not they are found. *)
Theorem applyXmlOverrides_insert_only (doc : string) (overrides : list XmlOverride) :
  forallb inserting overrides = true ->
  embedded doc (applyXmlOverrides doc (Some overrides))
  /\ String.length doc <= String.length (applyXmlOverrides doc (Some overrides)).
Proof.
  intros Hall.
  assert (embedded doc (applyXmlOverrides doc (Some overrides))) as Hembedded.
  { unfold applyXmlOverrides. destruct overrides as [|o overrides];
      [apply embedded_refl |].
    revert Hall. generalize (o :: overrides). clear. intros l. revert doc.
    induction l as [|o l IH]; intros doc Hall; [apply embedded_refl |].
    cbn [forallb fold_left] in *. apply andb_true_iff in Hall as [Ho Hl].
    eapply embedded_trans; [by apply applyXmlOverride_inserting | by apply IH]. }
  split; [exact Hembedded |].
  induction Hembedded; simpl; lia.
Qed.

Lemma applyXmlOverrides_insert_only_witness :
  embedded "<wfs:Query typeNames='topp:roads'/>"
    (applyXmlOverrides "<wfs:Query typeNames='topp:roads'/>"
       (Some [mkXmlOverride "wfs:Query" (Some Before) "<!-- roads -->";
              mkXmlOverride "wfs:Missing" None "<hint/>"]))
  /\ String.length "<wfs:Query typeNames='topp:roads'/>"
     <= String.length
          (applyXmlOverrides "<wfs:Query typeNames='topp:roads'/>"
             (Some [mkXmlOverride "wfs:Query" (Some Before) "<!-- roads -->";
                    mkXmlOverride "wfs:Missing" None "<hint/>"])).
Proof.
  apply (applyXmlOverrides_insert_only "<wfs:Query typeNames='topp:roads'/>"
           [mkXmlOverride "wfs:Query" (Some Before) "<!-- roads -->";
            mkXmlOverride "wfs:Missing" None "<hint/>"]).
  reflexivity.
Defined.

End OverrideFacts.

(** ** Names of inserted features *)

Module FeatureXmlFacts.
Import JsString Js Xml Version Gml Errors FeatureXml.
Import JsStringFacts TextTerms TextFacts FeatureXmlTerms.

Lemma indexOf_char_split (c : ascii) (s : string) (i : nat) :
  indexOf (String c "") s = Some i ->
  s = stake i s +:+ String c (sdrop (S i) s) /\ ~ occurs c (stake i s).
Proof.
  revert i. induction s as [|a s IH]; intros i; rewrite indexOf_unfold; [done |].
  cbn [startsWith]. case_bool_decide as Hc; cbn [andb].
  - intros [= <-]. subst a. simpl. norm_app. split; [done | tauto].
  - destruct (indexOf (String c "") s) as [j|] eqn:Hj; [| done].
    intros [= <-]. destruct (IH j eq_refl) as [Hs Hno]. simpl. norm_app. split.
    + f_equal. exact Hs.
    + intros [Ha | Hin]; [by subst | done].
Qed.

Lemma everyChar_allChars (test : ascii -> bool) (s : string) :
  everyChar test s = allChars test s.
Proof. induction s as [|c s IH]; simpl; [done | by rewrite IH]. Qed.

Lemma nameStart_nameChar (c : ascii) :
  Serializers.isNameStart c = true -> Serializers.isNameChar c = true.
Proof.
  intros Hc. unfold Serializers.isNameChar, Serializers.isWordChar. by rewrite Hc.
Qed.

Lemma testNCName_chars (s : string) :
  testNCName s = true -> s <> "" /\ allChars Serializers.isNameChar s = true.
Proof.
  destruct s as [|c s]; [done |]. cbn [testNCName allChars].
  intros [Hc Hs]%andb_true_iff. split; [done |].
  by rewrite (nameStart_nameChar c Hc), <- everyChar_allChars.
Qed.

Lemma nameChars_no_colon (s : string) :
  allChars Serializers.isNameChar s = true -> indexOf ":" s = None.
Proof.
  intros Hs. apply indexOf_None. intros (pre & post & ->).
  assert (Serializers.isNameChar ":" = true) as Hcolon; [| done].
  apply (allChars_occurs _ _ _ Hs). rewrite occurs_app. right.
  norm_app. simpl. by left.
Qed.

Lemma nameChars_qname (s : string) :
  allChars Serializers.isNameChar s = true -> allChars isQNameChar s = true.
Proof.
  apply allChars_impl. intros c Hc. unfold isQNameChar. by rewrite Hc.
Qed.

(** A text that passes [QNAME_PATTERN]: its parts around the first
    colon, if it has one. *)
Lemma testQName_parts (s : string) :
  testQName s = true ->
  s <> ""
  /\ allChars isQNameChar s = true
  /\ match indexOf ":" s with
     | Some i =>
         s = slice s 0 i +:+ ":" +:+ sliceFrom s (i + 1)
         /\ testNCName (slice s 0 i) = true
         /\ testNCName (sliceFrom s (i + 1)) = true
     | None => testNCName s = true
     end.
Proof.
  unfold testQName. destruct (indexOf ":" s) as [i|] eqn:Hi.
  - intros [Hprefix Hlocal]%andb_true_iff.
    destruct (indexOf_char_split _ _ _ Hi) as [Hs _].
    unfold slice, sliceFrom in *. rewrite Nat.sub_0_r, Nat.add_1_r in *.
    cbn [sdrop] in *.
    destruct (testNCName_chars _ Hprefix) as [Hne Hchars].
    destruct (testNCName_chars _ Hlocal) as [_ Hchars'].
    split; [by intros -> |]. split; [| done].
    rewrite Hs, allChars_app. cbn [allChars].
    by rewrite !nameChars_qname.
  - intros Hname. destruct (testNCName_chars _ Hname) as [Hne Hchars].
    by rewrite nameChars_qname.
Qed.

Lemma includes_indexOf (p s : string) :
  includes p s = match indexOf p s with Some _ => true | None => false end.
Proof.
  unfold includes. destruct (indexOf p s).
  - by apply bool_decide_eq_true_2.
  - apply bool_decide_eq_false_2. by intros [? ?].
Qed.

Lemma splitColon2_qname (s : string) (i : nat) :
  indexOf ":" s = Some i -> testNCName (sliceFrom s (i + 1)) = true ->
  splitColon2 s = (slice s 0 i, sliceFrom s (i + 1)).
Proof.
  intros Hi Hlocal. unfold splitColon2. rewrite Hi. cbv zeta.
  destruct (testNCName_chars _ Hlocal) as [_ Hchars].
  by rewrite (nameChars_no_colon _ Hchars).
Qed.

(** [splitQName] on a type name that passes the pattern. *)
Lemma splitQName_accepts (typeName : string) :
  testQName (trim typeName) = true ->
  exists prefix local,
    splitQName typeName = Normal (prefix, local)
    /\ qualified prefix local = trim typeName
    /\ testNCName local = true
    /\ (forall p, prefix = Some p -> testNCName p = true)
    /\ (prefix = None <-> indexOf ":" (trim typeName) = None).
Proof.
  intros Hq. destruct (testQName_parts _ Hq) as (Hne & _ & Hparts).
  unfold splitQName. cbv zeta. rewrite (bool_decide_eq_false_2 _ Hne).
  rewrite includes_indexOf, Hq.
  destruct (indexOf ":" (trim typeName)) as [i|] eqn:Hi.
  - destruct Hparts as (Hs & Hprefix & Hlocal).
    rewrite (splitColon2_qname _ _ Hi Hlocal).
    destruct (testNCName_chars _ Hprefix) as [Hp _].
    destruct (testNCName_chars _ Hlocal) as [Hl _].
    rewrite !bool_decide_eq_false_2 by done. cbn [orb negb].
    eexists _, _. split; [reflexivity |].
    split; [| split; [done | split]].
    + unfold qualified, Options.nonEmpty.
      destruct (slice (trim typeName) 0 i); [done | by rewrite <- Hs].
    + by intros p [= <-].
    + by split.
  - rewrite Hparts. cbn [negb]. by eexists _, _.
Qed.

Lemma splitQName_rejects (typeName : string) :
  testQName (trim typeName) = false ->
  exists message, splitQName typeName = Thrown (PlainError message).
Proof.
  intros Hq. unfold splitQName. cbv zeta.
  case_bool_decide as Hne; [by eexists |].
  rewrite includes_indexOf, Hq. unfold testQName in Hq.
  destruct (indexOf ":" (trim typeName)) as [i|] eqn:Hi.
  - destruct (splitColon2 _) as [prefix local]. rewrite !orb_true_r. by eexists.
  - rewrite Hq. by eexists.
Qed.

Lemma splitQName_Normal (typeName : string) (prefix : option string) (local : string) :
  splitQName typeName = Normal (prefix, local) ->
  testQName (trim typeName) = true /\ qualified prefix local = trim typeName.
Proof.
  intros Hsplit. destruct (testQName (trim typeName)) eqn:Hq.
  - destruct (splitQName_accepts _ Hq) as (p & l & Hpl & Hqualified & _).
    rewrite Hsplit in Hpl. by injection Hpl as -> ->.
  - destruct (splitQName_rejects _ Hq) as [message Hthrown]. congruence.
Qed.

Lemma resolvePropertyTagName_accepts (propertyName : string)
  (defaultPrefix : option string) :
  testQName (trim propertyName) = true ->
  resolvePropertyTagName propertyName defaultPrefix
  = Normal (match indexOf ":" (trim propertyName) with
            | Some _ => trim propertyName
            | None => qualified defaultPrefix (trim propertyName)
            end).
Proof.
  intros Hq. destruct (testQName_parts _ Hq) as (Hne & _ & Hparts).
  unfold resolvePropertyTagName. cbv zeta. rewrite (bool_decide_eq_false_2 _ Hne).
  rewrite includes_indexOf, Hq.
  destruct (indexOf ":" (trim propertyName)); [done |]. by rewrite Hparts.
Qed.

Lemma resolvePropertyTagName_rejects (propertyName : string)
  (defaultPrefix : option string) :
  testQName (trim propertyName) = false ->
  exists message,
    resolvePropertyTagName propertyName defaultPrefix = Thrown (PlainError message).
Proof.
  intros Hq. unfold resolvePropertyTagName. cbv zeta.
  case_bool_decide as Hne; [by eexists |].
  rewrite includes_indexOf, Hq. unfold testQName in Hq.
  destruct (indexOf ":" (trim propertyName)) as [i|] eqn:Hi; [by eexists |].
  rewrite Hq. by eexists.
Qed.

Lemma resolvePropertyTagName_Normal (propertyName tag : string)
  (defaultPrefix : option string) :
  resolvePropertyTagName propertyName defaultPrefix = Normal tag ->
  testQName (trim propertyName) = true.
Proof.
  intros Htag. destruct (testQName (trim propertyName)) eqn:Hq; [done |].
  destruct (resolvePropertyTagName_rejects _ defaultPrefix Hq) as [m Hm]. congruence.
Qed.

Lemma mapC_Normal {A B} (f : A -> Completion B) (l : list A) (ys : list B) :
  mapC f l = Normal ys -> Forall (fun x => exists y, f x = Normal y) l.
Proof.
  revert ys. induction l as [|x l IH]; intros ys; [by constructor |].
  cbn [mapC]. destruct (f x) as [y|e] eqn:Hx; [| done]. cbn [bindC].
  destruct (mapC f l) as [rest|e] eqn:Hl; [| done]. intros _.
  constructor; [by eexists | by eapply IH].
Qed.

(** A type name is accepted exactly when, without the white space
    around it, it passes the pattern of qualified names; the two parts
    that [splitQName] returns then make up that name again, the prefix
    being there exactly when the name has a colon.  A property name is
    accepted under the same condition, and its tag is the name itself
    when it has a colon and the name under the prefix of the type
    otherwise.  Every other name makes the function throw. *)
Theorem names_are_accepted_when_qualified (name : string)
  (defaultPrefix : option string) :
  let normalized := trim name in
  (testQName normalized = true ->
   allChars isQNameChar normalized = true
   /\ (exists prefix local,
         splitQName name = Normal (prefix, local)
         /\ qualified prefix local = normalized
         /\ (prefix = None <-> indexOf ":" normalized = None))
   /\ resolvePropertyTagName name defaultPrefix
      = Normal (match indexOf ":" normalized with
                | Some _ => normalized
                | None => qualified defaultPrefix normalized
                end))
  /\ (testQName normalized = false ->
      (exists message, splitQName name = Thrown (PlainError message))
      /\ (exists message,
            resolvePropertyTagName name defaultPrefix = Thrown (PlainError message))).
Proof.
  intros normalized. split.
  - intros Hq. split; [by destruct (testQName_parts _ Hq) as (_ & ? & _) |]. split.
    + destruct (splitQName_accepts _ Hq) as (p & l & Hsplit & Hqualified & _ & _ & Hnone).
      by exists p, l.
    + by apply resolvePropertyTagName_accepts.
  - intros Hq. split.
    + by apply splitQName_rejects.
    + by apply resolvePropertyTagName_rejects.
Qed.

(** When [featureToWfsInsertXml] returns, the type name, the name of
    the geometry property (the default one included) and the name of
    every property whose value is not [undefined] have passed the
    pattern of qualified names, so they hold only name characters and
    colons; the result is one element named by the type name without
    the white space around it. *)
Theorem featureToWfsInsertXml_checks_names (options : FeatureToXmlOptions)
  (xml : string) :
  featureToWfsInsertXml options = Normal xml ->
  let name := trim (ftxTypeName options) in
  testQName name = true
  /\ allChars isQNameChar name = true
  /\ testQName (trim (default "geometry" (geometryPropertyName options))) = true
  /\ Forall (fun entry => testQName (trim (fst entry)) = true) (written options)
  /\ exists content,
       xml = "<" +:+ name +:+ content +:+ "</" +:+ name +:+ ">".
Proof.
  intros Hxml name. unfold featureToWfsInsertXml in Hxml.
  destruct (splitQName (ftxTypeName options)) as [[prefix local]|e] eqn:Hsplit;
    [| done].
  destruct (splitQName_Normal _ _ _ Hsplit) as [Hname Hqualified].
  cbn [bindC fst snd] in Hxml. fold (written options) in Hxml.
  destruct (mapC _ (written options)) as [tags|e] eqn:Htags; [| done].
  cbn [bindC] in Hxml.
  destruct (resolvePropertyTagName (default "geometry" _) prefix)
    as [geometryTag|e] eqn:Hgeometry; [| done].
  cbn [bindC] in Hxml. injection Hxml as <-.
  split; [exact Hname |].
  split; [by destruct (testQName_parts _ Hname) as (_ & ? & _) |].
  split; [by eapply resolvePropertyTagName_Normal |].
  split.
  - eapply Forall_impl; [by eapply mapC_Normal |].
    intros [k v] [y Hy]. cbn [fst snd] in *.
    destruct (resolvePropertyTagName k prefix) as [tag|e] eqn:Htag; [| done].
    by eapply resolvePropertyTagName_Normal.
  - rewrite Hqualified. fold name.
    match goal with
    | |- exists content, "<" +:+ name +:+ ?a +:+ ">" +:+ ?b +:+ ?c +:+ ?rest = _ =>
        exists (a +:+ ">" +:+ b +:+ c)
    end.
    by rewrite !app_assoc.
Qed.

Lemma featureToWfsInsertXml_checks_names_witness :
  testQName "topp:roads" = true
  /\ allChars isQNameChar "topp:roads" = true
  /\ testQName "the_geom" = true
  /\ Forall (fun entry => testQName (trim (fst entry)) = true)
       [("name", JStr "A & B"); ("lanes", JNull)]
  /\ exists content,
       "<topp:roads gml:id=" +:+ dquote +:+ "roads.7" +:+ dquote
         +:+ "><topp:name>A &amp; B</topp:name><topp:the_geom><gml:Point><gml:pos>23 37</gml:pos></gml:Point></topp:the_geom></topp:roads>"
       = "<" +:+ "topp:roads" +:+ content +:+ "</" +:+ "topp:roads" +:+ ">".
Proof.
  apply (featureToWfsInsertXml_checks_names sampleFeature). reflexivity.
Defined.

End FeatureXmlFacts.

(** ** The envelope of a bounding-box filter *)

Module BoundsFacts.
Import JsString Js Gml Filter BoundsTerms.

(** The loop of [geometryBounds] from a box that already holds a
    point: the box only grows, it comes to hold every position of the
    list, and each of its edges stays where it was or lies on one of the
    positions. *)
Lemma boundsStep_fold (positions : list Position) (box : Z * Z * Z * Z) :
  forallb isPlanar positions = true ->
  exists box',
    fold_left boundsStep positions (intBox box) = intBox box'
    /\ (forall point, inBox box point -> inBox box' point)
    /\ Forall (fun position =>
                 exists point, planar position = Some point /\ inBox box' point)
         positions
    /\ (let '(minX, minY, maxX, maxY) := box in
        let '(minX', minY', maxX', maxY') := box' in
        let xs := omap (fun p => fst <$> planar p) positions in
        let ys := omap (fun p => snd <$> planar p) positions in
        minX' ∈ minX :: xs /\ minY' ∈ minY :: ys
        /\ maxX' ∈ maxX :: xs /\ maxY' ∈ maxY :: ys).
Proof.
  revert box. induction positions as [|position positions IH]; intros box Hplanar.
  - exists box. repeat split; [done | constructor |].
    destruct box as [[[minX minY] maxX] maxY]. cbn [omap list_omap].
    repeat split; apply list_elem_of_here.
  - cbn [forallb] in Hplanar. apply andb_true_iff in Hplanar as [Hp Hrest].
    destruct box as [[[minX minY] maxX] maxY].
    unfold isPlanar in Hp. destruct (planar position) as [[x y]|] eqn:Hxy; [| done].
    assert (nth 0 position NaN = Int x /\ nth 1 position NaN = Int y) as [Hx Hy].
    { destruct position as [|[] [|[] ?]]; try done. by injection Hxy as -> ->. }
    cbn [fold_left]. unfold intBox at 1, boundsStep. cbv zeta. rewrite Hx, Hy.
    cbn [ltNumber].
    set (minX1 := if (x <? minX)%Z then x else minX).
    set (minY1 := if (y <? minY)%Z then y else minY).
    set (maxX1 := if (maxX <? x)%Z then x else maxX).
    set (maxY1 := if (maxY <? y)%Z then y else maxY).
    assert ((if (x <? minX)%Z then Int x else Int minX) = Int minX1) as ->
      by (unfold minX1; by destruct (x <? minX)%Z).
    assert ((if (y <? minY)%Z then Int y else Int minY) = Int minY1) as ->
      by (unfold minY1; by destruct (y <? minY)%Z).
    assert ((if (maxX <? x)%Z then Int x else Int maxX) = Int maxX1) as ->
      by (unfold maxX1; by destruct (maxX <? x)%Z).
    assert ((if (maxY <? y)%Z then Int y else Int maxY) = Int maxY1) as ->
      by (unfold maxY1; by destruct (maxY <? y)%Z).
    destruct (IH (minX1, minY1, maxX1, maxY1) Hrest)
      as ([[[minX' minY'] maxX'] maxY'] & Hfold & Hgrows & Hall & Hedges).
    exists (minX', minY', maxX', maxY'). split; [exact Hfold |].
    assert (minX1 <= minX /\ minX1 <= x /\ (minX1 = minX \/ minX1 = x))%Z as Hminx
      by (unfold minX1; destruct (Z.ltb_spec x minX); lia).
    assert (minY1 <= minY /\ minY1 <= y /\ (minY1 = minY \/ minY1 = y))%Z as Hminy
      by (unfold minY1; destruct (Z.ltb_spec y minY); lia).
    assert (maxX <= maxX1 /\ x <= maxX1 /\ (maxX1 = maxX \/ maxX1 = x))%Z as Hmaxx
      by (unfold maxX1; destruct (Z.ltb_spec maxX x); lia).
    assert (maxY <= maxY1 /\ y <= maxY1 /\ (maxY1 = maxY \/ maxY1 = y))%Z as Hmaxy
      by (unfold maxY1; destruct (Z.ltb_spec maxY y); lia).
    split; [| split].
    + intros [px py] Hin. apply Hgrows. unfold inBox in *. cbn [fst snd] in *. lia.
    + constructor; [| exact Hall]. exists (x, y). split; [done |].
      apply Hgrows. unfold inBox. cbn [fst snd]. lia.
    + cbn [omap list_omap]. rewrite Hxy. cbn [fmap option_fmap option_map fst snd].
      cbv zeta in Hedges. destruct Hedges as (Ha & Hb & Hc & Hd).
      rewrite !elem_of_cons in *.
      repeat split.
      * destruct Ha as [-> | Ha]; [| tauto]. destruct Hminx as (_ & _ & [-> | ->]); tauto.
      * destruct Hb as [-> | Hb]; [| tauto]. destruct Hminy as (_ & _ & [-> | ->]); tauto.
      * destruct Hc as [-> | Hc]; [| tauto]. destruct Hmaxx as (_ & _ & [-> | ->]); tauto.
      * destruct Hd as [-> | Hd]; [| tauto]. destruct Hmaxy as (_ & _ & [-> | ->]); tauto.
Qed.

(** The box of a geometry without a position of two coordinates is
    all zeros.  When the first two coordinates of every recorded
    position are integers, the box holds each of these positions and
    each of its four edges lies on one of them. *)
Theorem geometryBounds_encloses (geometry : Geometry) :
  (recorded geometry = [] ->
   geometryBounds geometry = (Int 0, Int 0, Int 0, Int 0))
  /\ (recorded geometry <> [] ->
      forallb isPlanar (recorded geometry) = true ->
      exists minX minY maxX maxY,
        geometryBounds geometry = (Int minX, Int minY, Int maxX, Int maxY)
        /\ Forall (fun position =>
                     exists point,
                       planar position = Some point
                       /\ inBox (minX, minY, maxX, maxY) point)
             (recorded geometry)
        /\ minX ∈ omap (fun p => fst <$> planar p) (recorded geometry)
        /\ minY ∈ omap (fun p => snd <$> planar p) (recorded geometry)
        /\ maxX ∈ omap (fun p => fst <$> planar p) (recorded geometry)
        /\ maxY ∈ omap (fun p => snd <$> planar p) (recorded geometry)).
Proof.
  unfold geometryBounds. fold (recorded geometry).
  destruct (recorded geometry) as [|first rest]; [done |].
  split; [done |]. intros _ Hplanar.
  cbn [forallb] in Hplanar. apply andb_true_iff in Hplanar as [Hfirst Hrest].
  unfold isPlanar in Hfirst.
  destruct (planar first) as [[x y]|] eqn:Hxy; [| done].
  assert (nth 0 first NaN = Int x /\ nth 1 first NaN = Int y) as [Hx Hy].
  { destruct first as [|[] [|[] ?]]; try done. by injection Hxy as -> ->. }
  cbn [fold_left]. unfold boundsStep at 2. rewrite Hx, Hy. cbn [ltNumber].
  destruct (boundsStep_fold rest (x, y, x, y) Hrest)
    as ([[[minX minY] maxX] maxY] & Hfold & Hgrows & Hall & Hedges).
  cbn [intBox] in Hfold. rewrite Hfold.
  exists minX, minY, maxX, maxY. split; [done |]. split.
  - constructor; [| exact Hall]. exists (x, y). split; [done |].
    apply Hgrows. unfold inBox. cbn [fst snd]. lia.
  - cbv zeta in Hedges. cbn [omap list_omap]. rewrite Hxy.
    cbn [fmap option_fmap option_map fst snd]. exact Hedges.
Qed.

End BoundsFacts.

(** ** What [getCapabilities] leaves in the client *)

Module CapabilitiesFacts.
Import JsString Js Xml Platform Version Options Errors Helpers.
Import Serializers OwsExceptionParser CapabilitiesParser Transport Client WfsClient.
Import KvpBuilders CapabilitiesOperation.
Import ClientTerms RequestTerms CapabilitiesTerms CapabilitiesSamples.

Section Exchange.
Context `{Externals}.
Variable config : WfsClientConfig.

(** [sendOperation] on an answered request: the response is returned
    when [ensureNoError] lets it pass. *)
Lemma sendOperation_answered (params : SendOperationParams) (st : ClientState)
  (status : Z) (headers data : JsValue) :
  let response := responseOf (operationRequest config st params) status headers data in
  axios config (sent st) (handed config st params)
  = AxiosResponse status headers data ->
  sendOperation config params st
  = (match ensureNoError (spOperation params) (spVersion params) response with
     | Normal _ => Normal response
     | Thrown e => Thrown e
     end, afterRequest st (handed config st params)).
Proof.
  intros response Hanswer.
  unfold sendOperation, bind, getState, transportRequest, lift, ret. cbv zeta.
  fold (handed config st params). rewrite Hanswer. fold response.
  by destruct (ensureNoError _ _ _).
Qed.

(** A capabilities exchange that is answered with a status below 400
    and a body that is kept as text, not read as JSON, and in which no
    exception is found returns that text parsed as a capabilities
    document after one request, and leaves that document in the client
    whatever the version strategy is.  Under [auto] a version attribute that is a
    non-empty text becomes the negotiated version, so the next call
    without a version of its own uses it and sends no probe; under any
    other strategy the negotiated version stays as it was. *)
Theorem getCapabilities_refreshes_cache (options : GetCapabilitiesOptions)
  (st0 st1 : ClientState) (version : WfsVersion) (body : option string)
  (status : Z) (headers data : JsValue) :
  let params := capabilitiesParams options version body in
  let request := handed config st1 params in
  let response := responseOf (operationRequest config st1 params) status headers data in
  let parsed := parseCapabilities (rawData response) in
  resolveVersion config (gcVersion options) st0 = (Normal version, st1) ->
  capabilitiesBody config options version = Normal body ->
  axios config (sent st1) request = AxiosResponse status headers data ->
  (status < 400)%Z ->
  Transport.data response = rawData response ->
  parseOwsExceptionPayload (Transport.data response) = [] ->
  exists st2,
    getCapabilities config options st0 = (Normal parsed, st2)
    /\ capabilities st2 = Some parsed
    /\ sent st2 = sent st1 ++ [request]
    /\ (versionStrategy config <> Some "auto" ->
        negotiatedVersion st2 = negotiatedVersion st1)
    /\ (versionStrategy config = Some "auto" ->
        truthy (capabilitiesVersion parsed) = false ->
        negotiatedVersion st2 = negotiatedVersion st1)
    /\ (forall v, versionStrategy config = Some "auto" ->
          capabilitiesVersion parsed = JStr v -> v <> "" ->
          negotiatedVersion st2 = Some v
          /\ resolveVersion config None st2 = (Normal v, st2)).
Proof.
  intros params request response parsed Hversion Hbody Hanswer Hstatus _ Hparsed.
  assert (sendOperation config params st1
          = (Normal response, afterRequest st1 request)) as Hsend.
  { rewrite (sendOperation_answered params st1 status headers data Hanswer).
    fold response request. unfold ensureNoError. rewrite Hparsed.
    assert ((400 <=? Transport.status response)%Z = false) as ->
      by (apply Z.leb_gt; exact Hstatus).
    by rewrite bool_decide_eq_true_2. }
  unfold getCapabilities, bind at 1. rewrite Hversion.
  unfold capabilitiesBody in Hbody. unfold bind at 1, lift at 1. rewrite Hbody.
  unfold bind at 1.
  change (sendOperation config _ st1) with (sendOperation config params st1).
  rewrite Hsend. unfold bind, storeCapabilities, ret. fold parsed.
  eexists. split; [reflexivity |]. cbn [capabilities sent negotiatedVersion afterRequest].
  split; [done |]. split; [done |]. split; [| split].
  - intros Hfixed. by rewrite (bool_decide_eq_false_2 _ Hfixed).
  - intros _ ->. by rewrite andb_false_r.
  - intros v Hauto Hv Hne. rewrite (bool_decide_eq_true_2 _ Hauto), Hv.
    cbn [truthy ToString]. rewrite (bool_decide_eq_false_2 _ Hne). cbn [negb andb].
    split; [done |].
    unfold resolveVersion. cbn [nonEmpty]. rewrite Hauto.
    change (fixedVersion (Some "auto")) with (@None WfsVersion). cbv iota.
    unfold bind, getState. cbn [negotiatedVersion].
    unfold nonEmpty. by destruct v.
Qed.

End Exchange.


Lemma getCapabilities_refreshes_cache_witness :
  exists st2,
    getCapabilities (H := PrefixSamples.documentsPlatform) autoConfig explicitRequest
      freshClient
    = (Normal sampleParsed, st2)
    /\ capabilities st2 = Some sampleParsed
    /\ sent st2 = sent freshClient ++ [sampleRequest]
    /\ (versionStrategy autoConfig <> Some "auto" ->
        negotiatedVersion st2 = negotiatedVersion freshClient)
    /\ (versionStrategy autoConfig = Some "auto" ->
        truthy (capabilitiesVersion sampleParsed) = false ->
        negotiatedVersion st2 = negotiatedVersion freshClient)
    /\ (forall v, versionStrategy autoConfig = Some "auto" ->
          capabilitiesVersion sampleParsed = JStr v -> v <> "" ->
          negotiatedVersion st2 = Some v
          /\ resolveVersion (H := PrefixSamples.documentsPlatform) autoConfig None st2
             = (Normal v, st2)).
Proof.
  apply (getCapabilities_refreshes_cache (H := PrefixSamples.documentsPlatform)
           autoConfig explicitRequest freshClient freshClient "1.1.0" None 200
           (JObj [("content-type", JStr "application/xml")])
           (JStr PrefixSamples.capabilitiesDocument)); reflexivity.
Defined.

End CapabilitiesFacts.

Module OverrideTargetFacts.
Import JsString Js Xml Platform Version Options Errors Serializers Markup.
Import SerializerTerms.

(** C8.  The ListStoredQueries request holds one element,
    [wfs:ListStoredQueries]; an override aimed at [wfs:List], an element
    that does not occur in it, is nevertheless applied, and with position
    [replace] the request becomes the override XML: the target is looked
    up as the text [<wfs:List], which the opening tag of the longer name
    starts with. *)
Theorem applyXmlOverrides_absent_target_is_applied :
  tagNames "<wfs:ListStoredQueries service='WFS'/>" = ["wfs:ListStoredQueries"]
  /\ applyXmlOverrides "<wfs:ListStoredQueries service='WFS'/>"
       (Some [mkXmlOverride "wfs:List" (Some Replace) "<custom:List/>"])
     = "<custom:List/>"
  /\ (exists document,
         buildListStoredQueriesXml (H := tablePlatform []) None
           (mkSerializerContext V2_0_2 None) = Normal document
         /\ tagNames document = ["wfs:ListStoredQueries"])
  /\ buildListStoredQueriesXml (H := tablePlatform [])
       (Some (replaceRoot "wfs:List" "<custom:List/>"))
       (mkSerializerContext V2_0_2 None)
     = Normal "<custom:List/>".
Proof.
  split; [| split; [| split]].
  - reflexivity.
  - vm_compute. reflexivity.
  - eexists. split; vm_compute; reflexivity.
  - vm_compute. reflexivity.
Qed.

End OverrideTargetFacts.

Module MemberSrsFacts.
Import JsString Js Platform Options Errors Gml Helpers FeatureCollection.
Import MemberSrsTerms.

(** C5.  The member of a MultiPoint that declares the reference system
    "EPSG:4326" itself is left as it is under [forceLonLat]: the
    coordinates 40 20 are decoded as 40 20, in the tree of the geometry
    and in the collection parsed from the document, as they are under
    [preserve].  The same Point element on its own is governed by its
    declaration and decoded as 20 40.  The members of a multi-geometry
    are decoded with the reference system of the multi-geometry, and
    their own [srsName] is not read. *)
Theorem parseMultiPoint_ignores_member_srsName :
  nodeSrsName memberPoint JUndefined = JStr "EPSG:4326"
  /\ includes "4326" (toLowerCase "EPSG:4326") = true
  /\ parseGeometryNode "Point" memberPoint ForceLonLat JUndefined
     = Normal (Some (Point [Int 20; Int 40]))
  /\ parseGeometryNode "MultiPoint" memberSrsMultiPoint ForceLonLat JUndefined
     = Normal (Some (MultiPoint [[Int 40; Int 20]]))
  /\ parseFeatureCollection
       (H := tablePlatform [(memberSrsDocument, memberSrsTree)])
       (JStr memberSrsDocument) ForceLonLat
     = Normal (Built [mkFeature JUndefined (Some (MultiPoint [[Int 40; Int 20]])) []]
                 None)
  /\ parseFeatureCollection
       (H := tablePlatform [(memberSrsDocument, memberSrsTree)])
       (JStr memberSrsDocument) Preserve
     = Normal (Built [mkFeature JUndefined (Some (MultiPoint [[Int 40; Int 20]])) []]
                 None).
Proof. repeat split; vm_compute; reflexivity. Qed.

End MemberSrsFacts.

Module NumericCodeFacts.
Import JsString Js Xml Platform Version Gml Filter Options Errors Helpers.
Import FeatureCollection Serializers Kvp OwsExceptionParser CapabilitiesParser Transport.
Import Client WfsClient.
Import ClientTerms NumericCodeTerms.

(** C1.  A first exchange that fails with an exception whose text
    contains "outputformat" is not retried when the exception code of
    the report is numeric: the exception is parsed with the number 400
    as its code, [isOutputFormatException] throws a [TypeError] on it,
    and the call ends with that [TypeError] after the one request that
    named "application/json".  The same service with the code
    "InvalidParameterValue" is asked a second time, without output
    format, and the call returns the decoded collection. *)
Theorem getFeature_numeric_exception_code_is_not_retried :
  parseOwsExceptionPayload (H := numericCodePlatform) (JStr numericCodeDocument)
  = [mkOwsException (JNum (Int 400)) (JStr "outputFormat")
       (JStr "Unknown outputFormat")]
  /\ includes "outputformat" (toLowerCase "Unknown outputFormat") = true
  /\ fst (getFeature (H := numericCodePlatform) (sampleConfig numericCodeService)
            (roadsQuery None) freshClient)
     = Thrown (TypeError "toLowerCase is not a function")
  /\ map (fun request => axParams request ≫= (fun params => params !! "outputFormat"))
       (sent (snd (getFeature (H := numericCodePlatform)
                     (sampleConfig numericCodeService) (roadsQuery None)
                     freshClient)))
     = [Some "application/json"]
  /\ fst (getFeature (H := samplePlatform) (sampleConfig formatSensitiveService)
            (roadsQuery None) freshClient)
     = Normal (Built [mkFeature (JStr "roads.1") None [("name", JStr "Main St")]] None)
  /\ map (fun request => axParams request ≫= (fun params => params !! "outputFormat"))
       (sent (snd (getFeature (H := samplePlatform)
                     (sampleConfig formatSensitiveService) (roadsQuery None)
                     freshClient)))
     = [Some "application/json"; None].
Proof. repeat split; vm_compute; reflexivity. Qed.

End NumericCodeFacts.

Module ReferenceFacts.
Import JsString Js Xml Platform Version Gml Filter Options Errors Helpers.
Import Serializers KvpBuilders FeatureXml RequestSerializers.
Import JsStringFacts TextTerms TextFacts CoordinateTerms CoordinateFacts.
Import ReferenceTerms.

(** *** The character classes of the pattern *)


Lemma continuesName_isNameChar (c : ascii) : continuesName c = isNameChar c.
Proof. reflexivity. Qed.

Lemma continuesName_colon : continuesName ":" = false.
Proof. reflexivity. Qed.






(** *** The matches of the pattern in a qualified name *)



(** *** The set of required prefixes only grows *)

Lemma setAdd_keeps (x y : string) (out : list string) :
  x ∈ out -> x ∈ setAdd y out.
Proof.
  intros Hin. unfold setAdd. case_bool_decide; [done |].
  apply elem_of_app. by left.
Qed.


Lemma setAddAll_keeps (x : string) (xs out : list string) :
  x ∈ out -> x ∈ setAddAll xs out.
Proof.
  unfold setAddAll. revert out. induction xs as [|y xs IH]; intros out Hin; simpl;
    [done |].
  by apply IH, setAdd_keeps.
Qed.


Lemma collectQNamePrefixes_keeps (x value : string) (out : list string) :
  x ∈ out -> x ∈ collectQNamePrefixes value out.
Proof. apply setAddAll_keeps. Qed.


(** A fold of steps that only grow the set: what one step adds stays,
    and so does what was there. *)
Lemma fold_left_keeps {A} (step : list string -> A -> list string) (x : string)
  (l : list A) (out : list string) :
  (forall acc a, x ∈ acc -> x ∈ step acc a) ->
  x ∈ out -> x ∈ fold_left step l out.
Proof.
  intros Hstep. revert out. induction l as [|a l IH]; intros out Hin; simpl; [done |].
  by apply IH, Hstep.
Qed.


(** *** Type names *)



Lemma typeNameStep_keeps (x typeName : string) (acc : list string) :
  x ∈ acc ->
  x ∈ fold_left
        (fun acc token =>
           let candidate := if includes "=" token then beforeEquals token else token in
           if bool_decide (candidate = "") then acc
           else collectQNamePrefixes candidate acc)
        (tokens isSeparator typeName) acc.
Proof.
  apply fold_left_keeps. intros out token Hin. cbv zeta.
  destruct (bool_decide _); [done | by apply collectQNamePrefixes_keeps].
Qed.

Lemma collectTypeNamePrefixes_keeps (x : string) (typeNames out : list string) :
  x ∈ out -> x ∈ collectTypeNamePrefixes typeNames out.
Proof.
  unfold collectTypeNamePrefixes. apply fold_left_keeps.
  intros acc typeName. apply typeNameStep_keeps.
Qed.


(** *** Lists of property names *)



End ReferenceFacts.

Module MissingNamespaceFacts.
Import JsString Js Xml Platform Version Gml Filter Options Errors Helpers.
Import FeatureCollection Serializers Kvp OwsExceptionParser CapabilitiesParser Transport.
Import Client WfsClient KvpBuilders RequestSerializers Operations.
Import JsStringFacts ClientFacts NamespaceFacts ReferenceFacts.
Import ClientTerms NamespaceTerms ReferenceTerms.

(** *** Filters *)






(** *** References *)





(** *** The prefixes each serializer requires *)











(** *** The check *)


Section Requests.
Context `{Externals}.
Variable config : WfsClientConfig.
Variable prefix : string.
Hypothesis Hreserved : prefix ∉ RESERVED_PREFIXES.
Hypothesis Hprototype : prefix ∉ objectPrototypeKeys.
Hypothesis Hunmapped :
  forall uri, (prefix, uri) ∈ default [] (namespaces config) -> uri = "".














End Requests.


End MissingNamespaceFacts.
